(** * Semblance: the NE (New Executable) table decoders and the symbol demangler

    A shallow embedding of [ne_header.c]: the entry table decoder
    ([get_entry_table]), the name table reader ([read_res_name_table]), the
    specfile writer and reader ([print_specfile], [load_exports]) and the
    C++ name demangler ([demangle_protection], [demangle_type], [demangle]),
    and with them the reader of the header and of the tables of a module
    ([readne], [get_import_module_table]) and the printers of the header
    flags and of the exports ([print_flags], [print_os2flags],
    [print_export]).

    Conventions of the embedding.
    - C integers ([int], [byte], [word], [char]) are [Z]; a [char] or a
      [byte] stored in memory or in a file is an [ascii] and [Zc] gives its
      value in [0, 255].  The only arithmetic done on characters is range
      tests and the low three bits of a difference, which are the same for
      signed and unsigned [char].  The [int] that counts the entries of a
      table stays in the range of [int]: a sum outside of it is a fault of
      the run ([Err Overflow]).
    - A [char *] into a NUL terminated string is the list of the characters
      from the pointee up to, and without, the terminator: [[]] is a pointer
      to the terminator itself.  Reading behind the terminator, reading in
      front of the first character and using the result of a failed [strstr]
      or [strchr] are faults of the run ([Err]); they are not given a value.
      A number computed from such a result is a fault where it is used; the
      inner call of [demangle_protection], whose number is not used, goes on.
    - The [FILE *f], the standard error stream and the files on disk are
      explicit state, threaded through a state and error monad.
    - [strcat] on the local [char buffer[1024]] of [demangle] is list append;
      the capacity of the array is not part of the embedding: the value of
      [demangle] is the text that the calls of [strcat] write, and it is what
      the C function returns when the array holds the text ([fits_buffer]).
    - [malloc], [calloc] and [realloc] are taken to return the memory asked
      for.
    - The standard output stream is the list of the characters written to
      it. *)

From Stdlib Require Import ZArith List Ascii String Bool Lia.
Import ListNotations.

#[local] Open Scope Z_scope.
#[local] Open Scope list_scope.

(** ** Results and the state and error monad *)

Inductive error : Type :=
| Eof            (* a read at or behind the end of the file *)
| NullPointer    (* the result of a failed strstr or strchr is used *)
| OutOfBounds    (* an access outside of a string or an array *)
| Overflow       (* the sum of two [int]s is not an [int] *)
| OutOfFuel.     (* the bound on the number of loop iterations was too small *)

Inductive result (A : Type) : Type :=
| Ok (a : A)
| Err (e : error).

Arguments Ok {A} a.
Arguments Err {A} e.

Definition M (S A : Type) : Type := S -> result (A * S).

Definition ret {S A : Type} (a : A) : M S A := fun s => Ok (a, s).

Definition fail {S A : Type} (e : error) : M S A := fun _ => Err e.

Definition bind {S A B : Type} (m : M S A) (k : A -> M S B) : M S B :=
  fun s => match m s with
           | Ok (a, s') => k a s'
           | Err e => Err e
           end.

Definition lift {S A : Type} (r : result A) : M S A :=
  fun s => match r with
           | Ok a => Ok (a, s)
           | Err e => Err e
           end.

Definition rbind {A B : Type} (r : result A) (k : A -> result B) : result B :=
  match r with
  | Ok a => k a
  | Err e => Err e
  end.

Declare Scope monad_scope.
Delimit Scope monad_scope with monad.

Notation "x <- m ;; k" := (bind m (fun x => k))
  (at level 61, m at next level, right associativity) : monad_scope.
Notation "' p <- m ;; k" := (bind m (fun x => match x with p => k end))
  (at level 61, p pattern, m at next level, right associativity) : monad_scope.
Notation "m ;;; k" := (bind m (fun _ => k))
  (at level 61, right associativity) : monad_scope.

Notation "x <-- r ;; k" := (rbind r (fun x => k))
  (at level 61, r at next level, right associativity) : monad_scope.
Notation "' p <-- r ;; k" := (rbind r (fun x => match x with p => k end))
  (at level 61, p pattern, r at next level, right associativity) : monad_scope.

#[local] Open Scope monad_scope.

(** ** Characters and strings *)

Definition Zc (c : ascii) : Z := Z.of_N (N_of_ascii c).

Definition NUL : ascii := zero.

Definition str (s : string) : list ascii := list_ascii_of_string s.

(** [s[i]] for a string [s]: the terminator is readable, what lies behind
    it or in front of the string is not. *)
Definition char_at (s : list ascii) (i : Z) : result ascii :=
  if i <? 0 then Err OutOfBounds
  else match nth_error s (Z.to_nat i) with
       | Some c => Ok c
       | None => if i =? Z.of_nat (List.length s) then Ok NUL else Err OutOfBounds
       end.

(** [s + i] as a pointer that is read next. *)
Definition ptr_add (s : list ascii) (i : Z) : result (list ascii) :=
  if (0 <=? i) && (i <=? Z.of_nat (List.length s))
  then Ok (skipn (Z.to_nat i) s)
  else Err OutOfBounds.

Definition strlen (s : list ascii) : Z := Z.of_nat (List.length s).

(** A byte buffer read as a C string: the characters before the first NUL. *)
Fixpoint c_str (b : list ascii) : list ascii :=
  match b with
  | [] => []
  | c :: b' => if Ascii.eqb c NUL then [] else c :: c_str b'
  end.

(** ** Diagnostics written to the standard error stream *)

Inductive diagnostic : Type :=
| InterruptBytes (entry lo hi : Z)
| UnknownModifier (c : ascii) (func : list ascii)
| UnknownCallingConvention (c : ascii) (func : list ascii)
| UnknownReturnType (c : ascii) (func : list ascii)
| UnknownArgumentType (c : ascii) (func : list ascii)
| CouldntOpen                     (* perror("Couldn't open %s") *)
| NoSpecfile (module : list ascii)
| BadSpecfileLine (line : list ascii).

(** ** The byte source *)

Record io : Type := mkio {
  contents : list ascii;        (* the bytes of the file behind [f] *)
  fpos : Z;                     (* the position of [f] *)
  stderr : list diagnostic      (* what [warn] has written so far *)
}.

Definition set_fpos (st : io) (p : Z) : io :=
  mkio (contents st) p (stderr st).

(** Modelled from the spec: the ByteCursor primitives [read_byte] and
    [read_word] of the header semblance.h, which the code at hand lacks:
    fixed-width little-endian reads at the position of [f].  A read without
    a byte left is the error [Eof] here; a loop that reads on behind the end
    of the file is thereby a run that stops with [Eof]. *)
Definition read_byte : M io Z := fun st =>
  if fpos st <? 0 then Err Eof
  else match nth_error (contents st) (Z.to_nat (fpos st)) with
       | Some b => Ok (Zc b, set_fpos st (fpos st + 1))
       | None => Err Eof
       end.

Definition read_word : M io Z :=
  lo <- read_byte ;;
  hi <- read_byte ;;
  ret (lo + 256 * hi).

(** [fseek(f, start, SEEK_SET)] and [fseek(f, n, SEEK_CUR)]. *)
Definition fseek_set (start : Z) : M io unit :=
  fun st => Ok (tt, set_fpos st start).

Definition fseek_cur (n : Z) : M io unit :=
  fun st => Ok (tt, set_fpos st (fpos st + n)).

(** [fread(buf, sizeof(char), n, f)] of [n] bytes that are all there. *)
Fixpoint fread (n : nat) : M io (list ascii) :=
  match n with
  | O => ret []
  | S n' => fun st =>
      if fpos st <? 0 then Err Eof
      else match nth_error (contents st) (Z.to_nat (fpos st)) with
           | Some b => (bs <- fread n' ;; ret (b :: bs)) (set_fpos st (fpos st + 1))
           | None => Err Eof
           end
  end.

(** Modelled from the spec: [warn] of the header semblance.h, an advisory
    message on the error channel that never stops the decoder.  The message
    is kept as a value of [diagnostic], not as its text. *)
Definition warn {S : Type} (put : S -> diagnostic -> S) (d : diagnostic) : M S unit :=
  fun st => Ok (tt, put st d).

Definition io_warn (st : io) (d : diagnostic) : io :=
  mkio (contents st) (fpos st) (stderr st ++ [d]).

(** ** The module description *)

(** Modelled from the spec: [struct entry] of the absent header, the
    EntryTableEntry of the data model: flags (byte), segment (0 for an unused
    ordinal), offset (word) and the optional name.  The ordinal of the
    element of index [i] of an entry table is [i + 1]. *)
Record entry : Type := mkentry {
  e_flags : Z;
  e_segment : Z;
  e_offset : Z;
  e_name : option (list ascii)
}.

(** An element of a [calloc]ed entry array. *)
Definition zero_entry : entry := mkentry 0 0 0 None.

(** Modelled from the spec: the fields of [struct ne] that the functions
    below use (the module name and description, the entry table and its
    count). *)
Record ne : Type := mkne {
  ne_name : list ascii;
  ne_description : list ascii;
  ne_enttab : list entry;
  ne_entcount : Z
}.

(** [a[i]] and [a[i] = v] on an array of known size. *)
Definition load {A : Type} (a : list A) (i : Z) : result A :=
  if i <? 0 then Err OutOfBounds
  else match nth_error a (Z.to_nat i) with
       | Some x => Ok x
       | None => Err OutOfBounds
       end.

Fixpoint update {A : Type} (a : list A) (i : nat) (f : A -> A) : list A :=
  match a, i with
  | [], _ => []
  | x :: a', O => f x :: a'
  | x :: a', S i' => x :: update a' i' f
  end.

Definition store {A : Type} (a : list A) (i : Z) (f : A -> A) : result (list A) :=
  if (0 <=? i) && (i <? Z.of_nat (List.length a))
  then Ok (update a (Z.to_nat i) f)
  else Err OutOfBounds.

Definition set_flags (v : Z) (e : entry) : entry :=
  mkentry v (e_segment e) (e_offset e) (e_name e).
Definition set_segment (v : Z) (e : entry) : entry :=
  mkentry (e_flags e) v (e_offset e) (e_name e).
Definition set_offset (v : Z) (e : entry) : entry :=
  mkentry (e_flags e) (e_segment e) v (e_name e).
Definition set_name (v : list ascii) (e : entry) : entry :=
  mkentry (e_flags e) (e_segment e) (e_offset e) (Some v).

(** ** get_entry_table *)

Definition INT_MIN : Z := -2147483648.
Definition INT_MAX : Z := 2147483647.

(** [a + b] on two [int]s.  C gives no value to a sum that is not an [int]:
    it is a fault of the run. *)
Definition int_add (a b : Z) : result Z :=
  if (INT_MIN <=? a + b) && (a + b <=? INT_MAX) then Ok (a + b) else Err Overflow.

(** The first loop of [get_entry_table]: "get a count".  [count] is an
    [int] and [length] a byte. *)
Fixpoint count_entries (fuel : nat) (count : Z) : M io Z :=
  match fuel with
  | O => fail OutOfFuel
  | S fuel' =>
      len <- read_byte ;;
      if len =? 0 then ret count
      else
        index <- read_byte ;;
        count <- lift (int_add count len) ;;
        (if index =? 0 then ret tt
         else fseek_cur ((if index =? 255 then 6 else 3) * len)) ;;;
        count_entries fuel' count
  end.

(** The body of [for (i = 0; i < length; i++)], [n] iterations of it, with
    [count++] on the [int] at its end.  The [count+1] of the diagnostic is
    an [int]: the store in front of it has shown [count] to be an index of
    the array. *)
Fixpoint fill_bundle (n : nat) (index : Z) (enttab : list entry) (count : Z)
  : M io (list entry * Z) :=
  match n with
  | O => ret (enttab, count)
  | S n' =>
      enttab <-
        (if index =? 255 then
           v <- read_byte ;;
           enttab <- lift (store enttab count (set_flags v)) ;;
           w <- read_word ;;
           (if negb (w =? 16333)   (* 0x3fcd *)
            then warn io_warn
                   (InterruptBytes (count + 1) (Z.land w 255) (Z.shiftr w 16))
            else ret tt) ;;;
           v <- read_byte ;;
           enttab <- lift (store enttab count (set_segment v)) ;;
           v <- read_word ;;
           lift (store enttab count (set_offset v))
         else if index =? 0 then
           (* no entries, just here to skip ordinals *)
           ret enttab
         else
           v <- read_byte ;;
           enttab <- lift (store enttab count (set_flags v)) ;;
           enttab <- lift (store enttab count (set_segment index)) ;;
           v <- read_word ;;
           lift (store enttab count (set_offset v))) ;;
      count <- lift (int_add count 1) ;;
      fill_bundle n' index enttab count
  end.

(** The second loop of [get_entry_table]. *)
Fixpoint fill_entries (fuel : nat) (enttab : list entry) (count : Z)
  : M io (list entry * Z) :=
  match fuel with
  | O => fail OutOfFuel
  | S fuel' =>
      len <- read_byte ;;
      if len =? 0 then ret (enttab, count)
      else
        index <- read_byte ;;
        '(enttab, count) <- fill_bundle (Z.to_nat len) index enttab count ;;
        fill_entries fuel' enttab count
  end.

(** Every turn of either loop reads two bytes or more, so that a file of [n]
    bytes is walked in less than [n + 1] turns. *)
Definition walk_fuel (st : io) : nat := S (List.length (contents st)).

(** [calloc(sizeof(struct entry), count)], taken to return the array. *)
Definition calloc (count : Z) : list entry := repeat zero_entry (Z.to_nat count).

Definition get_entry_table (start : Z) (m : ne) : M io ne :=
  fseek_set start ;;;
  fuel <- (fun st => Ok (walk_fuel st, st)) ;;
  count <- count_entries fuel 0 ;;
  let enttab := calloc count in
  fseek_set start ;;;
  '(enttab, count) <- fill_entries fuel enttab 0 ;;
  ret (mkne (ne_name m) (ne_description m) enttab count).

(** ** The C library functions used on strings *)

(** [strchr(s, c)] for [c] other than NUL: the index of the first [c], or
    [None] for the null pointer. *)
Fixpoint strchr (s : list ascii) (c : ascii) : option Z :=
  match s with
  | [] => None
  | x :: s' => if Ascii.eqb x c then Some 0 else option_map Z.succ (strchr s' c)
  end.

Fixpoint is_prefix (needle s : list ascii) : bool :=
  match needle, s with
  | [], _ => true
  | _ :: _, [] => false
  | a :: needle', b :: s' => Ascii.eqb a b && is_prefix needle' s'
  end.

(** [strstr(s, needle)]: the index of the first occurrence, or [None]. *)
Fixpoint strstr (s needle : list ascii) : option Z :=
  if is_prefix needle s then Some 0
  else match s with
       | [] => None
       | _ :: s' => option_map Z.succ (strstr s' needle)
       end.

(** [strncat(buffer, src, n)]; [n] is not negative where it is used. *)
Definition strncat (buffer src : list ascii) (n : Z) : list ascii :=
  buffer ++ firstn (Z.to_nat n) src.

(** [buffer[i] = c] for [c] other than NUL, and [buffer[i] = 0]. *)
Definition poke (buffer : list ascii) (i : Z) (c : ascii) : result (list ascii) :=
  store buffer i (fun _ => c).

Definition cut (buffer : list ascii) (i : Z) : result (list ascii) :=
  if (0 <=? i) && (i <=? strlen buffer)
  then Ok (firstn (Z.to_nat i) buffer)
  else Err OutOfBounds.

Definition in_range (lo hi c : ascii) : bool :=
  (Zc lo <=? Zc c) && (Zc c <=? Zc hi).

Definition is_digit (c : ascii) : bool := in_range "0" "9" c.

(** ** The demangler *)

Definition log_warn (log : list diagnostic) (d : diagnostic) : list diagnostic :=
  log ++ [d].

(** A call of [demangle_protection(buffer, start, prot, func)] up to its
    [return]: the new contents of [buffer] and of [*prot], and the number
    that is returned.  [(strchr(start, '@')+1)-start] without an '@' in
    [start] is a number computed from the null pointer; computing it reads
    no memory and its value depends on the address of [start], so that the
    number is [Err NullPointer] here and the call itself ends.  The
    recursive call in the arm of '_' does not use the number that it gets. *)
Fixpoint demangle_protection_call (buffer start : list ascii) (prot : ascii)
    (func : list ascii) : M (list diagnostic) (result Z * list ascii * ascii) :=
  match start with
  | [] =>
      warn log_warn (UnknownModifier NUL func) ;;;
      ret (Ok 0, buffer, prot)
  | c :: start1 =>
      if in_range "A" "V" c then
        let d := Zc c - Zc "A" in
        let buffer := if negb (Z.land d 2 =? 0) then buffer ++ str "static " else buffer in
        let buffer := if negb (Z.land d 4 =? 0) then buffer ++ str "virtual " else buffer in
        let buffer := if Z.land d 1 =? 0 then buffer ++ str "near " else buffer in
        let buffer :=
          if Z.land d 24 =? 0 then buffer ++ str "private "
          else if Z.land d 24 =? 8 then buffer ++ str "protected "
          else if Z.land d 24 =? 16 then buffer ++ str "public "
          else buffer in
        ret (Ok 1, buffer, c)
      else if Ascii.eqb c "Y" then
        ret (Ok 1, buffer ++ str "near ", prot)
      else if Ascii.eqb c "Z" then
        ret (Ok 1, buffer, prot)
      else if Ascii.eqb c "X" then
        let prot := "V"%char in
        c1 <- lift (char_at start 1) ;;
        if is_digit c1 then
          let buffer := buffer ++ str "(X0) " in
          buffer <- lift (poke buffer (strlen buffer - 3) c1) ;;
          ret (Ok 2, buffer, prot)
        else
          match strchr start "@" with
          | Some k => ret (Ok (k + 1), buffer, prot)
          | None => ret (Err NullPointer, buffer, prot)
          end
      else if Ascii.eqb c "_"
              && negb (match start1 with c1 :: _ => Ascii.eqb c1 "$" | [] => false end)
      then
        '(_, buffer, prot) <- demangle_protection_call buffer start1 prot func ;;
        c3 <- lift (char_at start 3) ;;
        if is_digit c3 then
          c2 <- lift (char_at start 2) ;;
          let buffer := buffer ++ str "(_00) " in
          buffer <- lift (poke buffer (strlen buffer - 4) c2) ;;
          buffer <- lift (poke buffer (strlen buffer - 3) c3) ;;
          ret (Ok 4, buffer, prot)
        else
          match strchr start "@" with
          | Some k => ret (Ok (k + 1), buffer, prot)
          | None => ret (Err NullPointer, buffer, prot)
          end
      else
        warn log_warn (UnknownModifier c func) ;;;
        ret (Ok 0, buffer, prot)
  end.

(** [len = demangle_protection(buffer, start, &prot, func)] for a caller
    that uses the number, as [demangle] does: a number computed from the
    null pointer is a fault of the run there. *)
Definition demangle_protection (buffer start : list ascii) (prot : ascii)
    (func : list ascii) : M (list diagnostic) (Z * list ascii * ascii) :=
  '(len, buffer, prot) <- demangle_protection_call buffer start prot func ;;
  len <- lift len ;;
  ret (len, buffer, prot).

Definition int_types : list (list ascii) :=
  [ str "signed char";      (* C *)
    str "char";             (* D *)
    str "unsigned char";    (* E *)
    str "short";            (* F *)
    str "unsigned short";   (* G *)
    str "int";              (* H *)
    str "unsigned int";     (* I *)
    str "long";             (* J *)
    str "unsigned long" ].  (* K *)

(** [demangle_type(buffer, type)]: the number of characters processed, with
    the new contents of [buffer]. *)
Fixpoint demangle_type (buffer type : list ascii) : result (Z * list ascii) :=
  match type with
  | [] => Ok (0, buffer)
  | c :: type1 =>
      if in_range "C" "K" c then
        Ok (1, buffer ++ nth (Z.to_nat (Zc c - Zc "C")) int_types [] ++ str " ")
      else if Ascii.eqb c "A" || Ascii.eqb c "P" then
        let d := Zc (match type1 with c1 :: _ => c1 | [] => NUL end) - Zc "A" in
        let buffer := if negb (Z.land d 1 =? 0) then buffer ++ str "const " else buffer in
        let buffer := if negb (Z.land d 2 =? 0) then buffer ++ str "volatile " else buffer in
        match type1 with
        | [] => Err OutOfBounds
        | _ :: type2 =>
            '(ret, buffer) <-- demangle_type buffer type2 ;;
            let buffer := if Z.land d 4 =? 0 then buffer ++ str "near " else buffer in
            let buffer := buffer ++ (if Ascii.eqb c "A" then str "&" else str "*") in
            Ok (ret + 2, buffer)
        end
      else if Ascii.eqb c "M" then Ok (1, buffer ++ str "float ")
      else if Ascii.eqb c "N" then Ok (1, buffer ++ str "double ")
      else if Ascii.eqb c "U" || Ascii.eqb c "V" then
        (* These represent structs (U) or types (V). *)
        match (match strstr type (str "@@") with
               | Some e => Some e
               | None => strchr type "@"
               end) with
        | Some e =>
            let buffer := strncat buffer type1 (e - 1) in
            Ok (e, buffer ++ str " ")
        | None => Err NullPointer
        end
      else if Ascii.eqb c "X" then Ok (1, buffer ++ str "void ")
      else Ok (0, buffer)
  end.

(** [while ( *start != '?' && *start != '@') start--;] *)
Fixpoint scan_back (fuel : nat) (func : list ascii) (start : Z) : result Z :=
  match fuel with
  | O => Err OutOfFuel
  | S fuel' =>
      c <-- char_at func start ;;
      if negb (Ascii.eqb c "?") && negb (Ascii.eqb c "@")
      then scan_back fuel' func (start - 1)
      else Ok start
  end.

(** The [while (1)] loop of [demangle] that gets the class name; [start] and
    [end] are equal whenever its body is entered. *)
Fixpoint demangle_classname (fuel : nat) (func : list ascii) (end_ : Z)
    (buffer : list ascii) : result (list ascii) :=
  match fuel with
  | O => Err OutOfFuel
  | S fuel' =>
      let start := end_ - 1 in
      start <-- scan_back (S (List.length func)) func start ;;
      src <-- ptr_add func (start + 1) ;;
      let buffer := strncat buffer src (end_ - (start + 1)) in
      c <-- char_at func start ;;
      if Ascii.eqb c "?" then Ok buffer
      else demangle_classname fuel' func start (buffer ++ str "::")
  end.

(** The [while ( *p != '@')] loop of [demangle] that prints the arguments. *)
Fixpoint demangle_args (fuel : nat) (func : list ascii) (p : Z)
    (buffer : list ascii) : M (list diagnostic) (list ascii) :=
  match fuel with
  | O => fail OutOfFuel
  | S fuel' =>
      c <- lift (char_at func p) ;;
      if Ascii.eqb c "@" then ret buffer
      else
        type <- lift (ptr_add func p) ;;
        '(len, buffer) <- lift (demangle_type buffer type) ;;
        len <- (if len =? 0
                then warn log_warn (UnknownArgumentType c func) ;;; ret 1
                else ret len) ;;
        last <- lift (load buffer (strlen buffer - 1)) ;;
        buffer <- (if Ascii.eqb last " "
                   then lift (cut buffer (strlen buffer - 1))
                   else ret buffer) ;;
        let p := p + len in
        demangle_args fuel' func p (buffer ++ str ", ")
  end.

(** [demangle(func)].  The value is the text that the code builds in
    [buffer]; the array of 1024 characters has no capacity here. *)
Definition demangle (func : list ascii) : M (list diagnostic) (list ascii) :=
  let prot := NUL in
  (* Figure out the modifiers and calling convention. *)
  let buffer := [] in
  match strstr func (str "@@") with
  | None => fail NullPointer
  | Some sep =>
      let p := sep + 2 in
      start <- lift (ptr_add func p) ;;
      '(len, buffer, prot) <- demangle_protection buffer start prot func ;;
      if len =? 0 then ret func
      else
        let p := p + len in
        (* The next one seems to always be E or F. *)
        p <- (if in_range "A" "V" prot && (Z.land (Zc prot - Zc "A") 2 =? 0)
              then
                c <- lift (char_at func p) ;;
                (if negb (Ascii.eqb c "E") && negb (Ascii.eqb c "F")
                 then warn log_warn (UnknownModifier c func)
                 else ret tt) ;;;
                ret (p + 1)
              else ret p) ;;
        (* This should mark the calling convention. *)
        c <- lift (char_at func p) ;;
        buffer <- (if Ascii.eqb c "A" then ret buffer
                   else if Ascii.eqb c "C" then ret (buffer ++ str "__pascal ")
                   else warn log_warn (UnknownCallingConvention c func) ;;;
                        ret buffer) ;;
        (* This marks the return value. *)
        let p := p + 1 in
        type <- lift (ptr_add func p) ;;
        '(len, buffer) <- lift (demangle_type buffer type) ;;
        len <- (if len =? 0
                then
                  c <- lift (char_at func p) ;;
                  warn log_warn (UnknownReturnType c func) ;;; ret 1
                else ret len) ;;
        let p := p + len in
        (* Get the classname. *)
        buffer <- lift (demangle_classname (S (List.length func)) func sep buffer) ;;
        (* Print the arguments. *)
        c <- lift (char_at func p) ;;
        if Ascii.eqb c "X" then ret (buffer ++ str "(void)")
        else
          let buffer := buffer ++ str "(" in
          buffer <- demangle_args (S (List.length func)) func p buffer ;;
          buffer <- lift (poke buffer (strlen buffer - 2) ")") ;;
          buffer <- lift (cut buffer (strlen buffer - 1)) ;;
          ret buffer
  end.

(** [if ((opts & DEMANGLE) && name[0] == '?') name = demangle(name);], the
    guarded call that [read_res_name_table] and [load_exports] make. *)
Definition demangle_name (opts_DEMANGLE : bool) (name : list ascii)
  : M (list diagnostic) (list ascii) :=
  if opts_DEMANGLE
     && (match name with c :: _ => Ascii.eqb c "?" | [] => false end)
  then demangle name
  else ret name.

(** ** read_res_name_table *)

Definition io_stderr (st : io) (log : list diagnostic) : io :=
  mkio (contents st) (fpos st) log.

(** A computation that only writes diagnostics, run inside a larger state. *)
Definition on_stderr {S A : Type} (get : S -> list diagnostic)
    (put : S -> list diagnostic -> S) (m : M (list diagnostic) A) : M S A :=
  fun st => match m (get st) with
            | Ok (a, log) => Ok (a, put st log)
            | Err e => Err e
            end.

(** The [while ((length = read_byte()))] loop of [read_res_name_table]. *)
Fixpoint read_names (fuel : nat) (opts_DEMANGLE : bool) (entry_table : list entry)
  : M io (list entry) :=
  match fuel with
  | O => fail OutOfFuel
  | S fuel' =>
      len <- read_byte ;;
      if len =? 0 then ret entry_table
      else
        bytes <- fread (Z.to_nat len) ;;
        let name := c_str bytes in
        ordinal <- read_word ;;
        name <- on_stderr stderr io_stderr (demangle_name opts_DEMANGLE name) ;;
        entry_table <- lift (store entry_table (ordinal - 1) (set_name name)) ;;
        read_names fuel' opts_DEMANGLE entry_table
  end.

(** Reads (non)resident names into the entry table and returns the first
    entry (module name/desc). *)
Definition read_res_name_table (opts_DEMANGLE : bool) (start : Z)
    (entry_table : list entry) : M io (list ascii * list entry) :=
  fseek_set start ;;;
  len <- read_byte ;;
  bytes <- fread (Z.to_nat len) ;;
  let first := c_str bytes in
  fseek_cur 2 ;;;
  fuel <- (fun st => Ok (walk_fuel st, st)) ;;
  entry_table <- read_names fuel opts_DEMANGLE entry_table ;;
  ret (first, entry_table).

(** ** Specfiles *)

(** The files on disk and the standard error stream. *)
Record sys : Type := mksys {
  files : list (list ascii * list ascii);   (* path and contents, newest first *)
  unwritable : list (list ascii);           (* paths that fopen(.., "w") refuses *)
  sys_stderr : list diagnostic
}.

Definition path_eqb (a b : list ascii) : bool :=
  if list_eq_dec ascii_dec a b then true else false.

Fixpoint lookup_file (fs : list (list ascii * list ascii)) (path : list ascii)
  : option (list ascii) :=
  match fs with
  | [] => None
  | (p, c) :: fs' => if path_eqb p path then Some c else lookup_file fs' path
  end.

(** [fopen(path, "r")]: the contents of the file, or [None] for NULL. *)
Definition fopen_r (path : list ascii) : M sys (option (list ascii)) :=
  fun st => Ok (lookup_file (files st) path, st).

(** [fopen(path, "w")]: whether the stream is not NULL. *)
Definition fopen_w (path : list ascii) : M sys bool :=
  fun st => Ok (negb (existsb (path_eqb path) (unwritable st)), st).

(** [fclose] of a stream opened for writing, after [out] was written to it. *)
Definition fclose_w (path out : list ascii) : M sys unit :=
  fun st => Ok (tt, mksys ((path, out) :: files st) (unwritable st) (sys_stderr st)).

Definition sys_warn (st : sys) (d : diagnostic) : sys :=
  mksys (files st) (unwritable st) (sys_stderr st ++ [d]).

Definition sys_set_stderr (st : sys) (log : list diagnostic) : sys :=
  mksys (files st) (unwritable st) log.

Definition digit_char (d : Z) : ascii := ascii_of_N (Z.to_N (48 + d)).

(** The decimal digits of [n >= 0], most significant first, in front of
    [acc]. *)
Fixpoint dec_digits (fuel : nat) (n : Z) (acc : list ascii) : list ascii :=
  match fuel with
  | O => acc
  | S fuel' =>
      let acc := digit_char (n mod 10) :: acc in
      if n / 10 =? 0 then acc else dec_digits fuel' (n / 10) acc
  end.

(** The conversion [%d] of the C library. *)
Definition fmt_d (n : Z) : list ascii :=
  if n <? 0
  then "-"%char :: dec_digits (S (Z.to_nat (Z.log2 (- n)))) (- n) []
  else dec_digits (S (Z.to_nat (Z.log2 n))) n [].

Definition TAB : ascii := "009".
Definition NL : ascii := "010".

(** The [for] loop of [print_specfile], [n] iterations of it from index
    [i]; [out] is what was written to the specfile so far. *)
Fixpoint print_specfile_lines (n : nat) (i : Z) (enttab : list entry)
    (out : list ascii) : result (list ascii) :=
  match n with
  | O => Ok out
  | S n' =>
      e <-- load enttab i ;;
      let out :=
        match e_name e with
        | Some name => out ++ fmt_d (i + 1) ++ [TAB] ++ name ++ [NL]
        | None =>
            if negb (e_segment e =? 0)
            then out ++ fmt_d (i + 1) ++ [NL]
            else out
        end in
      print_specfile_lines n' (i + 1) enttab out
  end.

Definition print_specfile (m : ne) : M sys unit :=
  let spec_name := firstn 8 (ne_name m) ++ str ".ORD" in
  specfile <- fopen_w spec_name ;;
  if negb specfile then
    warn sys_warn CouldntOpen
  else
    let out := str "# Generated by dumpne -o" ++ [NL] in
    out <- lift (print_specfile_lines (Z.to_nat (ne_entcount m)) 0 (ne_enttab m) out) ;;
    fclose_w spec_name out.

(** Modelled from the spec: [struct export] and [struct import_module] of
    the absent header, the ExportRecord and the ImportModule of the data
    model. *)
Record export : Type := mkexport {
  x_ordinal : Z;
  x_name : option (list ascii)
}.

Record import_module : Type := mkimport {
  im_name : list ascii;
  im_exports : list export;
  im_export_count : Z
}.

(** [fgets(line, size, specfile)] on what is left of the stream: the bytes
    stored in [line] and what is left then, or [None] for NULL at the end of
    the file. *)
Fixpoint fgets_bytes (n : nat) (s : list ascii) : list ascii * list ascii :=
  match n, s with
  | O, _ => ([], s)
  | _, [] => ([], [])
  | S n', c :: s' =>
      if Ascii.eqb c NL then ([c], s')
      else let (l, r) := fgets_bytes n' s' in (c :: l, r)
  end.

Definition fgets (size : nat) (s : list ascii) : option (list ascii * list ascii) :=
  match s with
  | [] => None
  | _ :: _ => Some (fgets_bytes (size - 1) s)
  end.

Definition isspace (c : ascii) : bool :=
  Ascii.eqb c " " || in_range "009" "013" c.

Fixpoint skip_space (s : list ascii) : list ascii :=
  match s with
  | c :: s' => if isspace c then skip_space s' else s
  | [] => []
  end.

Fixpoint scan_digits (s : list ascii) (acc : Z) : Z :=
  match s with
  | c :: s' => if is_digit c then scan_digits s' (10 * acc + (Zc c - 48)) else acc
  | [] => acc
  end.

(** [sscanf(line, "%hu", &ordinal)] of the C library: the value stored, or
    [None] when no conversion was made.  White space is skipped, a sign is
    accepted, and the number read is stored in an [unsigned short], that
    is modulo 2^16. *)
Definition sscanf_hu (line : list ascii) : option Z :=
  let s := skip_space line in
  let '(neg, s) :=
    match s with
    | c :: s' =>
        if Ascii.eqb c "-" then (true, s')
        else if Ascii.eqb c "+" then (false, s')
        else (false, s)
    | [] => (false, s)
    end in
  match s with
  | c :: _ =>
      if is_digit c then
        let v := scan_digits s 0 in
        Some ((if neg then - v else v) mod 65536)
      else None
  | [] => None
  end.

Definition skips_line (line : list ascii) : bool :=
  match line with
  | c :: _ => Ascii.eqb c "#" || Ascii.eqb c NL
  | [] => false
  end.

(** The first loop of [load_exports]: "first grab a count". *)
Fixpoint count_exports (fuel : nat) (specfile : list ascii) (count : Z) : result Z :=
  match fuel with
  | O => Err OutOfFuel
  | S fuel' =>
      match fgets 300 specfile with
      | None => Ok count
      | Some (line, specfile) =>
          if skips_line line then count_exports fuel' specfile count
          else count_exports fuel' specfile (count + 1)
      end
  end.

Definition set_ordinal (v : Z) (x : export) : export := mkexport v (x_name x).
Definition set_export_name (v : option (list ascii)) (x : export) : export :=
  mkexport (x_ordinal x) v.

(** The second loop of [load_exports]. *)
Fixpoint read_exports (fuel : nat) (opts_DEMANGLE : bool) (specfile : list ascii)
    (exports : list export) (count : Z) : M sys (list export * Z) :=
  match fuel with
  | O => fail OutOfFuel
  | S fuel' =>
      match fgets 300 specfile with
      | None => ret (exports, count)
      | Some (line, specfile) =>
          if skips_line line then
            read_exports fuel' opts_DEMANGLE specfile exports count
          else
            let line := c_str line in
            (* kill final newline *)
            let line := match strchr line NL with
                        | Some p => firstn (Z.to_nat p) line
                        | None => line
                        end in
            match sscanf_hu line with
            | None =>
                warn sys_warn (BadSpecfileLine line) ;;;
                read_exports fuel' opts_DEMANGLE specfile exports count
            | Some ordinal =>
                exports <- lift (store exports count (set_ordinal ordinal)) ;;
                name <-
                  match strchr line TAB with
                  | Some p =>
                      let name := skipn (Z.to_nat (p + 1)) line in
                      name <- on_stderr sys_stderr sys_set_stderr
                                (demangle_name opts_DEMANGLE name) ;;
                      ret (Some name)
                  | None => ret None
                  end ;;
                exports <- lift (store exports count (set_export_name name)) ;;
                read_exports fuel' opts_DEMANGLE specfile exports (count + 1)
            end
      end
  end.

(** An array from [malloc]; its elements are not read before being set. *)
Definition malloc_exports (count : Z) : list export :=
  repeat (mkexport 0 None) (Z.to_nat count).

Definition load_exports (opts_DEMANGLE : bool) (module : import_module)
  : M sys import_module :=
  specfile <- fopen_r (firstn 8 (im_name module) ++ str ".ORD") ;;
  specfile <-
    match specfile with
    | Some s => ret (Some s)
    | None => fopen_r (str "spec/" ++ firstn 8 (im_name module) ++ str ".ORD")
    end ;;
  match specfile with
  | None =>
      warn sys_warn (NoSpecfile (im_name module)) ;;;
      ret (mkimport (im_name module) [] 0)
  | Some specfile =>
      let fuel := S (List.length specfile) in
      (* first grab a count *)
      count <- lift (count_exports fuel specfile 0) ;;
      let exports := malloc_exports count in
      '(exports, count) <- read_exports fuel opts_DEMANGLE specfile exports 0 ;;
      ret (mkimport (im_name module) exports count)
  end.

(** ** The NE header *)

Module Header.

(** [struct header_ne], packed: the fields in the order of the file, each
    with its offset. *)
Record header_ne : Type := mkheader {
  ne_magic : Z;             (* 00 NE signature 'NE' *)
  ne_ver : Z;               (* 02 Linker version number *)
  ne_rev : Z;               (* 03 Linker revision number *)
  ne_enttab : Z;            (* 04 Offset to entry table relative to NE *)
  ne_cbenttab : Z;          (* 06 Length of entry table in bytes *)
  ne_crc : Z;               (* 08 Checksum *)
  ne_flags : Z;             (* 0c Flags about segments in this file *)
  ne_autodata : Z;          (* 0e Automatic data segment number *)
  ne_unused : Z;            (* 0f *)
  ne_heap : Z;              (* 10 Initial size of local heap *)
  ne_stack : Z;             (* 12 Initial size of stack *)
  ne_ip : Z;                (* 14 Initial IP *)
  ne_cs : Z;                (* 16 Initial CS *)
  ne_sp : Z;                (* 18 Initial SP *)
  ne_ss : Z;                (* 1a Initial SS *)
  ne_cseg : Z;              (* 1c # of entries in segment table *)
  ne_cmod : Z;              (* 1e # of entries in module reference tab. *)
  ne_cbnrestab : Z;         (* 20 Length of nonresident-name table *)
  ne_segtab : Z;            (* 22 Offset to segment table *)
  ne_rsrctab : Z;           (* 24 Offset to resource table *)
  ne_restab : Z;            (* 26 Offset to resident-name table *)
  ne_modtab : Z;            (* 28 Offset to module reference table *)
  ne_imptab : Z;            (* 2a Offset to imported name table *)
  ne_nrestab : Z;           (* 2c Offset to nonresident-name table *)
  ne_cmovent : Z;           (* 30 # of movable entry points *)
  ne_align : Z;             (* 32 Logical sector alignment shift count *)
  ne_cres : Z;              (* 34 # of resource segments *)
  ne_exetyp : Z;            (* 36 Flags indicating target OS *)
  ne_flagsothers : Z;       (* 37 Additional information flags *)
  ne_pretthunks : Z;        (* 38 Offset to return thunks *)
  ne_psegrefbytes : Z;      (* 3a Offset to segment ref. bytes *)
  ne_swaparea : Z;          (* 3c Reserved by Microsoft *)
  ne_expver_min : Z;        (* 3e Expected Windows version number (minor) *)
  ne_expver_maj : Z         (* 3f Expected Windows version number (major) *)
}.

End Header.

(** The value of the bytes of a field, the low byte first. *)
Fixpoint le_value (bytes : list ascii) : Z :=
  match bytes with
  | [] => 0
  | b :: bytes' => Zc b + 256 * le_value bytes'
  end.

(** The next field of [size] bytes of a packed structure that is read from
    a list of bytes. *)
Definition field (size : nat) : M (list ascii) Z :=
  fun bytes =>
    if (size <=? List.length bytes)%nat
    then Ok (le_value (firstn size bytes), skipn size bytes)
    else Err OutOfBounds.

Definition byte_field : M (list ascii) Z := field 1.
Definition word_field : M (list ascii) Z := field 2.
Definition dword_field : M (list ascii) Z := field 4.

(** The bytes of a [struct header_ne] read as its fields. *)
Definition decode_header : M (list ascii) Header.header_ne :=
  ne_magic <- word_field ;;
  ne_ver <- byte_field ;;
  ne_rev <- byte_field ;;
  ne_enttab <- word_field ;;
  ne_cbenttab <- word_field ;;
  ne_crc <- dword_field ;;
  ne_flags <- word_field ;;
  ne_autodata <- byte_field ;;
  ne_unused <- byte_field ;;
  ne_heap <- word_field ;;
  ne_stack <- word_field ;;
  ne_ip <- word_field ;;
  ne_cs <- word_field ;;
  ne_sp <- word_field ;;
  ne_ss <- word_field ;;
  ne_cseg <- word_field ;;
  ne_cmod <- word_field ;;
  ne_cbnrestab <- word_field ;;
  ne_segtab <- word_field ;;
  ne_rsrctab <- word_field ;;
  ne_restab <- word_field ;;
  ne_modtab <- word_field ;;
  ne_imptab <- word_field ;;
  ne_nrestab <- dword_field ;;
  ne_cmovent <- word_field ;;
  ne_align <- word_field ;;
  ne_cres <- word_field ;;
  ne_exetyp <- byte_field ;;
  ne_flagsothers <- byte_field ;;
  ne_pretthunks <- word_field ;;
  ne_psegrefbytes <- word_field ;;
  ne_swaparea <- word_field ;;
  ne_expver_min <- byte_field ;;
  ne_expver_maj <- byte_field ;;
  ret (Header.mkheader
         ne_magic ne_ver ne_rev ne_enttab ne_cbenttab ne_crc ne_flags
         ne_autodata ne_unused ne_heap ne_stack ne_ip ne_cs ne_sp ne_ss
         ne_cseg ne_cmod ne_cbnrestab ne_segtab ne_rsrctab ne_restab
         ne_modtab ne_imptab ne_nrestab ne_cmovent ne_align ne_cres ne_exetyp
         ne_flagsothers ne_pretthunks ne_psegrefbytes ne_swaparea
         ne_expver_min ne_expver_maj).

(** [sizeof(struct header_ne)], as the source asserts it. *)
Definition sizeof_header_ne : nat := 64.

(** [fread(&ne->header, sizeof(struct header_ne), 1, f)] on a host that
    stores the low byte first. *)
Definition fread_header : M io Header.header_ne :=
  bytes <- fread sizeof_header_ne ;;
  '(header, _) <- lift (decode_header bytes) ;;
  ret header.

(** ** get_import_module_table *)

(** The file behind [f] together with the files on disk. *)
Record world : Type := mkworld {
  w_io : io;
  w_sys : sys
}.

Definition on_io {A : Type} (m : M io A) : M world A :=
  fun w => match m (w_io w) with
           | Ok (a, st) => Ok (a, mkworld st (w_sys w))
           | Err e => Err e
           end.

Definition on_sys {A : Type} (m : M sys A) : M world A :=
  fun w => match m (w_sys w) with
           | Ok (a, st) => Ok (a, mkworld (w_io w) st)
           | Err e => Err e
           end.

(** [memcpy(dst, &a[from], n)] and what [dst] holds then. *)
Definition memcpy_from (a : list ascii) (from n : Z) : result (list ascii) :=
  if (0 <=? from) && (from + n <=? Z.of_nat (List.length a))
  then Ok (firstn (Z.to_nat n) (skipn (Z.to_nat from) a))
  else Err OutOfBounds.

Definition set_im_name (v : list ascii) (module : import_module) : import_module :=
  mkimport v (im_exports module) (im_export_count module).

(** The [for] loop of [get_import_module_table], [n] iterations of it from
    the index [i]. *)
Fixpoint import_modules (n : nat) (mode_DISASSEMBLE opts_DEMANGLE : bool)
    (nametab : list ascii) (imptab : list import_module) (i : Z)
  : M world (list import_module) :=
  match n with
  | O => ret imptab
  | S n' =>
      offset <- on_io read_word ;;
      length <- lift (load nametab offset) ;;
      let length := Zc length in
      bytes <- lift (memcpy_from nametab (offset + 1) length) ;;
      imptab <- lift (store imptab i (set_im_name (c_str bytes))) ;;
      module <- lift (load imptab i) ;;
      module <- (if mode_DISASSEMBLE
                 then on_sys (load_exports opts_DEMANGLE module)
                 else ret (mkimport (im_name module) [] 0)) ;;
      imptab <- lift (store imptab i (fun _ => module)) ;;
      import_modules n' mode_DISASSEMBLE opts_DEMANGLE nametab imptab (i + 1)
  end.

(** An array of modules from [malloc]. *)
Definition malloc_modules (count : Z) : list import_module :=
  repeat (mkimport [] [] 0) (Z.to_nat count).

(** [get_import_module_table(start, ne)]; the fields [header.ne_cmod] and
    [nametab] of [ne] are arguments and its new field [imptab] is the
    value. *)
Definition get_import_module_table (mode_DISASSEMBLE opts_DEMANGLE : bool)
    (start : Z) (ne_cmod : Z) (nametab : list ascii)
  : M world (list import_module) :=
  on_io (fseek_set start) ;;;
  import_modules (Z.to_nat ne_cmod) mode_DISASSEMBLE opts_DEMANGLE nametab
    (malloc_modules ne_cmod) 0.

(** ** readne *)

(** Modelled from the spec: [struct ne] with the fields that [readne] sets
    besides those of the record [ne]: the header, the imported name table
    and the import module table. *)
Record module_ne : Type := mkmodule {
  mod_header : Header.header_ne;
  mod_ne : ne;
  mod_nametab : list ascii;
  mod_imptab : list import_module
}.

(** [malloc(n)] and [fread(buf, sizeof(byte), n, f)] for a number [n] of
    bytes that the code computes as a difference; a negative number is a
    fault. *)
Definition fread_bytes (n : Z) : M io (list ascii) :=
  if n <? 0 then fail OutOfBounds else fread (Z.to_nat n).

(** [readne(offset_ne, ne)].  The function ends with a call of
    [read_segments], which is not part of this file: it is an argument
    here. *)
Definition readne (mode_DISASSEMBLE opts_DEMANGLE : bool)
    (read_segments : Z -> module_ne -> M world module_ne) (offset_ne : Z)
  : M world module_ne :=
  on_io (fseek_set offset_ne) ;;;
  header <- on_io fread_header ;;
  (* read our various tables *)
  m <- on_io (get_entry_table (offset_ne + Header.ne_enttab header) (mkne [] [] [] 0)) ;;
  '(name, enttab) <-
    on_io (read_res_name_table opts_DEMANGLE (offset_ne + Header.ne_restab header)
             (ne_enttab m)) ;;
  '(description, enttab) <-
    on_io (read_res_name_table opts_DEMANGLE (Header.ne_nrestab header) enttab) ;;
  on_io (fseek_set (offset_ne + Header.ne_imptab header)) ;;;
  nametab <- on_io (fread_bytes (Header.ne_enttab header - Header.ne_imptab header)) ;;
  imptab <-
    get_import_module_table mode_DISASSEMBLE opts_DEMANGLE
      (offset_ne + Header.ne_modtab header) (Header.ne_cmod header) nametab ;;
  read_segments (offset_ne + Header.ne_segtab header)
    (mkmodule header (mkne name description enttab (ne_entcount m)) nametab imptab).

(** ** Printing the header flags *)

(** [printf] and [putchar]: the state is what was written to the standard
    output so far. *)
Definition printf (text : list ascii) : M (list ascii) unit :=
  fun out => Ok (tt, out ++ text).

Definition hex_char (d : Z) : ascii :=
  if d <? 10 then ascii_of_N (Z.to_N (48 + d)) else ascii_of_N (Z.to_N (87 + d)).

(** The hexadecimal digits of [n >= 0], most significant first, in front
    of [acc]. *)
Fixpoint hex_digits (fuel : nat) (n : Z) (acc : list ascii) : list ascii :=
  match fuel with
  | O => acc
  | S fuel' =>
      let acc := hex_char (n mod 16) :: acc in
      if n / 16 =? 0 then acc else hex_digits fuel' (n / 16) acc
  end.

(** The conversion [%x] of the C library, for a number that is not
    negative. *)
Definition fmt_x (n : Z) : list ascii :=
  hex_digits (S (Z.to_nat (Z.log2 n))) n [].

(** A field of the width [width] or more, filled with [c] on the left. *)
Definition pad (c : ascii) (width : nat) (text : list ascii) : list ascii :=
  repeat c (width - List.length text) ++ text.

(** The conversions [%04x], [%5d] and [%2d]. *)
Definition fmt_04x (n : Z) : list ascii := pad "0" 4 (fmt_x n).
Definition fmt_5d (n : Z) : list ascii := pad " " 5 (fmt_d n).
Definition fmt_2d (n : Z) : list ascii := pad " " 2 (fmt_d n).

(** A test [if (flags & mask)] followed by a [strcat]. *)
Definition strcat_if (flags mask : Z) (buffer : list ascii) (text : string)
  : list ascii :=
  if negb (Z.land flags mask =? 0) then buffer ++ str text else buffer.

(** The local [char buffer[1024]] of [print_flags] when it is printed.  The
    buffer is set by one of four tests; a buffer that none of them sets is
    not a string, and [strcat] on it is a fault. *)
Definition print_flags_buffer (flags : Z) : result (list ascii) :=
  buffer <--
    (if Z.land flags 3 =? 0 then Ok (str "no DGROUP")
     else if Z.land flags 3 =? 1 then Ok (str "single DGROUP")
     else if Z.land flags 3 =? 2 then Ok (str "multiple DGROUPs")
     else if Z.land flags 3 =? 3 then Ok (str "(unknown DGROUP type 3)")
     else Err OutOfBounds) ;;
  let buffer := strcat_if flags 4 buffer ", global initialization" in
  let buffer := strcat_if flags 8 buffer ", protected mode only" in
  let buffer := strcat_if flags 16 buffer ", 8086" in
  let buffer := strcat_if flags 32 buffer ", 80286" in
  let buffer := strcat_if flags 64 buffer ", 80386" in
  let buffer := strcat_if flags 128 buffer ", 80x87" in
  let buffer :=
    if Z.land flags 1792 =? 256 then buffer ++ str ", fullscreen"   (* FRAMEBUF *)
    else if Z.land flags 1792 =? 512 then buffer ++ str ", console" (* API compatible *)
    else if Z.land flags 1792 =? 768 then buffer ++ str ", GUI"     (* uses API *)
    else if Z.land flags 1792 =? 0 then buffer ++ str ", (no subsystem)"
    else buffer ++ str ", (unknown application type "
           ++ fmt_d (Z.shiftr (Z.land flags 1792) 8) ++ str ")" in
  let buffer := strcat_if flags 2048 buffer ", self-loading" in   (* OS/2 family *)
  let buffer := strcat_if flags 4096 buffer ", (unknown flag 0x1000)" in
  let buffer := strcat_if flags 8192 buffer ", contains linker errors" in
  let buffer := strcat_if flags 16384 buffer ", non-conforming program" in
  let buffer := strcat_if flags 32768 buffer ", library" in
  Ok buffer.

Definition print_flags (flags : Z) : M (list ascii) unit :=
  buffer <- lift (print_flags_buffer flags) ;;
  printf (str "Flags: 0x" ++ fmt_04x flags ++ str " (" ++ buffer ++ str ")" ++ [NL]).

(** The local buffer of [print_os2flags] when it is printed. *)
Definition print_os2flags_buffer (flags : Z) : list ascii :=
  let buffer := [] in
  let buffer := strcat_if flags 1 buffer ", long filename support" in
  let buffer := strcat_if flags 2 buffer ", 2.x protected mode" in
  let buffer := strcat_if flags 4 buffer ", 2.x proportional fonts" in
  let buffer := strcat_if flags 8 buffer ", fast-load area" in   (* gangload *)
  if negb (Z.land flags 65520 =? 0)
  then buffer ++ str ", (unknown flags 0x" ++ fmt_04x (Z.land flags 65520) ++ str ")"
  else buffer.

Definition print_os2flags (flags : Z) : M (list ascii) unit :=
  let buffer := print_os2flags_buffer flags in
  c <- lift (char_at buffer 0) ;;
  if negb (Ascii.eqb c NUL) then
    text <- lift (ptr_add buffer 2) ;;
    printf (str "OS/2 flags: 0x" ++ fmt_04x flags ++ str " (" ++ text ++ str ")" ++ [NL])
  else
    printf (str "OS/2 flags: 0x0000" ++ [NL]).

(** ** print_export *)

(** [name ? name : "<no name>"]. *)
Definition name_or_none (e : entry) : list ascii :=
  match e_name e with
  | Some name => name
  | None => str "<no name>"
  end.

(** The [for] loop of [print_export], [n] iterations of it from the index
    [i]. *)
Fixpoint print_export_lines (n : nat) (i : Z) (enttab : list entry)
  : M (list ascii) unit :=
  match n with
  | O => ret tt
  | S n' =>
      e <- lift (load enttab i) ;;
      (if e_segment e =? 254 then
         (* absolute value *)
         printf ([TAB] ++ fmt_5d (i + 1) ++ [TAB] ++ str "   "
                   ++ fmt_04x (e_offset e) ++ [TAB] ++ name_or_none e ++ [NL])
       else if negb (e_segment e =? 0) then
         printf ([TAB] ++ fmt_5d (i + 1) ++ [TAB] ++ fmt_2d (e_segment e) ++ str ":"
                   ++ fmt_04x (e_offset e) ++ [TAB] ++ name_or_none e ++ [NL])
       else ret tt) ;;;
      print_export_lines n' (i + 1) enttab
  end.

Definition print_export (m : ne) : M (list ascii) unit :=
  print_export_lines (Z.to_nat (ne_entcount m)) 0 (ne_enttab m) ;;;
  printf [NL].

(** ** Well-formed entry tables and their byte streams *)

Record movable_record : Type := mkmovable {
  mv_flags : Z;
  mv_int3f : Z;      (* the interrupt bytes, 0x3fcd when as expected *)
  mv_segment : Z;
  mv_offset : Z
}.

Record fixed_record : Type := mkfixed {
  fx_flags : Z;
  fx_offset : Z
}.

Inductive bundle : Type :=
| Unused (n : Z)                              (* type 0x00: n ordinals skipped *)
| Movable (records : list movable_record)     (* type 0xff *)
| Fixed (seg : Z) (records : list fixed_record).   (* type 0x01 to 0xfe *)

Definition is_byte (v : Z) : Prop := 0 <= v < 256.
Definition is_word (v : Z) : Prop := 0 <= v < 65536.

Definition valid_movable (r : movable_record) : Prop :=
  is_byte (mv_flags r) /\ is_word (mv_int3f r) /\
  is_byte (mv_segment r) /\ is_word (mv_offset r).

Definition valid_fixed (r : fixed_record) : Prop :=
  is_byte (fx_flags r) /\ is_word (fx_offset r).

Definition valid_bundle (b : bundle) : Prop :=
  match b with
  | Unused n => 1 <= n < 256
  | Movable rs => 1 <= Z.of_nat (List.length rs) < 256 /\ Forall valid_movable rs
  | Fixed seg rs =>
      1 <= seg < 255 /\ 1 <= Z.of_nat (List.length rs) < 256 /\
      Forall valid_fixed rs
  end.

Definition byte_of (v : Z) : ascii := ascii_of_N (Z.to_N v).

Definition word_of (v : Z) : list ascii := [byte_of (v mod 256); byte_of (v / 256)].

Definition encode_movable (r : movable_record) : list ascii :=
  byte_of (mv_flags r) :: word_of (mv_int3f r)
    ++ byte_of (mv_segment r) :: word_of (mv_offset r).

Definition encode_fixed (r : fixed_record) : list ascii :=
  byte_of (fx_flags r) :: word_of (fx_offset r).

Definition encode_bundle (b : bundle) : list ascii :=
  match b with
  | Unused n => [byte_of n; byte_of 0]
  | Movable rs =>
      byte_of (Z.of_nat (List.length rs)) :: byte_of 255 :: flat_map encode_movable rs
  | Fixed seg rs =>
      byte_of (Z.of_nat (List.length rs)) :: byte_of seg :: flat_map encode_fixed rs
  end.

(** The byte stream of an entry table: its bundles and the zero byte that
    ends it. *)
Definition encode_table (bs : list bundle) : list ascii :=
  flat_map encode_bundle bs ++ [byte_of 0].

(** The entry that a record stands for. *)
Definition movable_entry (r : movable_record) : entry :=
  mkentry (mv_flags r) (mv_segment r) (mv_offset r) None.

Definition fixed_entry (seg : Z) (r : fixed_record) : entry :=
  mkentry (fx_flags r) seg (fx_offset r) None.

(** The records of a table in the order of the stream, one for each ordinal. *)
Definition bundle_entries (b : bundle) : list entry :=
  match b with
  | Unused n => repeat zero_entry (Z.to_nat n)
  | Movable rs => map movable_entry rs
  | Fixed seg rs => map (fixed_entry seg) rs
  end.

Definition bundle_count (b : bundle) : Z := Z.of_nat (List.length (bundle_entries b)).

Definition table_entries (bs : list bundle) : list entry :=
  flat_map bundle_entries bs.

(** The warnings due for the movable records of a table, the first record
    of which has the ordinal [ordinal]. *)
Fixpoint movable_warnings (ordinal : Z) (rs : list movable_record) : list diagnostic :=
  match rs with
  | [] => []
  | r :: rs' =>
      (if mv_int3f r =? 16333 then []
       else [InterruptBytes ordinal (Z.land (mv_int3f r) 255) (Z.shiftr (mv_int3f r) 16)])
        ++ movable_warnings (ordinal + 1) rs'
  end.

Fixpoint table_warnings (ordinal : Z) (bs : list bundle) : list diagnostic :=
  match bs with
  | [] => []
  | b :: bs' =>
      (match b with
       | Movable rs => movable_warnings ordinal rs
       | _ => []
       end) ++ table_warnings (ordinal + Z.of_nat (List.length (bundle_entries b))) bs'
  end.

(** The same table with every interrupt signature as expected. *)
Definition expected_int3f (b : bundle) : bundle :=
  match b with
  | Movable rs =>
      Movable (map (fun r => mkmovable (mv_flags r) 16333 (mv_segment r) (mv_offset r)) rs)
  | _ => b
  end.

(** A table whose ordinals an [int] does not count: 8421505 bundles of 255
    unused ordinals, 2147483775 of them in 16843010 bytes, and one fixed
    record behind them. *)
Definition overflowing_table : list bundle :=
  repeat (Unused 255) (Z.to_nat 8421505) ++ [Fixed 1 [mkfixed 1 16]].

(** The number of movable records whose signature is not the expected one. *)
Definition mismatches (bs : list bundle) : nat :=
  List.length
    (filter (fun r => negb (mv_int3f r =? 16333))
       (flat_map (fun b => match b with Movable rs => rs | _ => [] end) bs)).

(** The mapping from ordinals to names that a specfile holds for an entry
    table: the entries with a name or a segment, from index [i] on. *)
Fixpoint specfile_exports (i : Z) (enttab : list entry) : list export :=
  match enttab with
  | [] => []
  | e :: enttab' =>
      (match e_name e with
       | Some name => [mkexport (i + 1) (Some name)]
       | None => if e_segment e =? 0 then [] else [mkexport (i + 1) None]
       end) ++ specfile_exports (i + 1) enttab'
  end.

(** The mapping of the entries that have a segment. *)
Fixpoint segment_exports (i : Z) (enttab : list entry) : list export :=
  match enttab with
  | [] => []
  | e :: enttab' =>
      (if e_segment e =? 0 then [] else [mkexport (i + 1) (e_name e)])
        ++ segment_exports (i + 1) enttab'
  end.

(** ** Stored and rendered qualified names *)

(** A qualified name is given by its components in the order in which they
    are rendered, outermost first.  It is stored back to front behind the
    start-of-name marker, with one separator between two components. *)
Fixpoint stored_name (components : list (list ascii)) : list ascii :=
  match components with
  | [] => []
  | c :: outer =>
      match outer with
      | [] => "?"%char :: c
      | _ :: _ => stored_name outer ++ "@"%char :: c
      end
  end.

Fixpoint rendered_name (components : list (list ascii)) : list ascii :=
  match components with
  | [] => []
  | c :: outer =>
      match outer with
      | [] => c
      | _ :: _ => c ++ str "::" ++ rendered_name outer
      end
  end.

Definition is_delimiter (c : ascii) : bool := Ascii.eqb c "?" || Ascii.eqb c "@".

Definition plain (component : list ascii) : Prop :=
  forallb (fun c => negb (is_delimiter c)) component = true.

(** ** The text of a specfile *)

Definition specfile_header : list ascii := str "# Generated by dumpne -o" ++ [NL].

(** What [print_specfile] writes for the entry [e] of the ordinal [ordinal]. *)
Definition specfile_line (ordinal : Z) (e : entry) : list ascii :=
  match e_name e with
  | Some name => fmt_d ordinal ++ [TAB] ++ name ++ [NL]
  | None => if e_segment e =? 0 then [] else fmt_d ordinal ++ [NL]
  end.

(** The lines for the entries of the indices [i], [i + 1], ... *)
Fixpoint specfile_text (i : Z) (enttab : list entry) : list ascii :=
  match enttab with
  | [] => []
  | e :: enttab' => specfile_line (i + 1) e ++ specfile_text (i + 1) enttab'
  end.

(** The exports that [load_exports] finds for a module of the name [name]
    after [print_specfile] has written the specfile of the entry table
    [enttab] of a module of that name, on an empty disk. *)
Definition round_trip_exports (opts_DEMANGLE : bool) (name : list ascii)
    (enttab : list entry) : result (list export) :=
  match (print_specfile (mkne name [] enttab (Z.of_nat (List.length enttab))) ;;;
         load_exports opts_DEMANGLE (mkimport name [] 0)) (mksys [] [] []) with
  | Ok (module, _) =>
      Ok (firstn (Z.to_nat (im_export_count module)) (im_exports module))
  | Err e => Err e
  end.

(** A name that a line of a specfile can hold and that [load_exports]
    leaves as it is: a C string (no NUL in it) without a newline, short
    enough for the line to fit the buffer of 300 bytes and, with demangling
    on, without the marker in front. *)
Definition storable (opts_DEMANGLE : bool) (name : list ascii) : Prop :=
  ~ In NL name /\ ~ In NUL name /\ (List.length name <= 292)%nat
  /\ (opts_DEMANGLE = true -> hd NUL name <> "?"%char).

Definition storable_entry (opts_DEMANGLE : bool) (e : entry) : Prop :=
  match e_name e with
  | Some name => storable opts_DEMANGLE name
  | None => True
  end.

(** ** Notions used in the proofs *)

(** The byte of the file [c] at the position [p]. *)
Definition byte_at (c : list ascii) (p : Z) : option Z :=
  if p <? 0 then None else option_map Zc (nth_error c (Z.to_nat p)).

(** The size of a record of a bundle of the type [index]. *)
Definition record_size (index : Z) : Z :=
  if index =? 255 then 6 else if index =? 0 then 0 else 3.

(** The file [c] reads [s] from the position [p] on. *)
Definition suffix_at (c : list ascii) (p : Z) (s : list ascii) : Prop :=
  0 <= p /\ skipn (Z.to_nat p) c = s.

(** [demangle_type] only appends to its buffer. *)
Definition frames (type : list ascii) : Prop :=
  forall buffer,
    demangle_type buffer type =
    match demangle_type [] type with
    | Ok (n, text) => Ok (n, buffer ++ text)
    | Err e => Err e
    end.

(** The value of a string of decimal digits read after [a]. *)
Definition horner (ds : list ascii) (a : Z) : Z :=
  fold_left (fun a c => 10 * a + (Zc c - 48)) ds a.

(** The body of the line of an entry that is written, and what
    [load_exports] makes of it. *)
Definition line_body (ordinal : Z) (e : entry) : list ascii :=
  match e_name e with
  | Some name => fmt_d ordinal ++ TAB :: name
  | None => fmt_d ordinal
  end.

(** Whether [print_specfile] writes a line for the entry. *)
Definition written (e : entry) : bool :=
  match e_name e with
  | Some _ => true
  | None => negb (e_segment e =? 0)
  end.

(** An element of the array of [load_exports] that was not set yet. *)
Definition no_export : export := mkexport 0 None.

(** The run did not stop because a bound on the turns of a loop was too
    small. *)
Definition in_fuel {A : Type} (r : result A) : Prop :=
  match r with
  | Err OutOfFuel => False
  | _ => True
  end.

(** [demangle_type] returns a length that is not negative. *)
Definition type_bounded (type : list ascii) : Prop :=
  forall buffer, match demangle_type buffer type with
                 | Ok (n, _) => 0 <= n
                 | Err e => e <> OutOfFuel
                 end.

(** ** Name tables, headers and modules in a file *)

(** A record of a resident or nonresident name table. *)
Record name_record : Type := mkname {
  nr_name : list ascii;
  nr_ordinal : Z
}.

Definition encode_name (r : name_record) : list ascii :=
  byte_of (Z.of_nat (List.length (nr_name r))) :: nr_name r ++ word_of (nr_ordinal r).

(** The byte stream of a name table: the module name or description with
    the word behind it, the records and the zero byte that ends the table. *)
Definition encode_names (first : list ascii) (w : Z) (rs : list name_record)
  : list ascii :=
  byte_of (Z.of_nat (List.length first)) :: first ++ word_of w
    ++ flat_map encode_name rs ++ [byte_of 0].

(** The name that the records give to an ordinal: the one of the last
    record of that ordinal. *)
Fixpoint name_of (rs : list name_record) (ordinal : Z) : option (list ascii) :=
  match rs with
  | [] => None
  | r :: rs' =>
      match name_of rs' ordinal with
      | Some name => Some name
      | None => if nr_ordinal r =? ordinal then Some (nr_name r) else None
      end
  end.

(** A record that fits its length byte and an entry table of [size]
    entries, and that the guarded call of [demangle] leaves alone. *)
Definition valid_name (opts_DEMANGLE : bool) (size : nat) (r : name_record) : Prop :=
  (1 <= List.length (nr_name r) <= 255)%nat
  /\ ~ In NUL (nr_name r)
  /\ 1 <= nr_ordinal r <= Z.of_nat size
  /\ nr_ordinal r < 65536
  /\ (opts_DEMANGLE = true -> hd NUL (nr_name r) <> "?"%char).

(** The entry table after the records were read one after the other. *)
Definition attach_names (rs : list name_record) (entry_table : list entry)
  : list entry :=
  fold_left
    (fun t r => update t (Z.to_nat (nr_ordinal r - 1)) (set_name (nr_name r)))
    rs entry_table.

Definition is_dword (v : Z) : Prop := 0 <= v < 4294967296.

Definition dword_of (v : Z) : list ascii :=
  [byte_of (v mod 256); byte_of (v / 256 mod 256);
   byte_of (v / 65536 mod 256); byte_of (v / 16777216)].

(** The bytes of a header in the file. *)
Definition encode_header (h : Header.header_ne) : list ascii :=
  word_of (Header.ne_magic h) ++ [byte_of (Header.ne_ver h)] ++
    [byte_of (Header.ne_rev h)] ++ word_of (Header.ne_enttab h) ++
    word_of (Header.ne_cbenttab h) ++ dword_of (Header.ne_crc h) ++
    word_of (Header.ne_flags h) ++ [byte_of (Header.ne_autodata h)] ++
    [byte_of (Header.ne_unused h)] ++ word_of (Header.ne_heap h) ++
    word_of (Header.ne_stack h) ++ word_of (Header.ne_ip h) ++
    word_of (Header.ne_cs h) ++ word_of (Header.ne_sp h) ++
    word_of (Header.ne_ss h) ++ word_of (Header.ne_cseg h) ++
    word_of (Header.ne_cmod h) ++ word_of (Header.ne_cbnrestab h) ++
    word_of (Header.ne_segtab h) ++ word_of (Header.ne_rsrctab h) ++
    word_of (Header.ne_restab h) ++ word_of (Header.ne_modtab h) ++
    word_of (Header.ne_imptab h) ++ dword_of (Header.ne_nrestab h) ++
    word_of (Header.ne_cmovent h) ++ word_of (Header.ne_align h) ++
    word_of (Header.ne_cres h) ++ [byte_of (Header.ne_exetyp h)] ++
    [byte_of (Header.ne_flagsothers h)] ++ word_of (Header.ne_pretthunks h) ++
    word_of (Header.ne_psegrefbytes h) ++ word_of (Header.ne_swaparea h) ++
    [byte_of (Header.ne_expver_min h)] ++ [byte_of (Header.ne_expver_maj h)].

(** A header whose fields have values of their types. *)
Definition valid_header (h : Header.header_ne) : Prop :=
  is_word (Header.ne_magic h) /\ is_byte (Header.ne_ver h) /\
  is_byte (Header.ne_rev h) /\ is_word (Header.ne_enttab h) /\
  is_word (Header.ne_cbenttab h) /\ is_dword (Header.ne_crc h) /\
  is_word (Header.ne_flags h) /\ is_byte (Header.ne_autodata h) /\
  is_byte (Header.ne_unused h) /\ is_word (Header.ne_heap h) /\
  is_word (Header.ne_stack h) /\ is_word (Header.ne_ip h) /\
  is_word (Header.ne_cs h) /\ is_word (Header.ne_sp h) /\
  is_word (Header.ne_ss h) /\ is_word (Header.ne_cseg h) /\
  is_word (Header.ne_cmod h) /\ is_word (Header.ne_cbnrestab h) /\
  is_word (Header.ne_segtab h) /\ is_word (Header.ne_rsrctab h) /\
  is_word (Header.ne_restab h) /\ is_word (Header.ne_modtab h) /\
  is_word (Header.ne_imptab h) /\ is_dword (Header.ne_nrestab h) /\
  is_word (Header.ne_cmovent h) /\ is_word (Header.ne_align h) /\
  is_word (Header.ne_cres h) /\ is_byte (Header.ne_exetyp h) /\
  is_byte (Header.ne_flagsothers h) /\ is_word (Header.ne_pretthunks h) /\
  is_word (Header.ne_psegrefbytes h) /\ is_word (Header.ne_swaparea h) /\
  is_byte (Header.ne_expver_min h) /\ is_byte (Header.ne_expver_maj h).

(** The imported name table [nametab] holds the name [name] at [offset]:
    its length in a byte and its characters. *)
Definition name_at (nametab : list ascii) (offset : Z) (name : list ascii) : Prop :=
  exists rest,
    suffix_at nametab offset (byte_of (Z.of_nat (List.length name)) :: name ++ rest).

(** A reference to the name of a module. *)
Record module_ref : Type := mkref {
  mr_offset : Z;
  mr_name : list ascii
}.

Definition valid_ref (nametab : list ascii) (r : module_ref) : Prop :=
  is_word (mr_offset r)
  /\ (List.length (mr_name r) <= 255)%nat
  /\ ~ In NUL (mr_name r)
  /\ name_at nametab (mr_offset r) (mr_name r).

(** The module reference table in the file: an offset for each module. *)
Definition encode_refs (refs : list module_ref) : list ascii :=
  flat_map (fun r => word_of (mr_offset r)) refs.

(** The file [c] holds the bytes [s] at the position [p]. *)
Definition holds (c : list ascii) (p : Z) (s : list ascii) : Prop :=
  exists rest, suffix_at c p (s ++ rest).

(** An NE module in a file: its header at [offset_ne] and its tables where
    the header says. *)
Record image : Type := mkimage {
  img_header : Header.header_ne;
  img_bundles : list bundle;
  img_name : list ascii;
  img_resident : list name_record;
  img_description : list ascii;
  img_nonresident : list name_record;
  img_nametab : list ascii;
  img_refs : list module_ref
}.

Definition image_at (opts_DEMANGLE : bool) (c : list ascii) (offset_ne : Z)
    (i : image) : Prop :=
  let h := img_header i in
  let size := List.length (table_entries (img_bundles i)) in
  valid_header h
  /\ holds c offset_ne (encode_header h)
  /\ Forall valid_bundle (img_bundles i)
  /\ Z.of_nat size <= INT_MAX
  /\ holds c (offset_ne + Header.ne_enttab h) (encode_table (img_bundles i))
  /\ (List.length (img_name i) <= 255)%nat /\ ~ In NUL (img_name i)
  /\ Forall (valid_name opts_DEMANGLE size) (img_resident i)
  /\ holds c (offset_ne + Header.ne_restab h)
       (encode_names (img_name i) 0 (img_resident i))
  /\ (List.length (img_description i) <= 255)%nat /\ ~ In NUL (img_description i)
  /\ Forall (valid_name opts_DEMANGLE size) (img_nonresident i)
  /\ holds c (Header.ne_nrestab h)
       (encode_names (img_description i) 0 (img_nonresident i))
  /\ Z.of_nat (List.length (img_nametab i)) = Header.ne_enttab h - Header.ne_imptab h
  /\ holds c (offset_ne + Header.ne_imptab h) (img_nametab i)
  /\ Forall (valid_ref (img_nametab i)) (img_refs i)
  /\ Z.of_nat (List.length (img_refs i)) = Header.ne_cmod h
  /\ holds c (offset_ne + Header.ne_modtab h) (encode_refs (img_refs i)).

(** ** Types, signatures and their codes *)

(** The types of the grammar of [demangle_type]. *)
Inductive ctype : Type :=
| Integer (k : nat)                          (* 'C' + k: the k-th of [int_types] *)
| Float                                      (* 'M' *)
| Double                                     (* 'N' *)
| Void                                       (* 'X' *)
| Named (code : ascii) (name : list ascii)   (* 'U' or 'V', the name, "@@" *)
| Pointer (code : ascii) (q : ascii) (t : ctype).
                                             (* 'A' or 'P', the qualifiers, the pointee *)

Fixpoint type_code (t : ctype) : list ascii :=
  match t with
  | Integer k => [ascii_of_nat (67 + k)]
  | Float => str "M"
  | Double => str "N"
  | Void => str "X"
  | Named code name => code :: name ++ str "@@"
  | Pointer code q t => code :: q :: type_code t
  end.

(** The text of a type, as it stands in a declaration. *)
Fixpoint type_text (t : ctype) : list ascii :=
  match t with
  | Integer k => nth k int_types [] ++ str " "
  | Float => str "float "
  | Double => str "double "
  | Void => str "void "
  | Named _ name => name ++ str " "
  | Pointer code q t =>
      let d := Zc q - Zc "A" in
      (if Z.testbit d 0 then str "const " else [])
        ++ (if Z.testbit d 1 then str "volatile " else [])
        ++ type_text t
        ++ (if Z.testbit d 2 then [] else str "near ")
        ++ (if Ascii.eqb code "A" then str "&" else str "*")
  end.

(** The number of characters of the code of a type up to the separator
    that ends a name. *)
Fixpoint type_consumption (t : ctype) : Z :=
  match t with
  | Named _ name => 1 + Z.of_nat (List.length name)
  | Pointer _ _ t => 2 + type_consumption t
  | _ => 1
  end.

Fixpoint well_formed (t : ctype) : Prop :=
  match t with
  | Integer k => (k < 9)%nat
  | Named code name => (code = "U"%char \/ code = "V"%char) /\ ~ In "@"%char name
  | Pointer code _ t => (code = "A"%char \/ code = "P"%char) /\ well_formed t
  | _ => True
  end.

(** A type without a name in it. *)
Fixpoint unnamed (t : ctype) : Prop :=
  match t with
  | Integer k => (k < 9)%nat
  | Named _ _ => False
  | Pointer code _ t => (code = "A"%char \/ code = "P"%char) /\ unnamed t
  | _ => True
  end.

(** The text of a parameter: the one of its type without the space at its
    end. *)
Definition param_text (t : ctype) : list ascii :=
  let text := type_text t in
  if Ascii.eqb (last text NUL) " " then removelast text else text.

Fixpoint join (sep : list ascii) (l : list (list ascii)) : list ascii :=
  match l with
  | [] => []
  | x :: l' =>
      match l' with
      | [] => x
      | _ :: _ => x ++ sep ++ join sep l'
      end
  end.

(** The code and the text of a list of parameters; the empty list is
    written as the type [void]. *)
Definition params_code (params : list ctype) : list ascii :=
  match params with
  | [] => str "X"
  | _ :: _ => flat_map type_code params ++ str "@"
  end.

Definition params_text (params : list ctype) : list ascii :=
  match params with
  | [] => str "void"
  | _ :: _ => join (str ", ") (map param_text params)
  end.

(** The mangled name of a function that is not a member: the qualified
    name, the distance code ('Y' near, 'Z' far), the calling convention 'A',
    the return type and the parameters. *)
Definition function_code (components : list (list ascii)) (distance : ascii)
    (rtype : ctype) (params : list ctype) (tail : list ascii) : list ascii :=
  stored_name components ++ str "@@" ++ distance :: "A"%char :: type_code rtype
    ++ params_code params ++ tail.

Definition function_text (components : list (list ascii)) (distance : ascii)
    (rtype : ctype) (params : list ctype) : list ascii :=
  (if Ascii.eqb distance "Y" then str "near " else [])
    ++ type_text rtype ++ rendered_name components
    ++ str "(" ++ params_text params ++ str ")".

(** ** More notions used in the proofs *)

(** The signatures other than 0x3fcd of the movable records of a table, in
    the order of the stream, each with the ordinal of its record; the first
    record has the ordinal [ordinal]. *)
Fixpoint movable_signatures (ordinal : Z) (rs : list movable_record) : list (Z * Z) :=
  match rs with
  | [] => []
  | r :: rs' =>
      (if mv_int3f r =? 16333 then [] else [(ordinal, mv_int3f r)])
        ++ movable_signatures (ordinal + 1) rs'
  end.

Fixpoint table_signatures (ordinal : Z) (bs : list bundle) : list (Z * Z) :=
  match bs with
  | [] => []
  | b :: bs' =>
      (match b with
       | Movable rs => movable_signatures ordinal rs
       | _ => []
       end) ++ table_signatures (ordinal + Z.of_nat (List.length (bundle_entries b))) bs'
  end.

(** A diagnostic that shows the low byte of the signature of an ordinal, and
    0 in the place of its high byte. *)
Definition low_byte_only (s : Z * Z) : diagnostic :=
  InterruptBytes (fst s) (snd s mod 256) 0.


(** The characters that [demangle_type] takes for the code of a type. *)
Definition is_type_code (c : ascii) : bool :=
  in_range "C" "K" c || (Ascii.eqb c "A" || Ascii.eqb c "P") || Ascii.eqb c "M"
  || Ascii.eqb c "N" || (Ascii.eqb c "U" || Ascii.eqb c "V") || Ascii.eqb c "X".

(** [demangle_type] stays inside of the string and returns 0 for an
    unknown code only, with the buffer as it was. *)
Definition type_consumed (type : list ascii) : Prop :=
  forall (buffer : list ascii) (n : Z) (buffer' : list ascii),
    demangle_type buffer type = Ok (n, buffer') ->
    0 <= n <= strlen type
    /\ (n = 0 <-> is_type_code (hd NUL type) = false)
    /\ (n = 0 -> buffer' = buffer).


(** No two separators side by side. *)
Fixpoint no_double (s : list ascii) : bool :=
  match s with
  | [] => true
  | a :: s' =>
      match s' with
      | [] => true
      | b :: _ => negb (Ascii.eqb a "@" && Ascii.eqb b "@") && no_double s'
      end
  end.

(** The last part of [demangle], "Print the arguments", from the position
    [p] of [func] on. *)
Definition demangle_params (func : list ascii) (p : Z) (buffer : list ascii)
  : M (list diagnostic) (list ascii) :=
  c <- lift (char_at func p) ;;
  if Ascii.eqb c "X" then ret (buffer ++ str "(void)")
  else
    let buffer := buffer ++ str "(" in
    buffer <- demangle_args (S (List.length func)) func p buffer ;;
    buffer <- lift (poke buffer (strlen buffer - 2) ")") ;;
    buffer <- lift (cut buffer (strlen buffer - 1)) ;;
    ret buffer.


(** What [print_export] writes in front of the name of the entry [e] of the
    ordinal [ordinal], when it writes a line for it. *)
Definition export_columns (ordinal : Z) (e : entry) : list ascii :=
  if e_segment e =? 254
  then [TAB] ++ fmt_5d ordinal ++ [TAB] ++ str "   " ++ fmt_04x (e_offset e) ++ [TAB]
  else [TAB] ++ fmt_5d ordinal ++ [TAB] ++ fmt_2d (e_segment e) ++ str ":"
         ++ fmt_04x (e_offset e) ++ [TAB].

Definition export_line (ordinal : Z) (e : entry) : list ascii :=
  if e_segment e =? 0 then []
  else export_columns ordinal e ++ name_or_none e ++ [NL].

(** The lines for the entries of the indices [i], [i + 1], ... *)
Fixpoint export_text (i : Z) (enttab : list entry) : list ascii :=
  match enttab with
  | [] => []
  | e :: enttab' => export_line (i + 1) e ++ export_text (i + 1) enttab'
  end.

(** * Proofs *)

(** ** The entry table *)

Ltac arith_eq :=
  repeat first
    [ reflexivity
    | lia
    | match goal with
      | |- Ok _ = Ok _ => f_equal
      | |- (_, _) = (_, _) => f_equal
      | |- mkio _ _ _ = mkio _ _ _ => f_equal
      end ].

Ltac congr_eq := repeat first [reflexivity | lia | progress f_equal].

(** ** Bytes *)

Lemma Zc_range (c : ascii) : 0 <= Zc c < 256.
Proof. unfold Zc. pose proof (N_ascii_bounded c). lia. Qed.

Lemma Zc_byte_of (v : Z) : is_byte v -> Zc (byte_of v) = v.
Proof.
  unfold is_byte, Zc, byte_of. intros H.
  rewrite N_ascii_embedding; lia.
Qed.

Lemma word_of_value (v : Z) :
  is_word v -> is_byte (v mod 256) /\ is_byte (v / 256) /\ v mod 256 + 256 * (v / 256) = v.
Proof.
  unfold is_word, is_byte. intros H.
  pose proof (Z.mod_pos_bound v 256 ltac:(lia)).
  pose proof (Z.div_mod v 256 ltac:(lia)).
  repeat split; lia.
Qed.

(** ** The byte source, by position *)

Lemma read_byte_eq (c : list ascii) (p : Z) (l : list diagnostic) :
  read_byte (mkio c p l) =
  match byte_at c p with
  | Some v => Ok (v, mkio c (p + 1) l)
  | None => Err Eof
  end.
Proof.
  unfold read_byte, byte_at; simpl.
  destruct (p <? 0); [reflexivity|].
  destruct (nth_error c (Z.to_nat p)); reflexivity.
Qed.

Lemma byte_at_Some (c : list ascii) (p v : Z) :
  byte_at c p = Some v -> 0 <= p < Z.of_nat (List.length c) /\ 0 <= v < 256.
Proof.
  unfold byte_at. destruct (Z.ltb_spec p 0); [discriminate|].
  destruct (nth_error c (Z.to_nat p)) eqn:E; [|discriminate].
  intros [= <-]. split; [|apply Zc_range].
  assert (nth_error c (Z.to_nat p) <> None) as Hn by congruence.
  apply nth_error_Some in Hn. lia.
Qed.

Lemma byte_at_in_range (c : list ascii) (p : Z) :
  0 <= p < Z.of_nat (List.length c) -> exists v, byte_at c p = Some v.
Proof.
  intros H. unfold byte_at. destruct (Z.ltb_spec p 0); [lia|].
  destruct (nth_error c (Z.to_nat p)) eqn:E; [eexists; reflexivity|].
  apply nth_error_None in E. lia.
Qed.

Lemma read_word_eq (c : list ascii) (p : Z) (l : list diagnostic) :
  read_word (mkio c p l) =
  match byte_at c p, byte_at c (p + 1) with
  | Some lo, Some hi => Ok (lo + 256 * hi, mkio c (p + 2) l)
  | _, _ => Err Eof
  end.
Proof.
  unfold read_word, bind. rewrite read_byte_eq.
  destruct (byte_at c p); [|reflexivity].
  rewrite read_byte_eq. destruct (byte_at c (p + 1)); [|reflexivity].
  unfold ret. congr_eq.
Qed.

(** ** Arrays *)

Lemma update_length {A : Type} (a : list A) (i : nat) (f : A -> A) :
  List.length (update a i f) = List.length a.
Proof.
  revert i. induction a as [|x a IH]; intros [|i]; simpl; auto.
Qed.

Lemma store_in_range {A : Type} (a : list A) (i : Z) (f : A -> A) :
  0 <= i < Z.of_nat (List.length a) ->
  exists a', store a i f = Ok a' /\ List.length a' = List.length a.
Proof.
  intros H. unfold store.
  destruct (Z.leb_spec 0 i); [|lia]. destruct (Z.ltb_spec i (Z.of_nat (List.length a))); [|lia].
  simpl. eexists; split; [reflexivity|apply update_length].
Qed.

Lemma update_middle {A : Type} (done : list A) (x : A) (rest : list A) (f : A -> A) :
  update (done ++ x :: rest) (List.length done) f = done ++ f x :: rest.
Proof. induction done as [|d done IH]; simpl; [reflexivity|now rewrite IH]. Qed.

Lemma store_middle {A : Type} (done : list A) (x : A) (rest : list A) (f : A -> A) (i : Z) :
  i = Z.of_nat (List.length done) ->
  store (done ++ x :: rest) i f = Ok (done ++ f x :: rest).
Proof.
  intros ->. unfold store. rewrite length_app. simpl.
  destruct (Z.leb_spec 0 (Z.of_nat (List.length done))); [|lia].
  destruct (Z.ltb_spec (Z.of_nat (List.length done))
              (Z.of_nat (List.length done + S (List.length rest)))); [|lia].
  simpl. rewrite Nat2Z.id. now rewrite update_middle.
Qed.

(** ** Sums of [int]s *)

Lemma int_add_ok (a b : Z) :
  INT_MIN <= a + b <= INT_MAX -> int_add a b = Ok (a + b).
Proof.
  intros H. unfold int_add.
  destruct (Z.leb_spec INT_MIN (a + b)); [|lia].
  destruct (Z.leb_spec (a + b) INT_MAX); [reflexivity|lia].
Qed.

Lemma int_add_inv (a b v : Z) :
  int_add a b = Ok v -> v = a + b /\ INT_MIN <= a + b <= INT_MAX.
Proof.
  unfold int_add.
  destruct (Z.leb_spec INT_MIN (a + b)); [|discriminate].
  destruct (Z.leb_spec (a + b) INT_MAX); [|discriminate].
  intros [= <-]. lia.
Qed.

Lemma int_add_fault (a b : Z) (e : error) : int_add a b = Err e -> e = Overflow.
Proof.
  unfold int_add. destruct (_ && _); [discriminate|]. now intros [= <-].
Qed.

(** [count++] and [count += length] on a sum that is an [int] *)
Ltac count_up :=
  unfold bind at 1, lift at 1;
  rewrite int_add_ok by (unfold INT_MIN, INT_MAX in *; lia).

(** ** The two passes over any byte stream *)

Section AnyStream.

(** The bytes of the file, whatever they are. *)
Variable c : list ascii.

Lemma fill_bundle_in_file (index : Z) :
  forall (n : nat) (p : Z) (l : list diagnostic) (enttab : list entry) (count : Z),
    0 <= p -> p + record_size index * Z.of_nat n <= Z.of_nat (List.length c) ->
    0 <= count -> count + Z.of_nat n <= Z.of_nat (List.length enttab) ->
    count + Z.of_nat n <= INT_MAX ->
    exists enttab' l',
      fill_bundle n index enttab count (mkio c p l)
      = Ok ((enttab', count + Z.of_nat n), mkio c (p + record_size index * Z.of_nat n) l')
      /\ List.length enttab' = List.length enttab.
Proof.
  induction n as [|n IH]; intros p l enttab count Hp Hfile Hc Hroom Hint.
  - exists enttab, l. simpl. unfold ret. split; [|reflexivity].
    congr_eq.
  - cbn [fill_bundle]. unfold record_size in *.
    destruct (Z.eqb_spec index 255) as [E255|N255].
    + (* movable *)
      destruct (byte_at_in_range c p ltac:(lia)) as [v0 H0].
      destruct (byte_at_in_range c (p + 1) ltac:(lia)) as [v1 H1].
      destruct (byte_at_in_range c (p + 1 + 1) ltac:(lia)) as [v2 H2].
      destruct (byte_at_in_range c (p + 2 + 1) ltac:(lia)) as [v3 H3].
      destruct (byte_at_in_range c (p + 2 + 1 + 1) ltac:(lia)) as [v4 H4].
      destruct (byte_at_in_range c (p + 2 + 1 + 1 + 1) ltac:(lia)) as [v5 H5].
      destruct (store_in_range enttab count (set_flags v0) ltac:(lia)) as [e1 [S1 L1]].
      destruct (store_in_range e1 count (set_segment v3) ltac:(lia)) as [e2 [S2 L2]].
      destruct (store_in_range e2 count (set_offset (v4 + 256 * v5)) ltac:(lia)) as [e3 [S3 L3]].
      unfold bind at 1. unfold bind at 1.
      rewrite read_byte_eq, H0. unfold bind at 1, lift at 1. rewrite S1.
      unfold bind at 1. rewrite read_word_eq, H1, H2.
      assert (forall d, exists l1,
        ((if negb (v1 + 256 * v2 =? 16333) then warn io_warn d else ret tt) ;;;
         v <- read_byte ;;
         enttab0 <- lift (store e1 count (set_segment v)) ;;
         v6 <- read_word ;; lift (store enttab0 count (set_offset v6)))
          (mkio c (p + 2 + 1) l) = Ok (e3, mkio c (p + 6) l1)) as Hrest.
      { intros d. destruct (negb (v1 + 256 * v2 =? 16333)).
        - exists (l ++ [d]). unfold bind at 1, warn, io_warn. simpl.
          unfold bind at 1. rewrite read_byte_eq, H3.
          unfold bind at 1, lift at 1. rewrite S2.
          unfold bind at 1. rewrite read_word_eq, H4, H5.
          unfold lift. rewrite S3. congr_eq.
        - exists l. unfold bind at 1, ret.
          unfold bind at 1. rewrite read_byte_eq, H3.
          unfold bind at 1, lift at 1. rewrite S2.
          unfold bind at 1. rewrite read_word_eq, H4, H5.
          unfold lift. rewrite S3. congr_eq. }
      replace (p + 1 + 2) with (p + 2 + 1) by lia.
      destruct (Hrest (InterruptBytes (count + 1) (Z.land (v1 + 256 * v2) 255)
                         (Z.shiftr (v1 + 256 * v2) 16))) as [l1 Hl1].
      rewrite Hl1. count_up.
      destruct (IH (p + 6) l1 e3 (count + 1)) as [e' [l' [HI HL]]]; try lia.
      exists e', l'. rewrite HI. split; [|congruence].
      congr_eq.
    + destruct (Z.eqb_spec index 0) as [E0|N0].
      * unfold bind at 1, ret at 1. count_up.
        destruct (IH p l enttab (count + 1)) as [e' [l' [HI HL]]]; try lia.
        exists e', l'. rewrite HI. split; [|congruence].
        congr_eq.
      * destruct (byte_at_in_range c p ltac:(lia)) as [v0 H0].
        destruct (byte_at_in_range c (p + 1) ltac:(lia)) as [v1 H1].
        destruct (byte_at_in_range c (p + 1 + 1) ltac:(lia)) as [v2 H2].
        destruct (store_in_range enttab count (set_flags v0) ltac:(lia)) as [e1 [S1 L1]].
        destruct (store_in_range e1 count (set_segment index) ltac:(lia)) as [e2 [S2 L2]].
        destruct (store_in_range e2 count (set_offset (v1 + 256 * v2)) ltac:(lia)) as [e3 [S3 L3]].
        unfold bind at 1. unfold bind at 1.
        rewrite read_byte_eq, H0. unfold bind at 1, lift at 1. rewrite S1.
        unfold bind at 1, lift at 1. rewrite S2.
        unfold bind at 1. rewrite read_word_eq, H1, H2.
        unfold lift at 1. rewrite S3. count_up.
        destruct (IH (p + 1 + 2) l e3 (count + 1)) as [e' [l' [HI HL]]]; try lia.
        exists e', l'. rewrite HI. split; [|congruence].
        congr_eq.
Qed.

Lemma count_entries_reads (fuel : nat) (p : Z) (l : list diagnostic)
    (c0 cnt : Z) (st1 : io) :
  count_entries fuel c0 (mkio c p l) = Ok (cnt, st1) ->
  0 <= p < Z.of_nat (List.length c).
Proof.
  destruct fuel as [|fuel]; [discriminate|].
  cbn [count_entries]. unfold bind at 1. rewrite read_byte_eq.
  destruct (byte_at c p) as [v|] eqn:E; [|discriminate].
  intros _. now apply byte_at_Some in E.
Qed.

Lemma count_entries_fill :
  forall (fuel : nat) (p : Z) (l1 : list diagnostic) (c0 cnt : Z) (st1 : io),
    count_entries fuel c0 (mkio c p l1) = Ok (cnt, st1) ->
    c0 <= cnt /\
    (c0 <= INT_MAX -> cnt <= INT_MAX) /\
    forall (l2 : list diagnostic) (enttab : list entry) (k : Z),
      0 <= k -> k + (cnt - c0) <= Z.of_nat (List.length enttab) ->
      k + (cnt - c0) <= INT_MAX ->
      exists enttab' l2',
        fill_entries fuel enttab k (mkio c p l2)
        = Ok ((enttab', k + (cnt - c0)), mkio c (fpos st1) l2')
        /\ List.length enttab' = List.length enttab.
Proof.
  induction fuel as [|fuel IH]; intros p l1 c0 cnt st1 H; [discriminate|].
  cbn [count_entries] in H. unfold bind at 1 in H. rewrite read_byte_eq in H.
  destruct (byte_at c p) as [len|] eqn:Elen; [|discriminate].
  destruct (byte_at_Some _ _ _ Elen) as [Hp Hlen].
  cbn [fill_entries].
  destruct (Z.eqb_spec len 0) as [E0|N0].
  - injection H as <- <-. split; [lia|]. split; [lia|].
    intros l2 enttab k Hk Hroom Hint. exists enttab, l2.
    unfold bind at 1. rewrite read_byte_eq, Elen.
    destruct (Z.eqb_spec len 0); [|lia]. unfold ret. split; [congr_eq|reflexivity].
  - unfold bind at 1 in H. rewrite read_byte_eq in H.
    destruct (byte_at c (p + 1)) as [index|] eqn:Eidx; [|discriminate].
    unfold bind at 1 in H. unfold lift at 1 in H.
    destruct (int_add c0 len) as [c1|e] eqn:Eadd; [|discriminate].
    apply int_add_inv in Eadd. destruct Eadd as [-> Hadd].
    unfold bind at 1 in H.
    assert (exists q, q = p + 1 + 1 + record_size index * len /\
              count_entries fuel (c0 + len) (mkio c q l1) = Ok (cnt, st1)) as [q [Hq Hrec]].
    { unfold record_size. destruct (Z.eqb_spec index 0).
      - unfold ret in H. subst index. simpl. eexists; split; [reflexivity|].
        rewrite <- H. congr_eq.
      - unfold fseek_cur, set_fpos in H. simpl in H.
        destruct (Z.eqb_spec index 255); (eexists; split; [reflexivity|]);
          rewrite <- H; congr_eq. }
    pose proof (count_entries_reads _ _ _ _ _ _ Hrec) as Hq_range.
    destruct (IH _ _ _ _ _ Hrec) as [Hmono [Hmax Hfill]].
    split; [lia|]. split; [lia|].
    intros l2 enttab k Hk Hroom Hint.
    unfold bind at 1. rewrite read_byte_eq, Elen.
    destruct (Z.eqb_spec len 0); [lia|].
    unfold bind at 1. rewrite read_byte_eq, Eidx.
    destruct (fill_bundle_in_file index (Z.to_nat len) (p + 1 + 1) l2 enttab k)
      as [e1 [l3 [Hb Lb]]]; try lia.
    unfold bind at 1. rewrite Hb.
    destruct (Hfill l3 e1 (k + len)) as [e2 [l4 [Hf Lf]]]; try lia.
    exists e2, l4. rewrite Z2Nat.id by lia.
    replace (p + 1 + 1 + record_size index * len) with q by lia.
    rewrite Hf. split; [congr_eq|congruence].
Qed.

Lemma count_entries_fuel :
  forall (fuel : nat) (p : Z) (l : list diagnostic) (c0 : Z),
    (0 <= p -> Z.of_nat (List.length c) - p < Z.of_nat fuel) -> (0 < fuel)%nat ->
    match count_entries fuel c0 (mkio c p l) with
    | Ok _ => True
    | Err e => e = Eof \/ e = Overflow
    end.
Proof.
  induction fuel as [|fuel IH]; intros p l c0 Hf Hpos; [lia|].
  cbn [count_entries]. unfold bind at 1. rewrite read_byte_eq.
  destruct (byte_at c p) as [len|] eqn:Elen; [|now left].
  destruct (byte_at_Some _ _ _ Elen) as [Hp Hlen].
  destruct (Z.eqb_spec len 0); [exact I|].
  unfold bind at 1. rewrite read_byte_eq.
  destruct (byte_at c (p + 1)) as [index|] eqn:Eidx; [|now left].
  destruct (byte_at_Some _ _ _ Eidx) as [Hp1 Hidx].
  unfold bind at 1, lift at 1.
  destruct (int_add c0 len) as [c1|e] eqn:Eadd;
    [|right; exact (int_add_fault _ _ _ Eadd)].
  unfold bind at 1.
  destruct (Z.eqb_spec index 0).
  - unfold ret at 1. apply IH; lia.
  - unfold fseek_cur, set_fpos. simpl. apply IH; [|lia].
    destruct (index =? 255); lia.
Qed.

Lemma calloc_length (count : Z) :
  0 <= count -> Z.of_nat (List.length (calloc count)) = count.
Proof. intros H. unfold calloc. rewrite repeat_length. lia. Qed.

Lemma count_entries_contents :
  forall (fuel : nat) (p : Z) (l : list diagnostic) (c0 cnt : Z) (st1 : io),
    count_entries fuel c0 (mkio c p l) = Ok (cnt, st1) ->
    contents st1 = c /\ stderr st1 = l.
Proof.
  induction fuel as [|fuel IH]; intros p l c0 cnt st1 E; [discriminate|].
  cbn [count_entries] in E. unfold bind at 1 in E. rewrite read_byte_eq in E.
  destruct (byte_at c p); [|discriminate].
  destruct (_ =? 0); [now injection E as <- <-|].
  unfold bind at 1 in E. rewrite read_byte_eq in E.
  destruct (byte_at c (p + 1)); [|discriminate].
  unfold bind at 1 in E. unfold lift at 1 in E.
  destruct (int_add c0 _); [|discriminate].
  unfold bind at 1 in E.
  destruct (_ =? 0); unfold ret, fseek_cur, set_fpos in E; cbn [contents fpos stderr] in E;
    eapply IH; eassumption.
Qed.

End AnyStream.

Lemma get_entry_table_eq (start : Z) (m : ne) (c : list ascii) (p : Z) (l : list diagnostic) :
  get_entry_table start m (mkio c p l) =
  match count_entries (S (List.length c)) 0 (mkio c start l) with
  | Ok (count, st1) =>
      match fill_entries (S (List.length c)) (calloc count) 0
              (mkio (contents st1) start (stderr st1)) with
      | Ok ((enttab, count), st2) =>
          Ok (mkne (ne_name m) (ne_description m) enttab count, st2)
      | Err e => Err e
      end
  | Err e => Err e
  end.
Proof.
  unfold get_entry_table, walk_fuel, bind, fseek_set, set_fpos, ret.
  cbn [contents fpos stderr].
  destruct (count_entries (S (List.length c)) 0 (mkio c start l)) as [[cnt st1]|e];
    [|reflexivity].
  destruct (fill_entries _ _ _ _) as [[[e1 c1] st2]|e]; reflexivity.
Qed.

(** C9, as amended.  For every byte stream and every start offset: when the
    first loop of [get_entry_table] ends with a count, the count is an
    [int], the second loop over the same stream fills exactly that many
    entries of the array allocated from the count, and no write falls
    outside of it ([get_entry_table] returns without the fault
    [OutOfBounds], with [ne_entcount] equal to the size of the array).  The
    first loop ends without a count when it runs off the end of the file or
    when the sum of the count bytes is no [int] any more, and
    [get_entry_table] ends in the same way then.  The bound on the number of
    turns is never reached. *)
Theorem get_entry_table_count_is_fill_count :
  forall (start : Z) (m : ne) (st : io),
    match (fseek_set start ;;; count_entries (walk_fuel st) 0) st with
    | Ok (count, _) =>
        0 <= count <= INT_MAX
        /\ exists m' st',
             get_entry_table start m st = Ok (m', st')
             /\ ne_entcount m' = count
             /\ Z.of_nat (List.length (ne_enttab m')) = count
    | Err e => (e = Eof \/ e = Overflow) /\ get_entry_table start m st = Err e
    end.
Proof.
  intros start m [c p l]. rewrite get_entry_table_eq.
  unfold walk_fuel, bind, fseek_set, set_fpos. cbn [contents fpos stderr].
  pose proof (count_entries_fuel c (S (List.length c)) start l 0) as Hfuel.
  destruct (count_entries (S (List.length c)) 0 (mkio c start l)) as [[cnt st1]|e] eqn:E.
  - destruct (count_entries_contents _ _ _ _ _ _ _ E) as [-> ->].
    destruct (count_entries_fill _ _ _ _ _ _ _ E) as [Hmono [Hmax Hfill]].
    assert (cnt <= INT_MAX) as Hint by (apply Hmax; unfold INT_MAX; lia).
    split; [lia|].
    destruct (Hfill l (calloc cnt) 0) as [e' [l' [Hf Lf]]]; try lia.
    { rewrite calloc_length; lia. }
    rewrite Hf. eexists _, _. split; [reflexivity|].
    cbn [ne_entcount ne_enttab]. split; [lia|].
    rewrite Lf, calloc_length; lia.
  - split; [|reflexivity]. apply Hfuel; lia.
Qed.

(** ** Tables that are the byte stream of a list of bundles *)

Lemma skipn_cons_nth {A : Type} (n : nat) (l : list A) (b : A) (s : list A) :
  skipn n l = b :: s -> nth_error l n = Some b /\ skipn (S n) l = s.
Proof.
  revert l. induction n as [|n IH]; intros [|x l] H; simpl in H; try discriminate.
  - injection H as -> ->. split; reflexivity.
  - apply IH in H. exact H.
Qed.

Lemma suffix_at_cons (c : list ascii) (p : Z) (b : ascii) (s : list ascii) :
  suffix_at c p (b :: s) -> byte_at c p = Some (Zc b) /\ suffix_at c (p + 1) s.
Proof.
  intros [Hp H]. apply skipn_cons_nth in H. destruct H as [Hn Hs].
  unfold byte_at, suffix_at. destruct (Z.ltb_spec p 0); [lia|].
  rewrite Hn. split; [reflexivity|]. split; [lia|].
  replace (Z.to_nat (p + 1)) with (S (Z.to_nat p)) by lia. exact Hs.
Qed.

Lemma suffix_at_app (c : list ascii) (p : Z) (xs s : list ascii) :
  suffix_at c p (xs ++ s) -> suffix_at c (p + Z.of_nat (List.length xs)) s.
Proof.
  revert p. induction xs as [|x xs IH]; intros p H.
  - simpl in *. now replace (p + 0) with p by lia.
  - simpl in H. apply suffix_at_cons in H. destruct H as [_ H].
    apply IH in H. simpl List.length.
    now replace (p + Z.of_nat (S (List.length xs))) with (p + 1 + Z.of_nat (List.length xs)) by lia.
Qed.

Lemma suffix_at_length (c : list ascii) (p : Z) (s : list ascii) :
  suffix_at c p s -> Z.of_nat (List.length s) <= Z.of_nat (List.length c).
Proof.
  intros [Hp <-]. rewrite length_skipn. lia.
Qed.

Lemma encode_movable_length (rs : list movable_record) :
  Z.of_nat (List.length (flat_map encode_movable rs)) = 6 * Z.of_nat (List.length rs).
Proof. induction rs as [|r rs IH]; simpl List.length; lia. Qed.

Lemma encode_fixed_length (rs : list fixed_record) :
  Z.of_nat (List.length (flat_map encode_fixed rs)) = 3 * Z.of_nat (List.length rs).
Proof. induction rs as [|r rs IH]; simpl List.length; lia. Qed.

Lemma bundle_count_eq (b : bundle) :
  valid_bundle b ->
  bundle_count b = match b with
                   | Unused n => n
                   | Movable rs => Z.of_nat (List.length rs)
                   | Fixed _ rs => Z.of_nat (List.length rs)
                   end.
Proof.
  unfold bundle_count. destruct b; simpl; intros H.
  - rewrite repeat_length. lia.
  - now rewrite length_map.
  - now rewrite length_map.
Qed.

(** read one byte of a stream that is known *)
Ltac at_cursor H q :=
  match type of H with
  | suffix_at _ ?p _ => replace p with q in H by lia
  end.

Ltac read_known H :=
  let Hb := fresh "Hb" in
  unfold bind at 1;
  match goal with
  | |- context [read_byte (mkio _ ?q _)] => at_cursor H q
  end;
  apply suffix_at_cons in H; destruct H as [Hb H];
  rewrite read_byte_eq, Hb.

Lemma count_entries_encoded (c : list ascii) (l : list diagnostic) (rest : list ascii) :
  forall (bs : list bundle) (fuel : nat) (p c0 : Z),
    Forall valid_bundle bs ->
    suffix_at c p (flat_map encode_bundle bs ++ byte_of 0 :: rest) ->
    (List.length bs < fuel)%nat ->
    0 <= c0 -> c0 + Z.of_nat (List.length (table_entries bs)) <= INT_MAX ->
    count_entries fuel c0 (mkio c p l)
    = Ok (c0 + Z.of_nat (List.length (table_entries bs)),
          mkio c (p + Z.of_nat (List.length (flat_map encode_bundle bs)) + 1) l).
Proof.
  induction bs as [|b bs IH]; intros fuel p c0 Hv Hs Hfuel Hc0 Hint;
    (destruct fuel as [|fuel]; [simpl in Hfuel; lia|]); cbn [count_entries].
  - simpl in Hs. read_known Hs. rewrite Zc_byte_of by (unfold is_byte; lia).
    simpl. unfold ret. arith_eq.
  - inversion Hv as [|? ? Hb Hbs]; subst.
    pose proof (bundle_count_eq b Hb) as Hcnt. unfold bundle_count in Hcnt.
    unfold table_entries in *. cbn [flat_map] in *.
    rewrite <- app_assoc in Hs. rewrite !length_app, !Nat2Z.inj_add.
    rewrite length_app, Nat2Z.inj_add in Hint.
    simpl in Hfuel.
    destruct b as [n|rs|seg rs]; cbn [encode_bundle valid_bundle] in *.
    + simpl app in Hs. read_known Hs. rewrite Zc_byte_of by (unfold is_byte; lia).
      destruct (Z.eqb_spec n 0); [lia|].
      read_known Hs. rewrite Zc_byte_of by (unfold is_byte; lia).
      count_up.
      unfold bind at 1. rewrite Z.eqb_refl. unfold ret at 1. cbv beta iota.
      rewrite (IH fuel (p + 1 + 1) (c0 + n) Hbs Hs) by (unfold INT_MAX in *; lia).
      rewrite Hcnt. simpl List.length. arith_eq.
    + destruct Hb as [Hlen Hrs].
      simpl app in Hs. read_known Hs. rewrite Zc_byte_of by (unfold is_byte; lia).
      destruct (Z.eqb_spec (Z.of_nat (List.length rs)) 0); [lia|].
      read_known Hs. rewrite Zc_byte_of by (unfold is_byte; lia).
      count_up.
      unfold bind at 1. rewrite Z.eqb_refl. change (255 =? 0) with false.
      unfold fseek_cur, set_fpos. cbv beta iota. cbn [contents fpos stderr].
      apply suffix_at_app in Hs. rewrite encode_movable_length in Hs.
      rewrite (IH fuel _ (c0 + Z.of_nat (List.length rs)) Hbs Hs)
        by (unfold INT_MAX in *; lia).
      rewrite Hcnt. simpl List.length. rewrite !Nat2Z.inj_succ, encode_movable_length.
      arith_eq.
    + destruct Hb as [Hseg [Hlen Hrs]].
      simpl app in Hs. read_known Hs. rewrite Zc_byte_of by (unfold is_byte; lia).
      destruct (Z.eqb_spec (Z.of_nat (List.length rs)) 0); [lia|].
      read_known Hs. rewrite Zc_byte_of by (unfold is_byte; lia).
      count_up.
      unfold bind at 1.
      destruct (Z.eqb_spec seg 0); [lia|]. destruct (Z.eqb_spec seg 255); [lia|].
      unfold fseek_cur, set_fpos. cbn [contents fpos stderr].
      apply suffix_at_app in Hs. rewrite encode_fixed_length in Hs.
      rewrite (IH fuel _ (c0 + Z.of_nat (List.length rs)) Hbs Hs)
        by (unfold INT_MAX in *; lia).
      rewrite Hcnt. simpl List.length. rewrite !Nat2Z.inj_succ, encode_fixed_length.
      arith_eq.
Qed.

(** The first loop on bundles of 255 unused ordinals whose sum is no [int]. *)
Lemma count_entries_overflow (c : list ascii) (l : list diagnostic) (rest : list ascii) :
  forall (n fuel : nat) (p c0 : Z),
    suffix_at c p (flat_map encode_bundle (repeat (Unused 255) n) ++ rest) ->
    (n <= fuel)%nat -> 0 <= c0 <= INT_MAX -> INT_MAX < c0 + 255 * Z.of_nat n ->
    count_entries fuel c0 (mkio c p l) = Err Overflow.
Proof.
  induction n as [|n IH]; intros fuel p c0 Hs Hfuel Hc0 Hover; [lia|].
  destruct fuel as [|fuel]; [lia|]. cbn [count_entries].
  cbn [repeat flat_map encode_bundle app] in Hs.
  read_known Hs. rewrite Zc_byte_of by (unfold is_byte; lia).
  change (255 =? 0) with false. cbv iota.
  read_known Hs. rewrite Zc_byte_of by (unfold is_byte; lia).
  unfold bind at 1, lift at 1.
  destruct (int_add c0 255) as [c1|e] eqn:Eadd.
  - apply int_add_inv in Eadd. destruct Eadd as [-> Hadd].
    unfold bind at 1. change (0 =? 0) with true. unfold ret at 1. cbv beta iota.
    apply (IH fuel (p + 1 + 1) (c0 + 255) Hs); lia.
  - now rewrite (int_add_fault _ _ _ Eadd).
Qed.

Lemma unused_bundles_length (n : nat) :
  List.length (flat_map encode_bundle (repeat (Unused 255) n)) = (2 * n)%nat.
Proof.
  induction n as [|n IH]; [reflexivity|].
  cbn [repeat flat_map encode_bundle app List.length]. lia.
Qed.

Lemma count_entries_unused_overflow (n : nat) (more : list bundle) :
  INT_MAX < 255 * Z.of_nat n ->
  count_entries (S (List.length (encode_table (repeat (Unused 255) n ++ more)))) 0
    (mkio (encode_table (repeat (Unused 255) n ++ more)) 0 [])
  = Err Overflow.
Proof.
  intros Hover.
  apply (count_entries_overflow _ [] (flat_map encode_bundle more ++ [byte_of 0]) n _ 0 0).
  - split; [lia|]. unfold encode_table. rewrite flat_map_app, <- app_assoc. reflexivity.
  - unfold encode_table. rewrite flat_map_app, !length_app, unused_bundles_length. lia.
  - unfold INT_MAX. lia.
  - lia.
Qed.

Lemma get_entry_table_overflow (n : nat) (more : list bundle) (m : ne) :
  INT_MAX < 255 * Z.of_nat n ->
  get_entry_table 0 m (mkio (encode_table (repeat (Unused 255) n ++ more)) 0 [])
  = Err Overflow.
Proof.
  intros Hover. rewrite get_entry_table_eq.
  now rewrite (count_entries_unused_overflow n more Hover).
Qed.

(** Not every byte stream has a count: on the stream of 8421505 bundles of
    255 unused ordinals and one fixed record, all of them valid, the sum of
    the count bytes leaves the range of [int] in the first loop, and the
    record is not stored in an array of the size of the sum. *)
Lemma get_entry_table_count_overflow_counterexample :
  Forall valid_bundle overflowing_table
  /\ INT_MAX < Z.of_nat (List.length (table_entries overflowing_table))
  /\ (fseek_set 0 ;;;
      count_entries (walk_fuel (mkio (encode_table overflowing_table) 0 [])) 0)
       (mkio (encode_table overflowing_table) 0 [])
     = Err Overflow
  /\ get_entry_table 0 (mkne [] [] [] 0) (mkio (encode_table overflowing_table) 0 [])
     = Err Overflow.
Proof.
  assert (INT_MAX < 255 * Z.of_nat (Z.to_nat 8421505)) as Hover
    by (unfold INT_MAX; lia).
  unfold overflowing_table. split; [|split; [|split]].
  - apply Forall_app. split.
    + apply Forall_forall. intros b Hb. apply repeat_spec in Hb. subst b.
      unfold valid_bundle. lia.
    + repeat first [apply Forall_cons | apply Forall_nil | split]; cbv; congruence.
  - unfold table_entries. rewrite flat_map_app, length_app.
    assert (forall n, List.length (flat_map bundle_entries (repeat (Unused 255) n))
                     = (255 * n)%nat) as Hlen.
    { induction n as [|n IH]; [reflexivity|].
      cbn [repeat flat_map bundle_entries]. rewrite length_app, IH, repeat_length. lia. }
    rewrite Hlen. lia.
  - unfold bind, fseek_set, walk_fuel, set_fpos. cbn [contents fpos stderr].
    exact (count_entries_unused_overflow _ _ Hover).
  - exact (get_entry_table_overflow _ _ _ Hover).
Qed.

Ltac read_known_word H :=
  let Hlo := fresh "Hlo" in
  let Hhi := fresh "Hhi" in
  unfold bind at 1;
  match goal with
  | |- context [read_word (mkio _ ?q _)] => at_cursor H q
  end;
  apply suffix_at_cons in H; destruct H as [Hlo H];
  apply suffix_at_cons in H; destruct H as [Hhi H];
  rewrite read_word_eq, Hlo, Hhi.

Lemma word_bytes_value (v : Z) :
  is_word v -> Zc (byte_of (v mod 256)) + 256 * Zc (byte_of (v / 256)) = v.
Proof.
  intros H. destruct (word_of_value v H) as [H1 [H2 H3]].
  now rewrite !Zc_byte_of.
Qed.

Lemma fill_bundle_movable (c : list ascii) (rest : list ascii) (tail : list entry) :
  forall (rs : list movable_record) (p : Z) (l : list diagnostic)
         (done : list entry) (count : Z),
    Forall valid_movable rs ->
    suffix_at c p (flat_map encode_movable rs ++ rest) ->
    count = Z.of_nat (List.length done) ->
    count + Z.of_nat (List.length rs) <= INT_MAX ->
    fill_bundle (List.length rs) 255
      (done ++ repeat zero_entry (List.length rs) ++ tail) count (mkio c p l)
    = Ok ((done ++ map movable_entry rs ++ tail, count + Z.of_nat (List.length rs)),
          mkio c (p + 6 * Z.of_nat (List.length rs)) (l ++ movable_warnings (count + 1) rs)).
Proof.
  induction rs as [|r rs IH]; intros p l done count Hv Hs Hc Hint.
  - simpl. unfold ret. rewrite app_nil_r. arith_eq.
  - inversion Hv as [|? ? Hr Hrs]; subst. destruct Hr as [Hf [Hi [Hsg Ho]]].
    cbn [List.length repeat fill_bundle flat_map encode_movable word_of app] in *.
    change (255 =? 255) with true. cbv beta iota.
    simpl app in Hs.
    unfold bind at 1. read_known Hs.
    unfold bind at 1, lift at 1. rewrite store_middle by reflexivity.
    read_known_word Hs.
    rewrite (word_bytes_value _ Hi).
    assert (forall st, (if negb (mv_int3f r =? 16333)
                then warn io_warn (InterruptBytes (Z.of_nat (List.length done) + 1)
                      (Z.land (mv_int3f r) 255) (Z.shiftr (mv_int3f r) 16))
                else ret tt) st
            = Ok (tt, mkio (contents st) (fpos st)
                     (stderr st ++ (if mv_int3f r =? 16333 then []
                       else [InterruptBytes (Z.of_nat (List.length done) + 1)
                               (Z.land (mv_int3f r) 255) (Z.shiftr (mv_int3f r) 16)])))) as Hw.
    { intros [c' p' l']. destruct (mv_int3f r =? 16333); simpl.
      - unfold ret. now rewrite app_nil_r.
      - reflexivity. }
    unfold bind at 1. rewrite Hw. cbn [contents fpos stderr].
    read_known Hs.
    unfold bind at 1, lift at 1. rewrite store_middle by reflexivity.
    read_known_word Hs.
    rewrite (word_bytes_value _ Ho).
    unfold lift at 1. rewrite store_middle by reflexivity.
    count_up.
    rewrite !Zc_byte_of by assumption.
    change (set_offset (mv_offset r) (set_segment (mv_segment r) (set_flags (mv_flags r) zero_entry)))
      with (movable_entry r).
    replace (done ++ movable_entry r :: repeat zero_entry (List.length rs) ++ tail)
      with ((done ++ [movable_entry r]) ++ repeat zero_entry (List.length rs) ++ tail)
      by (now rewrite <- app_assoc).
    rewrite (IH _ _ (done ++ [movable_entry r])); try assumption.
    + rewrite <- !app_assoc. cbn [app map movable_warnings fixed_entry].
      rewrite ?Nat2Z.inj_succ. arith_eq.
    + match goal with |- suffix_at _ ?q _ => at_cursor Hs q; exact Hs end.
    + rewrite length_app. cbn [List.length]. lia.
    + lia.
Qed.

Lemma fill_bundle_fixed (c : list ascii) (rest : list ascii) (tail : list entry) (seg : Z) :
  1 <= seg < 255 ->
  forall (rs : list fixed_record) (p : Z) (l : list diagnostic)
         (done : list entry) (count : Z),
    Forall valid_fixed rs ->
    suffix_at c p (flat_map encode_fixed rs ++ rest) ->
    count = Z.of_nat (List.length done) ->
    count + Z.of_nat (List.length rs) <= INT_MAX ->
    fill_bundle (List.length rs) seg
      (done ++ repeat zero_entry (List.length rs) ++ tail) count (mkio c p l)
    = Ok ((done ++ map (fixed_entry seg) rs ++ tail, count + Z.of_nat (List.length rs)),
          mkio c (p + 3 * Z.of_nat (List.length rs)) l).
Proof.
  intros Hseg.
  induction rs as [|r rs IH]; intros p l done count Hv Hs Hc Hint.
  - simpl. unfold ret. arith_eq.
  - inversion Hv as [|? ? Hr Hrs]; subst. destruct Hr as [Hf Ho].
    cbn [List.length repeat fill_bundle flat_map encode_fixed word_of app] in *.
    destruct (Z.eqb_spec seg 255); [lia|]. destruct (Z.eqb_spec seg 0); [lia|].
    simpl app in Hs.
    unfold bind at 1. read_known Hs.
    unfold bind at 1, lift at 1. rewrite store_middle by reflexivity.
    unfold bind at 1, lift at 1. rewrite store_middle by reflexivity.
    read_known_word Hs.
    rewrite (word_bytes_value _ Ho).
    unfold lift at 1. rewrite store_middle by reflexivity.
    count_up.
    rewrite !Zc_byte_of by assumption.
    change (set_offset (fx_offset r) (set_segment seg (set_flags (fx_flags r) zero_entry)))
      with (fixed_entry seg r).
    replace (done ++ fixed_entry seg r :: repeat zero_entry (List.length rs) ++ tail)
      with ((done ++ [fixed_entry seg r]) ++ repeat zero_entry (List.length rs) ++ tail)
      by (now rewrite <- app_assoc).
    rewrite (IH _ _ (done ++ [fixed_entry seg r])); try assumption.
    + rewrite <- !app_assoc. cbn [app map movable_warnings fixed_entry].
      rewrite ?Nat2Z.inj_succ. arith_eq.
    + match goal with |- suffix_at _ ?q _ => at_cursor Hs q; exact Hs end.
    + rewrite length_app. cbn [List.length]. lia.
    + lia.
Qed.

Lemma fill_bundle_unused (tail : list entry) (st : io) :
  forall (n : nat) (done : list entry) (count : Z),
    0 <= count -> count + Z.of_nat n <= INT_MAX ->
    fill_bundle n 0 (done ++ repeat zero_entry n ++ tail) count st
    = Ok ((done ++ repeat zero_entry n ++ tail, count + Z.of_nat n), st).
Proof.
  induction n as [|n IH]; intros done count Hc Hint.
  - simpl. unfold ret. arith_eq.
  - cbn [fill_bundle repeat]. change (0 =? 255) with false. rewrite Z.eqb_refl.
    cbv beta iota. unfold bind at 1, ret at 1. count_up.
    replace (done ++ (zero_entry :: repeat zero_entry n) ++ tail)
      with ((done ++ [zero_entry]) ++ repeat zero_entry n ++ tail)
      by (now rewrite <- app_assoc).
    rewrite IH by lia. arith_eq.
Qed.

Lemma fill_entries_encoded (c : list ascii) (rest : list ascii) (tail : list entry) :
  forall (bs : list bundle) (fuel : nat) (p : Z) (l : list diagnostic)
         (done : list entry) (count : Z),
    Forall valid_bundle bs ->
    suffix_at c p (flat_map encode_bundle bs ++ byte_of 0 :: rest) ->
    count = Z.of_nat (List.length done) ->
    (List.length bs < fuel)%nat ->
    count + Z.of_nat (List.length (table_entries bs)) <= INT_MAX ->
    fill_entries fuel
      (done ++ repeat zero_entry (List.length (table_entries bs)) ++ tail) count
      (mkio c p l)
    = Ok ((done ++ table_entries bs ++ tail,
           count + Z.of_nat (List.length (table_entries bs))),
          mkio c (p + Z.of_nat (List.length (flat_map encode_bundle bs)) + 1)
            (l ++ table_warnings (count + 1) bs)).
Proof.
  induction bs as [|b bs IH]; intros fuel p l done count Hv Hs Hc Hfuel Hint;
    (destruct fuel as [|fuel]; [simpl in Hfuel; lia|]); cbn [fill_entries].
  - cbn [flat_map app] in Hs. read_known Hs. rewrite Zc_byte_of by (unfold is_byte; lia).
    rewrite Z.eqb_refl. unfold ret. cbn [table_entries flat_map List.length repeat app table_warnings].
    rewrite app_nil_r. arith_eq.
  - inversion Hv as [|? ? Hb Hbs]; subst.
    pose proof (bundle_count_eq b Hb) as Hcnt. unfold bundle_count in Hcnt.
    unfold table_entries in *. cbn [flat_map table_warnings] in *.
    rewrite <- app_assoc in Hs. rewrite !length_app, !Nat2Z.inj_add.
    rewrite length_app, Nat2Z.inj_add in Hint.
    rewrite repeat_app, <- !app_assoc.
    simpl in Hfuel.
    destruct b as [n|rs|seg rs]; cbn [encode_bundle valid_bundle bundle_entries] in *.
    + cbn [app] in Hs. read_known Hs. rewrite Zc_byte_of by (unfold is_byte; lia).
      destruct (Z.eqb_spec n 0); [lia|].
      read_known Hs. rewrite Zc_byte_of by (unfold is_byte; lia).
      unfold bind at 1. rewrite repeat_length.
      rewrite fill_bundle_unused by (rewrite ?repeat_length in *; lia).
      replace (done ++ repeat zero_entry (Z.to_nat n)
                 ++ repeat zero_entry (List.length (flat_map bundle_entries bs)) ++ tail)
        with ((done ++ repeat zero_entry (Z.to_nat n))
                ++ repeat zero_entry (List.length (flat_map bundle_entries bs)) ++ tail)
        by (now rewrite <- app_assoc).
      rewrite (IH fuel _ l (done ++ repeat zero_entry (Z.to_nat n))); try assumption; try lia.
      * rewrite <- !app_assoc. cbn [app List.length].
        rewrite repeat_length in *. rewrite !Nat2Z.inj_succ. arith_eq.
        do 2 f_equal. lia.
      * rewrite length_app, repeat_length. lia.
    + destruct Hb as [Hlen Hrs].
      cbn [app] in Hs. read_known Hs. rewrite Zc_byte_of by (unfold is_byte; lia).
      destruct (Z.eqb_spec (Z.of_nat (List.length rs)) 0); [lia|].
      read_known Hs. rewrite Zc_byte_of by (unfold is_byte; lia).
      unfold bind at 1. rewrite Nat2Z.id, length_map.
      pose proof Hs as Hs'.
      rewrite (fill_bundle_movable c _ _ rs _ l done _ Hrs Hs eq_refl)
        by (rewrite ?length_map in *; lia).
      apply suffix_at_app in Hs'. rewrite encode_movable_length in Hs'.
      replace (done ++ map movable_entry rs ++ repeat zero_entry _ ++ tail)
        with ((done ++ map movable_entry rs)
                ++ repeat zero_entry (List.length (flat_map bundle_entries bs)) ++ tail)
        by (now rewrite <- app_assoc).
      rewrite (IH fuel _ _ (done ++ map movable_entry rs)); try assumption; try lia;
        try (match goal with |- suffix_at _ ?q _ => at_cursor Hs' q; exact Hs' end);
        try (rewrite length_app, length_map; lia).
      rewrite <- !app_assoc. cbn [app List.length].
      rewrite length_map in *. rewrite !Nat2Z.inj_succ, encode_movable_length.
      arith_eq.
      do 3 f_equal. lia.
    + destruct Hb as [Hseg [Hlen Hrs]].
      cbn [app] in Hs. read_known Hs. rewrite Zc_byte_of by (unfold is_byte; lia).
      destruct (Z.eqb_spec (Z.of_nat (List.length rs)) 0); [lia|].
      read_known Hs. rewrite Zc_byte_of by (unfold is_byte; lia).
      unfold bind at 1. rewrite Nat2Z.id, length_map.
      pose proof Hs as Hs'.
      rewrite (fill_bundle_fixed c _ _ seg Hseg rs _ l done _ Hrs Hs eq_refl)
        by (rewrite ?length_map in *; lia).
      apply suffix_at_app in Hs'. rewrite encode_fixed_length in Hs'.
      replace (done ++ map (fixed_entry seg) rs ++ repeat zero_entry _ ++ tail)
        with ((done ++ map (fixed_entry seg) rs)
                ++ repeat zero_entry (List.length (flat_map bundle_entries bs)) ++ tail)
        by (now rewrite <- app_assoc).
      rewrite (IH fuel _ _ (done ++ map (fixed_entry seg) rs)); try assumption; try lia;
        try (match goal with |- suffix_at _ ?q _ => at_cursor Hs' q; exact Hs' end);
        try (rewrite length_app, length_map; lia).
      rewrite <- !app_assoc. cbn [app List.length].
      rewrite length_map in *. rewrite !Nat2Z.inj_succ, encode_fixed_length.
      arith_eq.
      do 2 f_equal. lia.
Qed.

Lemma encode_bundles_length (bs : list bundle) :
  (List.length bs <= List.length (flat_map encode_bundle bs))%nat.
Proof.
  induction bs as [|b bs IH]; [simpl; lia|].
  cbn [flat_map]. rewrite length_app. destruct b; simpl List.length; lia.
Qed.

Lemma get_entry_table_encoded (bs : list bundle) (pre post : list ascii) (m : ne)
    (p0 : Z) (l : list diagnostic) :
  Forall valid_bundle bs ->
  Z.of_nat (List.length (table_entries bs)) <= INT_MAX ->
  get_entry_table (Z.of_nat (List.length pre)) m
    (mkio (pre ++ encode_table bs ++ post) p0 l)
  = Ok (mkne (ne_name m) (ne_description m) (table_entries bs)
          (Z.of_nat (List.length (table_entries bs))),
        mkio (pre ++ encode_table bs ++ post)
          (Z.of_nat (List.length pre) + Z.of_nat (List.length (encode_table bs)))
          (l ++ table_warnings 1 bs)).
Proof.
  intros Hv Hint. rewrite get_entry_table_eq.
  set (c := pre ++ encode_table bs ++ post).
  assert (suffix_at c (Z.of_nat (List.length pre))
            (flat_map encode_bundle bs ++ byte_of 0 :: post)) as Hs.
  { split; [lia|]. unfold c, encode_table. rewrite Nat2Z.id.
    rewrite skipn_app, skipn_all, Nat.sub_diag. simpl. now rewrite <- app_assoc. }
  assert (List.length bs < S (List.length c))%nat as Hfuel.
  { pose proof (encode_bundles_length bs). unfold c, encode_table.
    rewrite !length_app. lia. }
  rewrite (count_entries_encoded c l post bs _ _ 0 Hv Hs Hfuel) by lia.
  cbn [contents stderr]. unfold calloc. rewrite Z.add_0_l, Nat2Z.id.
  pose proof (fill_entries_encoded c post [] bs _ _ l [] 0 Hv Hs eq_refl Hfuel
                ltac:(lia)) as Hf.
  rewrite !app_nil_r in Hf. cbn [app] in Hf. rewrite Hf.
  unfold encode_table. rewrite length_app. cbn [List.length].
  rewrite Z.add_0_l. arith_eq.
Qed.

(** The entries of a table that is as long as the 16-bit field
    [ne_cbenttab] of the header can say are counted by an [int]. *)
Lemma table_of_header_length (bs : list bundle) :
  Forall valid_bundle bs ->
  Z.of_nat (List.length (encode_table bs)) <= 65535 ->
  Z.of_nat (List.length (table_entries bs)) <= INT_MAX.
Proof.
  intros Hv Hlen.
  assert (2 * Z.of_nat (List.length (table_entries bs))
          <= 255 * Z.of_nat (List.length (flat_map encode_bundle bs))) as H.
  { clear Hlen. unfold table_entries.
    induction bs as [|b bs IH]; [simpl; lia|].
    inversion Hv as [|? ? Hb Hbs]; subst. specialize (IH Hbs).
    pose proof (bundle_count_eq b Hb) as Hcnt. unfold bundle_count in Hcnt.
    cbn [flat_map]. rewrite !length_app, !Nat2Z.inj_add.
    destruct b as [n|rs|seg rs]; cbn [encode_bundle valid_bundle List.length] in *;
      rewrite ?Nat2Z.inj_succ, ?encode_movable_length, ?encode_fixed_length; lia. }
  unfold encode_table in Hlen. rewrite length_app, Nat2Z.inj_add in Hlen.
  cbn [List.length] in Hlen. unfold INT_MAX. lia.
Qed.

Lemma load_nth_error {A : Type} (a : list A) (k : nat) (x : A) :
  nth_error a k = Some x -> load a (Z.of_nat k) = Ok x.
Proof.
  intros H. unfold load. destruct (Z.ltb_spec (Z.of_nat k) 0); [lia|].
  now rewrite Nat2Z.id, H.
Qed.

Ltac valid_table :=
  repeat apply Forall_cons; try apply Forall_nil;
  cbv [valid_bundle valid_fixed valid_movable is_byte is_word List.length
       fx_flags fx_offset mv_flags mv_int3f mv_segment mv_offset];
  repeat split; try apply Forall_cons; try apply Forall_nil; repeat split; try lia.

(** C1.  For the byte stream of any list of valid bundles whose entries
    are counted by an [int], wherever it lies in the file and whatever
    follows its zero byte, [get_entry_table] stores the k-th record, counted
    through all bundles in the order of the stream, at the index k - 1, that
    is under the ordinal k; and every ordinal of a bundle of the type 0x00
    takes a slot whose segment is 0 and whose name is missing. *)
Theorem get_entry_table_ordinals :
  forall (bs : list bundle) (pre post : list ascii) (m : ne) (st : io),
    Forall valid_bundle bs ->
    Z.of_nat (List.length (table_entries bs)) <= INT_MAX ->
    contents st = pre ++ encode_table bs ++ post ->
    exists m' st',
      get_entry_table (Z.of_nat (List.length pre)) m st = Ok (m', st')
      /\ ne_entcount m' = Z.of_nat (List.length (table_entries bs))
      /\ Z.of_nat (List.length (ne_enttab m')) = ne_entcount m'
      /\ (forall (k : nat) (e : entry),
             nth_error (table_entries bs) k = Some e ->
             let ordinal := Z.of_nat k + 1 in
             load (ne_enttab m') (ordinal - 1) = Ok e)
      /\ (forall (before after : list bundle) (n j : Z),
             bs = before ++ Unused n :: after -> 0 <= j < n ->
             let ordinal := Z.of_nat (List.length (table_entries before)) + j + 1 in
             exists e, load (ne_enttab m') (ordinal - 1) = Ok e
                       /\ e_segment e = 0 /\ e_name e = None).
Proof.
  intros bs pre post m [c p l] Hv Hint Hc. cbn [contents] in Hc. subst c.
  rewrite (get_entry_table_encoded bs pre post m p l Hv Hint).
  eexists _, _. split; [reflexivity|]. cbn [ne_entcount ne_enttab].
  split; [reflexivity|]. split; [reflexivity|]. split.
  - intros k e Hk. cbv zeta.
    replace (Z.of_nat k + 1 - 1) with (Z.of_nat k) by lia.
    now apply load_nth_error.
  - intros before after n j -> Hj. cbv zeta. exists zero_entry.
    split; [|split; reflexivity].
    replace (Z.of_nat (List.length (table_entries before)) + j + 1 - 1)
      with (Z.of_nat (List.length (table_entries before) + Z.to_nat j)) by lia.
    apply load_nth_error. unfold table_entries. rewrite flat_map_app.
    rewrite nth_error_app2 by lia.
    replace (List.length (flat_map bundle_entries before) + Z.to_nat j
             - List.length (flat_map bundle_entries before))%nat with (Z.to_nat j) by lia.
    cbn [flat_map bundle_entries]. rewrite nth_error_app1 by (rewrite repeat_length; lia).
    apply nth_error_repeat. lia.
Qed.

(** The theorem on a table of three bundles that starts at the offset 1. *)
Lemma get_entry_table_ordinals_witness :
  exists m' st',
    get_entry_table 1 (mkne [] [] [] 0)
      (mkio (byte_of 9 :: encode_table [Unused 2; Fixed 3 [mkfixed 1 513];
                                        Movable [mkmovable 1 16333 2 7]]
               ++ [byte_of 9]) 0 []) = Ok (m', st')
    /\ ne_entcount m' = 4.
Proof.
  assert (Forall valid_bundle [Unused 2; Fixed 3 [mkfixed 1 513];
                               Movable [mkmovable 1 16333 2 7]]) as Hv.
  { valid_table. }
  destruct (get_entry_table_ordinals _ [byte_of 9] [byte_of 9] (mkne [] [] [] 0)
              (mkio (byte_of 9 :: encode_table [Unused 2; Fixed 3 [mkfixed 1 513];
                                                Movable [mkmovable 1 16333 2 7]]
                       ++ [byte_of 9]) 0 []) Hv ltac:(cbv; discriminate) eq_refl)
    as [m' [st' [H [Hc _]]]].
  exists m', st'. split; [exact H | exact Hc].
Defined.

Lemma expected_int3f_valid (bs : list bundle) :
  Forall valid_bundle bs -> Forall valid_bundle (map expected_int3f bs).
Proof.
  intros H. apply Forall_map. eapply Forall_impl; [|exact H].
  intros [n|rs|seg rs]; cbn [expected_int3f valid_bundle]; auto.
  intros [Hlen Hrs]. rewrite length_map. split; [exact Hlen|].
  apply Forall_map. eapply Forall_impl; [|exact Hrs].
  intros r [Hf [Hi [Hs Ho]]]. repeat split; simpl; try apply Hf; try apply Hs; try apply Ho; lia.
Qed.

Lemma expected_int3f_entries (bs : list bundle) :
  table_entries (map expected_int3f bs) = table_entries bs.
Proof.
  unfold table_entries. induction bs as [|b bs IH]; [reflexivity|].
  cbn [map flat_map]. rewrite IH. f_equal.
  destruct b; cbn [expected_int3f bundle_entries]; try reflexivity.
  now rewrite map_map.
Qed.

Lemma expected_int3f_movable_warnings (rs : list movable_record) :
  forall ordinal,
    movable_warnings ordinal
      (map (fun r => mkmovable (mv_flags r) 16333 (mv_segment r) (mv_offset r)) rs) = [].
Proof. induction rs as [|r rs IH]; intros ordinal; simpl; auto. Qed.

Lemma expected_int3f_warnings (bs : list bundle) :
  forall ordinal, table_warnings ordinal (map expected_int3f bs) = [].
Proof.
  induction bs as [|b bs IH]; intros ordinal; [reflexivity|].
  cbn [map table_warnings]. rewrite IH, app_nil_r.
  destruct b; cbn [expected_int3f]; try reflexivity.
  apply expected_int3f_movable_warnings.
Qed.

Lemma movable_warnings_length (rs : list movable_record) :
  forall ordinal,
    List.length (movable_warnings ordinal rs)
    = List.length (filter (fun r => negb (mv_int3f r =? 16333)) rs).
Proof.
  induction rs as [|r rs IH]; intros ordinal; [reflexivity|].
  cbn [movable_warnings filter]. rewrite length_app, IH.
  destruct (mv_int3f r =? 16333); reflexivity.
Qed.

Lemma table_warnings_length (bs : list bundle) :
  forall ordinal, List.length (table_warnings ordinal bs) = mismatches bs.
Proof.
  unfold mismatches.
  induction bs as [|b bs IH]; intros ordinal; [reflexivity|].
  cbn [table_warnings flat_map]. rewrite filter_app, !length_app, IH. f_equal.
  destruct b; try reflexivity. apply movable_warnings_length.
Qed.

(** C5.  An interrupt signature other than 0x3fcd in a movable record is
    not an error: for a table of valid bundles whose entries are counted by
    an [int], [get_entry_table] returns the very entries and count that it
    returns for the same table with every signature as expected, and it
    writes one diagnostic for each record with another signature (with the
    ordinal of that record), and nothing else. *)
Theorem get_entry_table_interrupt_mismatch :
  forall (bs : list bundle) (pre post : list ascii) (m : ne) (p : Z)
         (l : list diagnostic),
    Forall valid_bundle bs ->
    Z.of_nat (List.length (table_entries bs)) <= INT_MAX ->
    exists st' st'',
      get_entry_table (Z.of_nat (List.length pre)) m
        (mkio (pre ++ encode_table bs ++ post) p l)
      = Ok (mkne (ne_name m) (ne_description m) (table_entries bs)
              (Z.of_nat (List.length (table_entries bs))), st')
      /\ get_entry_table (Z.of_nat (List.length pre)) m
           (mkio (pre ++ encode_table (map expected_int3f bs) ++ post) p l)
         = Ok (mkne (ne_name m) (ne_description m) (table_entries bs)
                 (Z.of_nat (List.length (table_entries bs))), st'')
      /\ stderr st'' = l
      /\ stderr st' = l ++ table_warnings 1 bs
      /\ List.length (table_warnings 1 bs) = mismatches bs.
Proof.
  intros bs pre post m p l Hv Hint.
  rewrite (get_entry_table_encoded bs pre post m p l Hv Hint).
  rewrite (get_entry_table_encoded _ pre post m p l (expected_int3f_valid bs Hv))
    by (now rewrite expected_int3f_entries).
  rewrite expected_int3f_entries, expected_int3f_warnings, app_nil_r.
  eexists _, _. split; [reflexivity|]. split; [reflexivity|].
  cbn [stderr]. split; [reflexivity|]. split; [reflexivity|].
  apply table_warnings_length.
Qed.

(** The theorem on a movable record with the signature 0x1234. *)
Lemma get_entry_table_interrupt_mismatch_witness :
  exists st' st'',
    get_entry_table 0 (mkne [] [] [] 0)
      (mkio (encode_table [Movable [mkmovable 1 4660 2 7]]) 0 [])
    = Ok (mkne [] [] [mkentry 1 2 7 None] 1, st')
    /\ get_entry_table 0 (mkne [] [] [] 0)
         (mkio (encode_table [Movable [mkmovable 1 16333 2 7]]) 0 [])
       = Ok (mkne [] [] [mkentry 1 2 7 None] 1, st'')
    /\ stderr st'' = []
    /\ stderr st' = [InterruptBytes 1 52 0]
    /\ List.length [InterruptBytes 1 52 0] = 1%nat.
Proof.
  assert (Forall valid_bundle [Movable [mkmovable 1 4660 2 7]]) as Hv.
  { valid_table. }
  pose proof (get_entry_table_interrupt_mismatch _ [] [] (mkne [] [] [] 0) 0 [] Hv
                ltac:(cbv; discriminate)) as H.
  rewrite !app_nil_r in H. exact H.
Defined.

(** C6.  The table made of a bundle with count 2 and type 1 (two records of
    3 bytes), a bundle with count 1 and type 0 and the zero byte gives an
    array of 3 entries: the first two have the segment 1, the flags and the
    little-endian offsets of their records, the third has the segment 0
    and no name. *)
Theorem get_entry_table_two_bundles :
  forall (flags1 lo1 hi1 flags2 lo2 hi2 : ascii) (post : list ascii) (m : ne)
         (p : Z) (l : list diagnostic),
    let table :=
      [byte_of 2; byte_of 1; flags1; lo1; hi1; flags2; lo2; hi2;
       byte_of 1; byte_of 0;
       byte_of 0] in
    get_entry_table 0 m (mkio (table ++ post) p l)
    = Ok (mkne (ne_name m) (ne_description m)
            [ mkentry (Zc flags1) 1 (Zc lo1 + 256 * Zc hi1) None;
              mkentry (Zc flags2) 1 (Zc lo2 + 256 * Zc hi2) None;
              mkentry 0 0 0 None ]
            3,
          mkio (table ++ post) 11 l).
Proof.
  intros. reflexivity.
Qed.

(** ** The demangler *)

Ltac norm_app := repeat rewrite <- app_assoc; cbn [app]; try reflexivity.

Lemma demangle_type_frame_step (c : ascii) (type1 : list ascii) :
  (forall c1 type2, type1 = c1 :: type2 -> frames type2) -> frames (c :: type1).
Proof.
  intros IH buffer. cbn [demangle_type].
  destruct (in_range "C" "K" c); [norm_app|].
  destruct (Ascii.eqb c "A" || Ascii.eqb c "P").
  { destruct type1 as [|c1 type2]; [reflexivity|].
    rewrite (IH c1 type2 eq_refl).
    rewrite (IH c1 type2 eq_refl
               (if negb (Z.land (Zc c1 - Zc "A") 2 =? 0) then _ else _)).
    destruct (demangle_type [] type2) as [[n text]|e]; [|reflexivity].
    cbn [rbind].
    destruct (negb (Z.land (Zc c1 - Zc "A") 1 =? 0));
      destruct (negb (Z.land (Zc c1 - Zc "A") 2 =? 0));
      destruct (Z.land (Zc c1 - Zc "A") 4 =? 0);
      destruct (Ascii.eqb c "A"); norm_app. }
  destruct (Ascii.eqb c "M"); [norm_app|].
  destruct (Ascii.eqb c "N"); [norm_app|].
  destruct (Ascii.eqb c "U" || Ascii.eqb c "V").
  { destruct (match strstr (c :: type1) (str "@@") with
              | Some e => Some e
              | None => strchr (c :: type1) "@"
              end); [|reflexivity].
    unfold strncat. norm_app. }
  destruct (Ascii.eqb c "X"); [norm_app|].
  now rewrite app_nil_r.
Qed.

Lemma demangle_type_frame (type : list ascii) : frames type.
Proof.
  enough (frames type /\ forall c, frames (c :: type)) as [H _] by exact H.
  induction type as [|x type [IH1 IH2]].
  - split.
    + intros buffer. simpl. now rewrite app_nil_r.
    + intros c. apply demangle_type_frame_step. discriminate.
  - split; [apply IH2|].
    intros c. apply demangle_type_frame_step.
    intros c1 type2 [= -> ->]. exact IH1.
Qed.

Lemma qualifier_bits (c1 : ascii) :
  let d := Zc c1 - Zc "A" in
  (Z.land d 1 =? 0) = negb (Z.testbit d 0)
  /\ (Z.land d 2 =? 0) = negb (Z.testbit d 1)
  /\ (Z.land d 4 =? 0) = negb (Z.testbit d 2).
Proof.
  destruct c1 as [[] [] [] [] [] [] [] []]; repeat split; reflexivity.
Qed.

(** C8.  For a type that starts with 'A' or 'P', when the pointee (from the
    third character on) decodes with the consumption [n > 0] and the text
    [pointee], [demangle_type] appends "const " if bit 0 of the second
    character minus 'A' is set, "volatile " if bit 1 is set, the text of
    the pointee, "near " unless bit 2 is set, and "&" for 'A' or "*" for
    'P', in this order, and it returns [n + 2]. *)
Theorem demangle_type_pointer :
  forall (buffer : list ascii) (c c1 : ascii) (type2 : list ascii) (n : Z)
         (pointee : list ascii),
    c = "A"%char \/ c = "P"%char ->
    demangle_type [] type2 = Ok (n, pointee) ->
    0 < n ->
    let d := Zc c1 - Zc "A" in
    demangle_type buffer (c :: c1 :: type2)
    = Ok (n + 2,
          buffer
            ++ (if Z.testbit d 0 then str "const " else [])
            ++ (if Z.testbit d 1 then str "volatile " else [])
            ++ pointee
            ++ (if Z.testbit d 2 then [] else str "near ")
            ++ (if Ascii.eqb c "A" then str "&" else str "*")).
Proof.
  intros buffer c c1 type2 n pointee Hc Hp Hn d.
  destruct (qualifier_bits c1) as [B0 [B1 B2]]. fold d in B0, B1, B2.
  cbn [demangle_type]. fold d.
  replace (in_range "C" "K" c) with false by (destruct Hc; subst c; reflexivity).
  replace (Ascii.eqb c "A" || Ascii.eqb c "P") with true
    by (destruct Hc; subst c; reflexivity).
  rewrite demangle_type_frame, Hp. cbn [rbind].
  rewrite B0, B1, B2, !negb_involutive.
  destruct (Z.testbit d 0); destruct (Z.testbit d 1); destruct (Z.testbit d 2);
    destruct (Ascii.eqb c "A"); cbn [negb]; norm_app.
Qed.

(** The theorem on a far pointer to [char]. *)
Lemma demangle_type_pointer_witness :
  demangle_type (str "void f(") (str "PEDUfoo@@@Z")
  = Ok (3, str "void f(char *").
Proof.
  exact (demangle_type_pointer (str "void f(") "P" "E" (str "DUfoo@@@Z") 1 (str "char ")
           (or_intror eq_refl) eq_refl eq_refl).
Defined.

(** ** demangle *)

Lemma strstr_bounds (needle : list ascii) :
  forall (s : list ascii) (i : Z),
    strstr s needle = Some i ->
    0 <= i /\ i + Z.of_nat (List.length needle) <= Z.of_nat (List.length s).
Proof.
  assert (forall s, is_prefix needle s = true ->
                    (List.length needle <= List.length s)%nat) as Hp.
  { induction needle as [|a needle IH]; intros s H; [simpl; lia|].
    destruct s as [|b s]; [discriminate|]. simpl in H.
    apply andb_true_iff in H. destruct H as [_ H]. apply IH in H. simpl. lia. }
  induction s as [|x s IH]; intros i H.
  - cbn [strstr] in H. destruct (is_prefix needle []) eqn:E; [|discriminate].
    injection H as <-. apply Hp in E. lia.
  - cbn [strstr] in H. destruct (is_prefix needle (x :: s)) eqn:E.
    + injection H as <-. apply Hp in E. lia.
    + destruct (strstr s needle) as [j|]; [|discriminate].
      injection H as <-. destruct (IH j eq_refl). cbn [List.length]. lia.
Qed.

Lemma ptr_add_after_separator (func : list ascii) (sep : Z) :
  strstr func (str "@@") = Some sep ->
  ptr_add func (sep + 2) = Ok (skipn (Z.to_nat (sep + 2)) func).
Proof.
  intros H. apply strstr_bounds in H. cbn [str list_ascii_of_string List.length] in H.
  unfold ptr_add.
  destruct (Z.leb_spec 0 (sep + 2)); [|lia].
  destruct (Z.leb_spec (sep + 2) (Z.of_nat (List.length func))); [|lia].
  reflexivity.
Qed.

Lemma demangle_protection_failed (func : list ascii) (sep : Z) (log log' : list diagnostic)
    (buffer : list ascii) (prot : ascii) :
  strstr func (str "@@") = Some sep ->
  demangle_protection [] (skipn (Z.to_nat (sep + 2)) func) NUL func log
  = Ok ((0, buffer, prot), log') ->
  demangle func log = Ok (func, log').
Proof.
  intros H E. unfold demangle. cbv zeta. rewrite H.
  unfold bind at 1, lift at 1. rewrite (ptr_add_after_separator _ _ H).
  unfold bind at 1. rewrite E. reflexivity.
Qed.

Lemma demangle_protection_fault (func : list ascii) (sep : Z) (log : list diagnostic)
    (e : error) :
  strstr func (str "@@") = Some sep ->
  demangle_protection [] (skipn (Z.to_nat (sep + 2)) func) NUL func log = Err e ->
  demangle func log = Err e.
Proof.
  intros H E. unfold demangle. cbv zeta. rewrite H.
  unfold bind at 1, lift at 1. rewrite (ptr_add_after_separator _ _ H).
  unfold bind at 1. rewrite E. reflexivity.
Qed.

(** C2, as amended.  When the input has the separator and
    [demangle_protection] returns the length 0 on what follows it,
    [demangle] returns the input as it is.  A name that does not start with
    '?' is never given to [demangle]: the guarded call of
    [read_res_name_table] and [load_exports] returns it as it is, whatever
    the option. *)
Theorem demangle_failure_returns_input :
  forall (func : list ascii) (log : list diagnostic),
    (forall (sep : Z) (buffer : list ascii) (prot : ascii) (log' : list diagnostic),
        strstr func (str "@@") = Some sep ->
        demangle_protection [] (skipn (Z.to_nat (sep + 2)) func) NUL func log
        = Ok ((0, buffer, prot), log') ->
        demangle func log = Ok (func, log'))
    /\ (forall (opts_DEMANGLE : bool),
           hd NUL func <> "?"%char ->
           demangle_name opts_DEMANGLE func log = Ok (func, log)).
Proof.
  intros func log. split.
  - intros sep buffer prot log' Hsep Hprot.
    exact (demangle_protection_failed func sep log log' buffer prot Hsep Hprot).
  - intros opts Hhd. unfold demangle_name.
    destruct func as [|c func]; [now rewrite andb_false_r|].
    cbn [hd] in Hhd. destruct (Ascii.eqb_spec c "?"); [contradiction|].
    now rewrite andb_false_r.
Qed.

(** The theorem on a name with the modifier '$' and on a name without the
    marker. *)
Lemma demangle_failure_returns_input_witness :
  demangle (str "?f@@$x") [] = Ok (str "?f@@$x", [UnknownModifier "$" (str "?f@@$x")])
  /\ demangle_name true (str "f@@YAXXZ") [] = Ok (str "f@@YAXXZ", []).
Proof.
  split.
  - exact (proj1 (demangle_failure_returns_input (str "?f@@$x") [])
             2 [] NUL [UnknownModifier "$" (str "?f@@$x")] eq_refl eq_refl).
  - refine (proj2 (demangle_failure_returns_input (str "f@@YAXXZ") []) true _).
    discriminate.
Defined.

(** [demangle] itself does not look at the first character: a name that
    starts with 'a' is demangled and not returned as it is. *)
Lemma demangle_unmarked_counterexample :
  hd NUL (str "a?b@@YAXXZ") <> "?"%char
  /\ demangle (str "a?b@@YAXXZ") [] = Ok (str "near void b(void)", [])
  /\ str "near void b(void)" <> str "a?b@@YAXXZ".
Proof. repeat split; discriminate || reflexivity. Qed.

(** The arm of 'X' with a digit: "(X0) " with the digit in the place of
    the '0', and the number 2. *)
Lemma demangle_protection_X_digit (buffer : list ascii) (d : ascii) (rest : list ascii)
    (prot : ascii) (func : list ascii) (log : list diagnostic) :
  is_digit d = true ->
  demangle_protection buffer ("X"%char :: d :: rest) prot func log
  = Ok ((2, buffer ++ ["("; "X"; d; ")"; " "]%char, "V"%char), log).
Proof.
  intros Hd. unfold demangle_protection. cbn [demangle_protection_call].
  change (in_range "A" "V" "X") with false.
  cbn [Ascii.eqb Bool.eqb andb]. cbv beta iota.
  unfold bind at 1. unfold bind at 1, lift at 1.
  change (char_at ("X"%char :: d :: rest) 1) with (Ok d).
  cbv beta iota. rewrite Hd.
  unfold bind at 1, lift at 1, poke.
  replace (buffer ++ str "(X0) ")
    with ((buffer ++ ["("; "X"]%char) ++ "0"%char :: [")"; " "]%char)
    by (now rewrite <- app_assoc).
  rewrite store_middle
    by (unfold strlen; rewrite !length_app; cbn [List.length]; lia).
  unfold ret. rewrite <- app_assoc. reflexivity.
Qed.

(** The arm of '_' with a digit in the fourth place: "(_00) " with the
    third and the fourth character in the place of the two '0', and the
    number 4.  What the inner call has done to the buffer and to [*prot]
    stays; its number is not used. *)
Lemma demangle_protection_escape_digit (buffer : list ascii) (c1 c2 d : ascii)
    (rest : list ascii) (prot : ascii) (func : list ascii) (log : list diagnostic)
    (n : result Z) (buffer' : list ascii) (prot' : ascii) (log' : list diagnostic) :
  c1 <> "$"%char -> is_digit d = true ->
  demangle_protection_call buffer (c1 :: c2 :: d :: rest) prot func log
  = Ok ((n, buffer', prot'), log') ->
  demangle_protection buffer ("_"%char :: c1 :: c2 :: d :: rest) prot func log
  = Ok ((4, buffer' ++ ["("; "_"; c2; d; ")"; " "]%char, prot'), log').
Proof.
  intros H1 Hd E. unfold demangle_protection.
  remember (c1 :: c2 :: d :: rest) as start1 eqn:Es.
  cbn [demangle_protection_call]. change (in_range "A" "V" "_") with false.
  cbn [Ascii.eqb Bool.eqb andb]. cbv beta iota. subst start1.
  destruct (Ascii.eqb_spec c1 "$"); [contradiction|]. cbn [negb].
  unfold bind at 1. unfold bind at 1. rewrite E.
  unfold bind at 1, lift at 1.
  change (char_at ("_"%char :: c1 :: c2 :: d :: rest) 3) with (Ok d).
  cbv beta iota. rewrite Hd.
  unfold bind at 1, lift at 1.
  change (char_at ("_"%char :: c1 :: c2 :: d :: rest) 2) with (Ok c2).
  cbv beta iota zeta.
  unfold bind at 1, lift at 1, poke.
  replace (buffer' ++ str "(_00) ")
    with ((buffer' ++ ["("; "_"]%char) ++ "0"%char :: ["0"; ")"; " "]%char)
    by (now rewrite <- app_assoc).
  rewrite store_middle
    by (unfold strlen; rewrite !length_app; cbn [List.length]; lia).
  unfold bind at 1, lift at 1.
  replace ((buffer' ++ ["("; "_"]%char) ++ c2 :: ["0"; ")"; " "]%char)
    with ((buffer' ++ ["("; "_"; c2]%char) ++ "0"%char :: [")"; " "]%char)
    by (now rewrite <- !app_assoc).
  rewrite store_middle
    by (unfold strlen; rewrite !length_app; cbn [List.length]; lia).
  unfold ret. rewrite <- app_assoc. reflexivity.
Qed.

(** C10, as amended.  [demangle] on an input without the separator "@@"
    uses the null pointer that [strstr] returns.  [demangle_protection]
    computes the number that it returns from the null pointer of [strchr]
    when the modifier is 'X' followed by something other than a digit, or
    '_' with no digit in the fourth place, and no '@' follows; the number is
    used by [demangle], and a fault of [demangle_protection] is a fault of
    [demangle], which thus does not return the input.  With the digit in its
    place the two arms do not call [strchr]: they return 2 and 4, with or
    without an '@' behind the modifier, and the arm of '_' does not use the
    number of its inner call. *)
Theorem demangle_needs_separators :
  (forall (func : list ascii) (log : list diagnostic),
      strstr func (str "@@") = None -> demangle func log = Err NullPointer)
  /\ (forall (buffer start1 : list ascii) (prot : ascii) (func : list ascii)
             (log : list diagnostic),
         is_digit (hd NUL start1) = false ->
         strchr ("X"%char :: start1) "@" = None ->
         demangle_protection buffer ("X"%char :: start1) prot func log = Err NullPointer)
  /\ (forall (buffer : list ascii) (c1 c2 : ascii) (rest : list ascii) (prot : ascii)
             (func : list ascii) (log : list diagnostic),
         c1 <> "$"%char ->
         is_digit (hd NUL rest) = false ->
         strchr ("_"%char :: c1 :: c2 :: rest) "@" = None ->
         exists e,
           demangle_protection buffer ("_"%char :: c1 :: c2 :: rest) prot func log = Err e
           /\ ((exists r, demangle_protection_call buffer (c1 :: c2 :: rest) prot func log
                          = Ok r)
               -> e = NullPointer))
  /\ (forall (func : list ascii) (sep : Z) (log : list diagnostic),
         strstr func (str "@@") = Some sep ->
         (exists e, demangle_protection [] (skipn (Z.to_nat (sep + 2)) func) NUL func log
                    = Err e) ->
         exists e, demangle func log = Err e)
  /\ (forall (buffer : list ascii) (d : ascii) (rest : list ascii) (prot : ascii)
             (func : list ascii) (log : list diagnostic),
         is_digit d = true ->
         demangle_protection buffer ("X"%char :: d :: rest) prot func log
         = Ok ((2, buffer ++ ["("; "X"; d; ")"; " "]%char, "V"%char), log))
  /\ (forall (buffer : list ascii) (c1 c2 d : ascii) (rest : list ascii) (prot : ascii)
             (func : list ascii) (log : list diagnostic) (n : result Z)
             (buffer' : list ascii) (prot' : ascii) (log' : list diagnostic),
         c1 <> "$"%char -> is_digit d = true ->
         demangle_protection_call buffer (c1 :: c2 :: d :: rest) prot func log
         = Ok ((n, buffer', prot'), log') ->
         demangle_protection buffer ("_"%char :: c1 :: c2 :: d :: rest) prot func log
         = Ok ((4, buffer' ++ ["("; "_"; c2; d; ")"; " "]%char, prot'), log')).
Proof.
  split; [|split; [|split; [|split; [|split]]]].
  - intros func log H. unfold demangle. now rewrite H.
  - intros buffer start1 prot func log Hd Hc.
    unfold demangle_protection.
    cbn [demangle_protection_call]. change (in_range "A" "V" "X") with false.
    cbn [Ascii.eqb Bool.eqb andb]. cbv beta iota.
    unfold bind at 1. unfold bind at 1, lift at 1.
    assert (char_at ("X"%char :: start1) 1 = Ok (hd NUL start1)) as ->.
    { destruct start1; reflexivity. }
    rewrite Hd, Hc. reflexivity.
  - intros buffer c1 c2 rest prot func log H1 Hd Hc.
    unfold demangle_protection.
    remember (c1 :: c2 :: rest) as start1 eqn:Es.
    cbn [demangle_protection_call]. change (in_range "A" "V" "_") with false.
    cbn [Ascii.eqb Bool.eqb andb]. cbv beta iota. subst start1.
    destruct (Ascii.eqb_spec c1 "$"); [contradiction|]. cbn [negb].
    unfold bind at 1. unfold bind at 1.
    destruct (demangle_protection_call buffer (c1 :: c2 :: rest) prot func log)
      as [[[[len b] pr] log']|e] eqn:E.
    + exists NullPointer. split; [|reflexivity].
      unfold bind at 1, lift at 1.
      assert (char_at ("_"%char :: c1 :: c2 :: rest) 3 = Ok (hd NUL rest)) as ->.
      { destruct rest; reflexivity. }
      rewrite Hd, Hc. reflexivity.
    + exists e. split; [reflexivity|]. intros [r Hr]. discriminate.
  - intros func sep log Hsep [e He]. exists e.
    exact (demangle_protection_fault func sep log e Hsep He).
  - exact demangle_protection_X_digit.
  - exact demangle_protection_escape_digit.
Qed.

(** The theorem on names without a separator or without a '@' behind the
    modifier, and on modifiers with their digits. *)
Lemma demangle_needs_separators_witness :
  demangle (str "?f") [] = Err NullPointer
  /\ demangle_protection [] (str "Xfoo") NUL (str "?f@@Xfoo") [] = Err NullPointer
  /\ (exists e, demangle_protection [] (str "_Vab") NUL (str "?f@@_Vab") [] = Err e)
  /\ (exists e, demangle (str "?f@@Xfoo") [] = Err e)
  /\ demangle_protection [] (str "X7") NUL (str "?f@@X7") [] = Ok ((2, str "(X7) ", "V"%char), [])
  /\ demangle_protection [] (str "_V07") NUL (str "?f@@_V07") []
     = Ok ((4, str "virtual public (_07) ", "V"%char), []).
Proof.
  destruct demangle_needs_separators as [H1 [H2 [H3 [H4 [H5 H6]]]]].
  split; [|split; [|split; [|split; [|split]]]].
  - apply H1. reflexivity.
  - apply (H2 [] (str "foo")); reflexivity.
  - destruct (H3 [] "V"%char "a"%char (str "b") NUL (str "?f@@_Vab") [])
      as [e [He _]]; try reflexivity; try discriminate.
    exists e. exact He.
  - apply (H4 (str "?f@@Xfoo") 2 []); [reflexivity|].
    exists NullPointer. apply (H2 [] (str "foo")); reflexivity.
  - apply (H5 [] "7"%char [] NUL (str "?f@@X7") []). reflexivity.
  - apply (H6 [] "V"%char "0"%char "7"%char [] NUL (str "?f@@_V07") []
              (Ok 1) (str "virtual public ") "V"%char []);
      [discriminate | reflexivity | reflexivity].
Defined.

(** A name with an escape and no '@' behind it is demangled: with the digit
    in the fourth place the arm of '_' does not call [strchr]. *)
Lemma demangle_escape_without_at_counterexample :
  strchr (str "_V07EAXXZ") "@" = None
  /\ demangle (str "?f@@_V07EAXXZ") []
     = Ok (str "virtual public (_07) void f(void)", []).
Proof. split; reflexivity. Qed.

(** ** Qualified names *)

Lemma char_at_middle (pre : list ascii) (x : ascii) (post : list ascii) :
  char_at (pre ++ x :: post) (Z.of_nat (List.length pre)) = Ok x.
Proof.
  unfold char_at. destruct (Z.ltb_spec (Z.of_nat (List.length pre)) 0); [lia|].
  rewrite Nat2Z.id, nth_error_app2 by lia. now rewrite Nat.sub_diag.
Qed.

Lemma scan_back_component (d : ascii) :
  is_delimiter d = true ->
  forall (comp pre post : list ascii) (fuel : nat),
    plain comp ->
    (List.length comp < fuel)%nat ->
    scan_back fuel (pre ++ d :: comp ++ post)
      (Z.of_nat (List.length pre) + Z.of_nat (List.length comp))
    = Ok (Z.of_nat (List.length pre)).
Proof.
  intros Hd comp. induction comp as [|x comp IH] using rev_ind;
    intros pre post fuel Hplain Hfuel;
    (destruct fuel as [|fuel]; [simpl in Hfuel; lia|]); cbn [scan_back].
  - cbn [List.length app]. rewrite Z.add_0_r, char_at_middle. cbn [rbind].
    unfold is_delimiter in Hd. apply orb_true_iff in Hd.
    destruct Hd as [Hd|Hd]; rewrite Hd; [reflexivity|].
    now rewrite andb_false_r.
  - unfold plain in Hplain. rewrite forallb_app in Hplain.
    apply andb_true_iff in Hplain. destruct Hplain as [Hcomp Hx].
    cbn [forallb] in Hx. rewrite andb_true_r in Hx.
    rewrite length_app in *. cbn [List.length] in *.
    replace (pre ++ d :: (comp ++ [x]) ++ post)
      with ((pre ++ d :: comp) ++ x :: post)
      by (rewrite <- !app_assoc; cbn [app]; reflexivity).
    replace (Z.of_nat (List.length pre) + Z.of_nat (List.length comp + 1))
      with (Z.of_nat (List.length (pre ++ d :: comp)))
      by (rewrite length_app; cbn [List.length]; lia).
    rewrite char_at_middle. cbn [rbind].
    unfold is_delimiter in Hx. apply negb_true_iff, orb_false_iff in Hx.
    destruct Hx as [-> ->]. cbn [negb andb].
    replace (Z.of_nat (List.length (pre ++ d :: comp)) - 1)
      with (Z.of_nat (List.length pre) + Z.of_nat (List.length comp))
      by (rewrite length_app; cbn [List.length]; lia).
    rewrite <- app_assoc. cbn [app].
    apply (IH pre (x :: post) fuel Hcomp). lia.
Qed.

Lemma ptr_add_app (pre post : list ascii) (i : Z) :
  i = Z.of_nat (List.length pre) -> ptr_add (pre ++ post) i = Ok post.
Proof.
  intros ->. unfold ptr_add. rewrite length_app.
  destruct (Z.leb_spec 0 (Z.of_nat (List.length pre))); [|lia].
  destruct (Z.leb_spec (Z.of_nat (List.length pre))
              (Z.of_nat (List.length pre + List.length post))); [|lia].
  cbn [andb]. rewrite Nat2Z.id, skipn_app, skipn_all, Nat.sub_diag. reflexivity.
Qed.

Lemma strncat_app (buffer comp post : list ascii) (n : Z) :
  n = Z.of_nat (List.length comp) -> strncat buffer (comp ++ post) n = buffer ++ comp.
Proof.
  intros ->. unfold strncat. rewrite Nat2Z.id, firstn_app, firstn_all, Nat.sub_diag.
  cbn [firstn]. now rewrite app_nil_r.
Qed.

Lemma stored_name_length (components : list (list ascii)) :
  (List.length components <= List.length (stored_name components))%nat.
Proof.
  induction components as [|c outer IH]; [simpl; lia|].
  cbn [stored_name]. destruct outer as [|c' outer].
  - simpl. lia.
  - rewrite length_app. cbn [List.length] in *. lia.
Qed.

Lemma demangle_classname_stored (components : list (list ascii)) :
  components <> [] ->
  Forall plain components ->
  forall (post buffer : list ascii) (fuel : nat),
    (List.length components <= fuel)%nat ->
    demangle_classname fuel (stored_name components ++ post)
      (Z.of_nat (List.length (stored_name components))) buffer
    = Ok (buffer ++ rendered_name components).
Proof.
  induction components as [|c outer IH]; intros Hne Hplain post buffer fuel Hfuel;
    [contradiction|].
  inversion Hplain as [|? ? Hc Houter]; subst.
  destruct fuel as [|fuel]; [simpl in Hfuel; lia|].
  cbn [demangle_classname stored_name rendered_name].
  destruct outer as [|c' outer].
  - (* the first component: the marker is reached *)
    cbn [List.length app].
    pose proof (scan_back_component "?" eq_refl c [] post
                  (S (S (List.length (c ++ post)))) Hc) as Hscan.
    cbn [List.length app] in Hscan. change (Z.of_nat 0) with 0 in Hscan.
    replace (Z.of_nat (S (List.length c)) - 1) with (0 + Z.of_nat (List.length c)) by lia.
    rewrite Hscan by (rewrite length_app; lia). cbn [rbind].
    pose proof (ptr_add_app ["?"%char] (c ++ post) (0 + 1) eq_refl) as Hptr.
    cbn [app] in Hptr. rewrite Hptr. cbn [rbind].
    rewrite strncat_app by lia.
    change (char_at ("?"%char :: c ++ post) 0) with (Ok "?"%char : result ascii).
    reflexivity.
  - set (inner := stored_name (c' :: outer)) in *.
    rewrite <- app_assoc. cbn [app].
    pose proof (scan_back_component "@" eq_refl c inner post
                  (S (List.length (inner ++ "@"%char :: c ++ post))) Hc) as Hscan.
    replace (Z.of_nat (List.length (inner ++ "@"%char :: c)) - 1)
      with (Z.of_nat (List.length inner) + Z.of_nat (List.length c))
      by (rewrite length_app; cbn [List.length]; lia).
    rewrite Hscan by (rewrite !length_app; cbn [List.length]; rewrite length_app; lia).
    cbn [rbind].
    replace (inner ++ "@"%char :: c ++ post) with ((inner ++ ["@"%char]) ++ c ++ post)
      by (now rewrite <- app_assoc).
    rewrite (ptr_add_app (inner ++ ["@"%char]) (c ++ post))
      by (rewrite length_app; cbn [List.length]; lia).
    cbn [rbind]. rewrite strncat_app by (rewrite length_app; cbn [List.length]; lia).
    rewrite <- app_assoc. cbn [app]. rewrite char_at_middle. cbn [rbind].
    cbn [Ascii.eqb Bool.eqb andb].
    rewrite (IH ltac:(discriminate) Houter ("@"%char :: c ++ post)) by (cbn [List.length] in *; lia).
    now rewrite <- !app_assoc.
Qed.

(** C3.  For every name that starts with "?Foo@Bar@Baz@@", the first
    separator is at the index 12 and the loop of [demangle] that goes back
    from there appends "Baz::Bar::Foo" to the buffer; [demangle] of such a
    name renders the qualified name so. *)
Theorem demangle_qualified_name :
  (forall (signature buffer : list ascii),
      let func := str "?Foo@Bar@Baz@@" ++ signature in
      strstr func (str "@@") = Some 12
      /\ demangle_classname (S (List.length func)) func 12 buffer
         = Ok (buffer ++ str "Baz::Bar::Foo"))
  /\ demangle (str "?Foo@Bar@Baz@@QEAXXZ") []
     = Ok (str "near public void Baz::Bar::Foo(void)", [])
  /\ demangle (str "?Foo@Bar@Baz@@YAHPEDH@Z") []
     = Ok (str "near int Baz::Bar::Foo(char *, int)", []).
Proof.
  split; [|split; reflexivity].
  intros signature buffer func. split; [reflexivity|].
  assert (Forall plain [str "Baz"; str "Bar"; str "Foo"]) as Hplain
    by (repeat constructor).
  pose proof (demangle_classname_stored [str "Baz"; str "Bar"; str "Foo"]
                ltac:(discriminate) Hplain (str "@@" ++ signature) buffer
                (S (List.length func))) as H.
  apply H. unfold func. cbn [str list_ascii_of_string app List.length]. lia.
Qed.

(** ** Specfiles *)

(** ** Decimal numbers *)

Lemma Zc_digit_char (d : Z) : 0 <= d < 10 -> Zc (digit_char d) = 48 + d.
Proof.
  intros H. unfold Zc, digit_char. rewrite N_ascii_embedding; lia.
Qed.

Lemma is_digit_digit_char (d : Z) : 0 <= d < 10 -> is_digit (digit_char d) = true.
Proof.
  intros H. unfold is_digit, in_range. rewrite Zc_digit_char by exact H.
  change (Zc "0") with 48. change (Zc "9") with 57.
  apply andb_true_iff. split; [apply Z.leb_le|apply Z.leb_le]; lia.
Qed.

Lemma is_digit_range (c : ascii) : is_digit c = true -> 48 <= Zc c <= 57.
Proof.
  unfold is_digit, in_range. change (Zc "0") with 48. change (Zc "9") with 57.
  intros H. apply andb_true_iff in H. destruct H as [H1 H2].
  apply Z.leb_le in H1, H2. lia.
Qed.

Lemma dec_digits_app (fuel : nat) :
  forall (n : Z) (acc : list ascii),
    dec_digits fuel n acc = dec_digits fuel n [] ++ acc.
Proof.
  induction fuel as [|fuel IH]; intros n acc; [reflexivity|].
  cbn [dec_digits]. destruct (n / 10 =? 0); [reflexivity|].
  rewrite (IH _ (_ :: acc)), (IH _ [_]), <- app_assoc. reflexivity.
Qed.

Lemma horner_app (xs ys : list ascii) (a : Z) :
  horner (xs ++ ys) a = horner ys (horner xs a).
Proof. apply fold_left_app. Qed.

Lemma dec_digits_value (fuel : nat) :
  forall n : Z,
    0 <= n < 10 ^ Z.of_nat fuel -> (0 < fuel)%nat ->
    horner (dec_digits fuel n []) 0 = n
    /\ Forall (fun c => is_digit c = true) (dec_digits fuel n [])
    /\ (1 <= List.length (dec_digits fuel n []) <= fuel)%nat.
Proof.
  induction fuel as [|fuel IH]; intros n Hn Hfuel.
  - lia.
  - cbn [dec_digits].
    assert (0 <= n mod 10 < 10) as Hd by (apply Z.mod_pos_bound; lia).
    pose proof (Z.div_mod n 10 ltac:(lia)) as Hdm.
    destruct (Z.eqb_spec (n / 10) 0) as [E|E].
    + repeat split.
      * cbn [horner fold_left]. rewrite Zc_digit_char by exact Hd. lia.
      * repeat constructor. now apply is_digit_digit_char.
      * simpl; lia.
      * simpl; lia.
    + rewrite dec_digits_app.
      assert (0 <= n / 10 < 10 ^ Z.of_nat fuel) as Hq.
      { rewrite Nat2Z.inj_succ, Z.pow_succ_r in Hn by lia.
        split; [apply Z.div_pos; lia|apply Z.div_lt_upper_bound; lia]. }
      assert (0 < fuel)%nat as Hpos.
      { destruct fuel; [|lia]. simpl in Hq. lia. }
      destruct (IH _ Hq Hpos) as [Hv [Hall Hlen]].
      repeat split.
      * rewrite horner_app, Hv. cbn [horner fold_left].
        rewrite Zc_digit_char by exact Hd. lia.
      * apply Forall_app. split; [exact Hall|].
        repeat constructor. now apply is_digit_digit_char.
      * rewrite length_app. simpl. lia.
      * rewrite length_app. simpl. lia.
Qed.

Lemma fmt_d_fuel (n : Z) : 0 <= n -> n < 10 ^ Z.of_nat (S (Z.to_nat (Z.log2 n))).
Proof.
  intros Hn. rewrite Nat2Z.inj_succ, Z2Nat.id by apply Z.log2_nonneg.
  destruct (Z.eq_dec n 0) as [->|Hnz]; [simpl; lia|].
  pose proof (Z.log2_spec n ltac:(lia)) as [_ Hlt].
  pose proof (Z.log2_nonneg n).
  assert (2 ^ Z.succ (Z.log2 n) <= 10 ^ Z.succ (Z.log2 n))
    by (apply Z.pow_le_mono_l; lia).
  lia.
Qed.

Lemma scan_digits_app (ds : list ascii) :
  Forall (fun c => is_digit c = true) ds ->
  forall (rest : list ascii) (a : Z),
    is_digit (hd NUL rest) = false ->
    scan_digits (ds ++ rest) a = horner ds a.
Proof.
  induction 1 as [|c ds Hc Hds IH]; intros rest a Hrest.
  - cbn [app horner fold_left]. destruct rest as [|r rest]; [reflexivity|].
    cbn [hd] in Hrest. cbn [scan_digits]. now rewrite Hrest.
  - cbn [app scan_digits]. rewrite Hc. rewrite IH by exact Hrest. reflexivity.
Qed.

(** What is needed of [%d] on an ordinal. *)
Lemma fmt_d_ordinal (k : Z) :
  0 <= k ->
  Forall (fun c => is_digit c = true) (fmt_d k)
  /\ (1 <= List.length (fmt_d k))%nat
  /\ (forall rest, is_digit (hd NUL rest) = false -> scan_digits (fmt_d k ++ rest) 0 = k)
  /\ (k < 100000 -> (List.length (fmt_d k) <= 5)%nat).
Proof.
  intros Hk. unfold fmt_d. destruct (Z.ltb_spec k 0); [lia|].
  destruct (dec_digits_value _ k (conj Hk (fmt_d_fuel k Hk)) ltac:(lia)) as [Hv [Hall Hlen]].
  split; [exact Hall|]. split; [lia|]. split.
  - intros rest Hrest. now rewrite scan_digits_app.
  - intros Hsmall.
    (* the digits do not depend on the fuel once it is large enough *)
    assert (forall f1 f2 n, 0 <= n < 10 ^ Z.of_nat f1 -> 0 <= n < 10 ^ Z.of_nat f2 ->
                            (0 < f1)%nat -> (0 < f2)%nat ->
                            dec_digits f1 n [] = dec_digits f2 n []) as Hindep.
    { induction f1 as [|f1 IH1]; intros f2 n H1 H2 P1 P2; [lia|].
      destruct f2 as [|f2]; [lia|].
      cbn [dec_digits]. destruct (Z.eqb_spec (n / 10) 0) as [E|E]; [reflexivity|].
      rewrite (dec_digits_app f1), (dec_digits_app f2). f_equal.
      rewrite Nat2Z.inj_succ, Z.pow_succ_r in H1, H2 by lia.
      assert (10 <= n).
      { destruct (Z.lt_ge_cases n 10) as [Hlt|Hge]; [|exact Hge].
        rewrite Z.div_small in E by lia. contradiction. }
      apply IH1.
      - split; [apply Z.div_pos; lia|apply Z.div_lt_upper_bound; lia].
      - split; [apply Z.div_pos; lia|apply Z.div_lt_upper_bound; lia].
      - destruct f1; [simpl in H1; lia|lia].
      - destruct f2; [simpl in H2; lia|lia]. }
    rewrite (Hindep _ 5%nat k (conj Hk (fmt_d_fuel k Hk))) by (simpl; lia).
    destruct (dec_digits_value 5 k ltac:(simpl; lia) ltac:(lia)) as [_ [_ H5]]. lia.
Qed.

Lemma load_middle {A : Type} (done : list A) (x : A) (rest : list A) (i : Z) :
  i = Z.of_nat (List.length done) -> load (done ++ x :: rest) i = Ok x.
Proof.
  intros ->. apply load_nth_error. rewrite nth_error_app2 by lia.
  now rewrite Nat.sub_diag.
Qed.

Lemma print_specfile_lines_text :
  forall (rest done : list entry) (i : Z) (out : list ascii),
    i = Z.of_nat (List.length done) ->
    print_specfile_lines (List.length rest) i (done ++ rest) out
    = Ok (out ++ specfile_text i rest).
Proof.
  induction rest as [|e rest IH]; intros done i out Hi.
  - simpl. now rewrite app_nil_r.
  - cbn [List.length print_specfile_lines specfile_text].
    rewrite (load_middle done e rest i Hi). cbn [rbind].
    replace (done ++ e :: rest) with ((done ++ [e]) ++ rest) by (now rewrite <- app_assoc).
    rewrite IH by (rewrite length_app; cbn [List.length]; lia).
    unfold specfile_line. destruct (e_name e) as [name|].
    + now rewrite <- !app_assoc.
    + destruct (e_segment e =? 0); cbn [negb app]; now rewrite <- ?app_assoc.
Qed.

Lemma print_specfile_eq (m : ne) (st : sys) :
  ne_entcount m = Z.of_nat (List.length (ne_enttab m)) ->
  existsb (path_eqb (firstn 8 (ne_name m) ++ str ".ORD")) (unwritable st) = false ->
  print_specfile m st
  = Ok (tt, mksys ((firstn 8 (ne_name m) ++ str ".ORD",
                    specfile_header ++ specfile_text 0 (ne_enttab m)) :: files st)
              (unwritable st) (sys_stderr st)).
Proof.
  intros Hcount Hw. unfold print_specfile.
  unfold bind at 1, fopen_w at 1. rewrite Hw. cbn [negb].
  unfold bind at 1, lift at 1. rewrite Hcount, Nat2Z.id.
  rewrite (print_specfile_lines_text (ne_enttab m) [] 0 _ eq_refl).
  reflexivity.
Qed.

(** C7, as amended.  [print_specfile] writes the header line and then, for
    every ordinal in turn: the ordinal, a tab and the name when the entry
    has a name, whether or not it has a segment; the bare ordinal when it
    has a segment and no name; nothing when it has neither. *)
Theorem print_specfile_writes_known_ordinals :
  forall (m : ne) (st : sys),
    ne_entcount m = Z.of_nat (List.length (ne_enttab m)) ->
    existsb (path_eqb (firstn 8 (ne_name m) ++ str ".ORD")) (unwritable st) = false ->
    print_specfile m st
    = Ok (tt, mksys ((firstn 8 (ne_name m) ++ str ".ORD",
                      specfile_header ++ specfile_text 0 (ne_enttab m)) :: files st)
                (unwritable st) (sys_stderr st))
    /\ (forall (ordinal : Z) (e : entry),
           match e_name e with
           | Some name => specfile_line ordinal e = fmt_d ordinal ++ [TAB] ++ name ++ [NL]
           | None =>
               (e_segment e <> 0 -> specfile_line ordinal e = fmt_d ordinal ++ [NL])
               /\ (e_segment e = 0 -> specfile_line ordinal e = [])
           end).
Proof.
  intros m st Hcount Hw. split; [now apply print_specfile_eq|].
  intros ordinal e. unfold specfile_line. destruct (e_name e); [reflexivity|].
  destruct (Z.eqb_spec (e_segment e) 0); split; intros; congruence.
Qed.

(** The theorem on a table with a named entry, an unused ordinal and an
    entry without a name. *)
Lemma print_specfile_writes_known_ordinals_witness :
  print_specfile
    (mkne (str "KERNEL") []
       [mkentry 0 1 16 (Some (str "FOO")); mkentry 0 0 0 None; mkentry 0 2 5 None] 3)
    (mksys [] [] [])
  = Ok (tt, mksys [(str "KERNEL.ORD",
                    str "# Generated by dumpne -o" ++ [NL]
                      ++ str "1" ++ [TAB] ++ str "FOO" ++ [NL]
                      ++ str "3" ++ [NL])] [] []).
Proof.
  exact (proj1 (print_specfile_writes_known_ordinals
                  (mkne (str "KERNEL") []
                     [mkentry 0 1 16 (Some (str "FOO")); mkentry 0 0 0 None;
                      mkentry 0 2 5 None] 3)
                  (mksys [] [] []) eq_refl eq_refl)).
Defined.

(** An ordinal without a segment is written when it has a name. *)
Lemma print_specfile_named_placeholder_counterexample :
  e_segment (mkentry 0 0 0 (Some (str "FOO"))) = 0
  /\ print_specfile (mkne (str "MOD") [] [mkentry 0 0 0 (Some (str "FOO"))] 1)
       (mksys [] [] [])
     = Ok (tt, mksys [(str "MOD.ORD",
                       str "# Generated by dumpne -o" ++ [NL]
                         ++ str "1" ++ [TAB] ++ str "FOO" ++ [NL])] [] []).
Proof. split; reflexivity. Qed.

(** ** Lines of text *)

Lemma eqb_false_of_Zc (a b : ascii) : Zc a <> Zc b -> Ascii.eqb a b = false.
Proof. intros H. destruct (Ascii.eqb_spec a b); [subst; contradiction|reflexivity]. Qed.

Lemma not_in_eqb (c : ascii) (x : ascii) (s : list ascii) :
  ~ In c (x :: s) -> Ascii.eqb x c = false /\ ~ In c s.
Proof.
  intros H. split.
  - destruct (Ascii.eqb_spec x c); [subst; exfalso; apply H; now left|reflexivity].
  - intros Hin. apply H. now right.
Qed.

Lemma fgets_bytes_line (body rest : list ascii) :
  ~ In NL body ->
  forall n : nat,
    (List.length body < n)%nat ->
    fgets_bytes n (body ++ NL :: rest) = (body ++ [NL], rest).
Proof.
  induction body as [|x body IH]; intros Hnl n Hn.
  - destruct n as [|n]; [simpl in Hn; lia|]. cbn [app fgets_bytes].
    now rewrite Ascii.eqb_refl.
  - destruct n as [|n]; [simpl in Hn; lia|]. cbn [app fgets_bytes].
    apply not_in_eqb in Hnl. destruct Hnl as [-> Hnl].
    rewrite (IH Hnl n) by (simpl in Hn; lia). reflexivity.
Qed.

Lemma fgets_line (body rest : list ascii) :
  ~ In NL body -> (List.length body < 299)%nat ->
  fgets 300 (body ++ NL :: rest) = Some (body ++ [NL], rest).
Proof.
  intros Hnl Hlen. unfold fgets.
  destruct (body ++ NL :: rest) eqn:E; [destruct body; discriminate|].
  rewrite <- E. change (300 - 1)%nat with 299%nat.
  now rewrite fgets_bytes_line.
Qed.

Lemma c_str_line (body : list ascii) :
  ~ In NUL body -> c_str (body ++ [NL]) = body ++ [NL].
Proof.
  induction body as [|x body IH]; intros H; [reflexivity|].
  cbn [app c_str]. apply not_in_eqb in H. destruct H as [-> H].
  now rewrite IH.
Qed.

Lemma strchr_first (c : ascii) (body rest : list ascii) :
  ~ In c body -> strchr (body ++ c :: rest) c = Some (Z.of_nat (List.length body)).
Proof.
  induction body as [|x body IH]; intros H.
  - cbn [app strchr]. now rewrite Ascii.eqb_refl.
  - cbn [app strchr]. apply not_in_eqb in H. destruct H as [-> H].
    rewrite (IH H). cbn [option_map List.length]. f_equal. lia.
Qed.

Lemma strchr_none (c : ascii) (body : list ascii) :
  ~ In c body -> strchr body c = None.
Proof.
  induction body as [|x body IH]; intros H; [reflexivity|].
  cbn [strchr]. apply not_in_eqb in H. destruct H as [-> H]. now rewrite (IH H).
Qed.

Lemma digits_exclude (c : ascii) (ds : list ascii) :
  Forall (fun d => is_digit d = true) ds -> is_digit c = false -> ~ In c ds.
Proof.
  intros Hds Hc Hin. rewrite Forall_forall in Hds. apply Hds in Hin. congruence.
Qed.

Lemma sscanf_hu_ordinal (k : Z) (rest : list ascii) :
  0 <= k < 65536 -> is_digit (hd NUL rest) = false ->
  sscanf_hu (fmt_d k ++ rest) = Some k.
Proof.
  intros Hk Hrest.
  destruct (fmt_d_ordinal k ltac:(lia)) as [Hall [Hlen [Hscan _]]].
  specialize (Hscan rest Hrest).
  destruct (fmt_d k) as [|d ds] eqn:E; [simpl in Hlen; lia|].
  pose proof (Forall_inv Hall) as Hd. cbn beta in Hd.
  pose proof (is_digit_range d Hd) as Hr.
  unfold sscanf_hu. cbn [app skip_space].
  assert (isspace d = false) as ->.
  { unfold isspace, in_range. rewrite eqb_false_of_Zc by (change (Zc " ") with 32; lia).
    change (Zc "009") with 9. change (Zc "013") with 13.
    destruct (Z.leb_spec (Zc d) 13); [lia|]. now rewrite andb_false_r. }
  rewrite (eqb_false_of_Zc d "-") by (change (Zc "-") with 45; lia).
  rewrite (eqb_false_of_Zc d "+") by (change (Zc "+") with 43; lia).
  rewrite Hd. cbn [app] in Hscan. rewrite Hscan.
  now rewrite Z.mod_small by lia.
Qed.

(** ** The line of an entry *)

Lemma specfile_line_written (ordinal : Z) (e : entry) :
  specfile_line ordinal e
  = if written e then line_body ordinal e ++ [NL] else [].
Proof.
  unfold specfile_line, written, line_body. destruct (e_name e).
  - now rewrite <- app_assoc.
  - destruct (e_segment e =? 0); reflexivity.
Qed.

Lemma specfile_exports_written (i : Z) (e : entry) (enttab : list entry) :
  specfile_exports i (e :: enttab)
  = (if written e then [mkexport (i + 1) (e_name e)] else [])
      ++ specfile_exports (i + 1) enttab.
Proof.
  cbn [specfile_exports]. unfold written. destruct (e_name e); [reflexivity|].
  destruct (e_segment e =? 0); reflexivity.
Qed.

Section LoadExports.

(** Whether demangling is on when the specfile is read. *)
Variable opts : bool.

Lemma line_body_facts (k : Z) (e : entry) :
  0 <= k < 65536 -> storable_entry opts e ->
  ~ In NL (line_body k e) /\ ~ In NUL (line_body k e)
  /\ (List.length (line_body k e) < 299)%nat
  /\ skips_line (line_body k e ++ [NL]) = false
  /\ sscanf_hu (line_body k e) = Some k
  /\ match e_name e with
     | Some name =>
         strchr (line_body k e) TAB = Some (Z.of_nat (List.length (fmt_d k)))
         /\ skipn (Z.to_nat (Z.of_nat (List.length (fmt_d k)) + 1)) (line_body k e) = name
     | None => strchr (line_body k e) TAB = None
     end.
Proof.
  intros Hk Hst.
  destruct (fmt_d_ordinal k ltac:(lia)) as [Hall [Hlen [Hscan H5]]].
  specialize (H5 ltac:(lia)).
  assert (forall c, is_digit c = false -> ~ In c (fmt_d k)) as Hex
    by (intros c Hc; now apply digits_exclude).
  assert (skips_line (fmt_d k ++ [NL]) = false /\
          forall s, skips_line ((fmt_d k ++ s) ++ [NL]) = false) as [Hskip0 Hskip].
  { destruct (fmt_d k) as [|d ds] eqn:E; [simpl in Hlen; lia|].
    pose proof (Forall_inv Hall) as Hd. cbn beta in Hd.
    pose proof (is_digit_range d Hd) as Hr.
    assert (Ascii.eqb d "#" || Ascii.eqb d NL = false) as Hs.
    { rewrite (eqb_false_of_Zc d "#") by (change (Zc "#") with 35; lia).
      now rewrite (eqb_false_of_Zc d NL) by (change (Zc NL) with 10; lia). }
    split; [exact Hs|intros s; exact Hs]. }
  unfold line_body, storable_entry in *. destruct (e_name e) as [name|].
  - destruct Hst as [Hnl [Hnul [Hlenn _]]].
    repeat split.
    + intros Hin. apply in_app_or in Hin. destruct Hin as [Hin|[Hin|Hin]].
      * now apply (Hex NL).
      * discriminate.
      * now apply Hnl.
    + intros Hin. apply in_app_or in Hin. destruct Hin as [Hin|[Hin|Hin]].
      * now apply (Hex NUL).
      * discriminate.
      * now apply Hnul.
    + rewrite length_app. cbn [List.length]. lia.
    + apply Hskip.
    + now apply sscanf_hu_ordinal.
    + apply strchr_first. now apply Hex.
    + replace (Z.to_nat (Z.of_nat (List.length (fmt_d k)) + 1))
        with (List.length (fmt_d k ++ [TAB])) by (rewrite length_app; simpl; lia).
      replace (fmt_d k ++ TAB :: name) with ((fmt_d k ++ [TAB]) ++ name)
        by (now rewrite <- app_assoc).
      now rewrite skipn_app, skipn_all, Nat.sub_diag.
  - repeat split.
    + now apply Hex.
    + now apply Hex.
    + lia.
    + exact Hskip0.
    + rewrite <- (app_nil_r (fmt_d k)). now apply sscanf_hu_ordinal.
    + apply strchr_none. now apply Hex.
Qed.

(** ** The two loops of load_exports on the text of a specfile *)

Lemma count_exports_text :
  forall (enttab : list entry) (i : Z) (fuel : nat) (count : Z),
    0 <= i -> i + Z.of_nat (List.length enttab) < 65536 ->
    Forall (storable_entry opts) enttab ->
    (List.length (specfile_text i enttab) < fuel)%nat ->
    count_exports fuel (specfile_text i enttab) count
    = Ok (count + Z.of_nat (List.length (specfile_exports i enttab))).
Proof.
  induction enttab as [|e enttab IH]; intros i fuel count Hi Hmax Hst Hfuel.
  - destruct fuel as [|fuel]; [simpl in Hfuel; lia|]. simpl. f_equal. lia.
  - inversion Hst as [|? ? He Hrest]; subst.
    cbn [List.length] in Hmax.
    rewrite specfile_exports_written. cbn [specfile_text] in *.
    rewrite specfile_line_written in *. destruct (written e).
    + destruct (line_body_facts (i + 1) e ltac:(lia) He)
        as [Hnl [Hnul [Hlen [Hskip _]]]].
      destruct fuel as [|fuel]; [simpl in Hfuel; lia|].
      cbn [count_exports]. rewrite <- app_assoc. cbn [app].
      rewrite (fgets_line _ _ Hnl Hlen), Hskip.
      rewrite <- app_assoc, !length_app in Hfuel. cbn [List.length app] in Hfuel.
      rewrite IH; try assumption; try lia.
      cbn [app List.length]. f_equal. lia.
    + cbn [app] in *. rewrite IH; try assumption; try lia. reflexivity.
Qed.

Lemma demangle_name_storable (name : list ascii) (log : list diagnostic) :
  storable opts name -> demangle_name opts name log = Ok (name, log).
Proof.
  intros [_ [_ [_ H]]]. unfold demangle_name.
  destruct opts; [|reflexivity]. specialize (H eq_refl).
  destruct name as [|c name]; [reflexivity|]. cbn [hd] in H.
  destruct (Ascii.eqb_spec c "?"); [contradiction|reflexivity].
Qed.

Lemma read_exports_text (st : sys) :
  forall (enttab : list entry) (i : Z) (fuel : nat) (done tail : list export)
         (count : Z),
    0 <= i -> i + Z.of_nat (List.length enttab) < 65536 ->
    Forall (storable_entry opts) enttab ->
    (List.length (specfile_text i enttab) < fuel)%nat ->
    count = Z.of_nat (List.length done) ->
    read_exports fuel opts (specfile_text i enttab)
      (done ++ repeat no_export (List.length (specfile_exports i enttab)) ++ tail)
      count st
    = Ok ((done ++ specfile_exports i enttab ++ tail,
           count + Z.of_nat (List.length (specfile_exports i enttab))), st).
Proof.
  induction enttab as [|e enttab IH]; intros i fuel done tail count Hi Hmax Hst Hfuel Hc.
  - destruct fuel as [|fuel]; [simpl in Hfuel; lia|]. simpl. unfold ret.
    arith_eq.
  - inversion Hst as [|? ? He Hrest]; subst.
    cbn [List.length] in Hmax.
    rewrite specfile_exports_written. cbn [specfile_text] in *.
    rewrite specfile_line_written in *.
    pose proof (line_body_facts (i + 1) e ltac:(lia) He)
      as [Hnl [Hnul [Hlen [Hskip [Hscan Hname]]]]].
    unfold written in *. unfold storable_entry in He.
    destruct (e_name e) as [name|] eqn:Ename.
    + (* a line with a name *)
      destruct fuel as [|fuel]; [simpl in Hfuel; lia|].
      destruct Hname as [Htab Hskipn].
      cbn [read_exports]. rewrite <- app_assoc. cbn [app List.length repeat].
      rewrite (fgets_line _ _ Hnl Hlen), Hskip.
      rewrite (c_str_line _ Hnul), (strchr_first NL _ [] Hnl).
      rewrite Nat2Z.id, firstn_app, firstn_all, Nat.sub_diag. cbn [firstn].
      rewrite app_nil_r, Hscan.
      unfold bind at 1, lift at 1. rewrite store_middle by reflexivity.
      unfold bind at 1. rewrite Htab. unfold bind at 1, on_stderr at 1.
      rewrite Hskipn, (demangle_name_storable name _ He).
      unfold ret at 1.
      replace (sys_set_stderr st (sys_stderr st)) with st by (now destruct st).
      unfold bind at 1, lift at 1. rewrite store_middle by reflexivity.
      rewrite <- app_assoc, !length_app in Hfuel. cbn [List.length app] in Hfuel.
      replace (done ++ set_export_name (Some name) (set_ordinal (i + 1) no_export)
                 :: repeat no_export (List.length (specfile_exports (i + 1) enttab)) ++ tail)
        with ((done ++ [mkexport (i + 1) (Some name)])
                ++ repeat no_export (List.length (specfile_exports (i + 1) enttab)) ++ tail)
        by (rewrite <- app_assoc; reflexivity).
      rewrite IH; try assumption; try lia.
      * rewrite <- app_assoc. cbn [app List.length]. arith_eq.
      * rewrite length_app. cbn [List.length]. lia.
    + destruct (e_segment e =? 0); cbn [negb] in *.
      * cbn [app List.length repeat] in *. rewrite IH; try assumption; try lia.
        reflexivity.
      * (* a line without a name *)
        destruct fuel as [|fuel]; [simpl in Hfuel; lia|].
        cbn [read_exports]. rewrite <- app_assoc. cbn [app List.length repeat].
        rewrite (fgets_line _ _ Hnl Hlen), Hskip.
        rewrite (c_str_line _ Hnul), (strchr_first NL _ [] Hnl).
        rewrite Nat2Z.id, firstn_app, firstn_all, Nat.sub_diag. cbn [firstn].
        rewrite app_nil_r, Hscan.
        unfold bind at 1, lift at 1. rewrite store_middle by reflexivity.
        unfold bind at 1. rewrite Hname. unfold ret at 1.
        unfold bind at 1, lift at 1. rewrite store_middle by reflexivity.
        rewrite <- app_assoc, !length_app in Hfuel. cbn [List.length app] in Hfuel.
        replace (done ++ set_export_name None (set_ordinal (i + 1) no_export)
                   :: repeat no_export (List.length (specfile_exports (i + 1) enttab)) ++ tail)
          with ((done ++ [mkexport (i + 1) None])
                  ++ repeat no_export (List.length (specfile_exports (i + 1) enttab)) ++ tail)
          by (rewrite <- app_assoc; reflexivity).
        rewrite IH; try assumption; try lia.
        -- rewrite <- app_assoc. cbn [app List.length]. arith_eq.
        -- rewrite length_app. cbn [List.length]. lia.
Qed.

Lemma path_eqb_refl (p : list ascii) : path_eqb p p = true.
Proof. unfold path_eqb. destruct (list_eq_dec ascii_dec p p); [reflexivity|contradiction]. Qed.

Lemma header_line :
  ~ In NL (str "# Generated by dumpne -o")
  /\ (List.length (str "# Generated by dumpne -o") < 299)%nat.
Proof.
  split; [|simpl; lia].
  cbn [str list_ascii_of_string In]. intros H.
  repeat (destruct H as [H|H]; [discriminate|]). exact H.
Qed.

Lemma count_exports_header (fuel : nat) (text : list ascii) (count : Z) :
  count_exports (S fuel) (specfile_header ++ text) count = count_exports fuel text count.
Proof.
  destruct header_line as [Hnl Hlen].
  cbn [count_exports]. unfold specfile_header. rewrite <- app_assoc. cbn [app].
  rewrite (fgets_line _ _ Hnl Hlen). reflexivity.
Qed.

Lemma read_exports_header (fuel : nat) (text : list ascii)
    (exports : list export) (count : Z) :
  read_exports (S fuel) opts (specfile_header ++ text) exports count
  = read_exports fuel opts text exports count.
Proof.
  destruct header_line as [Hnl Hlen].
  cbn [read_exports]. unfold specfile_header. rewrite <- app_assoc. cbn [app].
  rewrite (fgets_line _ _ Hnl Hlen). reflexivity.
Qed.

Lemma load_exports_specfile (module : import_module) (st : sys)
    (enttab : list entry) :
  lookup_file (files st) (firstn 8 (im_name module) ++ str ".ORD")
  = Some (specfile_header ++ specfile_text 0 enttab) ->
  Z.of_nat (List.length enttab) < 65536 ->
  Forall (storable_entry opts) enttab ->
  load_exports opts module st
  = Ok (mkimport (im_name module) (specfile_exports 0 enttab)
          (Z.of_nat (List.length (specfile_exports 0 enttab))), st).
Proof.
  intros Hfile Hmax Hst. unfold load_exports.
  unfold bind at 1, fopen_r at 1. rewrite Hfile.
  unfold bind at 1, ret at 1.
  assert (List.length (specfile_text 0 enttab)
          < List.length (specfile_header ++ specfile_text 0 enttab))%nat as Hfuel
    by (rewrite length_app; unfold specfile_header; rewrite length_app;
        cbn [List.length]; lia).
  unfold bind at 1, lift at 1.
  rewrite count_exports_header.
  rewrite (count_exports_text enttab 0 _ 0 ltac:(lia) ltac:(lia) Hst Hfuel).
  rewrite Z.add_0_l. unfold malloc_exports. rewrite Nat2Z.id.
  unfold bind at 1. rewrite read_exports_header.
  pose proof (read_exports_text st enttab 0 _ [] [] 0 ltac:(lia) ltac:(lia) Hst Hfuel
                eq_refl) as Hread.
  rewrite !app_nil_r in Hread. cbn [app] in Hread.
  fold no_export. rewrite Hread.
  unfold ret. now rewrite Z.add_0_l.
Qed.

End LoadExports.

(** C4, as amended.  When the table has less than 65536 entries and every
    name in it is without a newline, at most 292 characters long and, if
    demangling is on, not starting with '?', then [load_exports] on the
    specfile that [print_specfile] has written for a module of the same
    name (up to 8 characters) gives one export for each entry that has a
    name or a segment, in the order of the ordinals, with the ordinal and
    the name of the entry.  The names are C strings: there is no NUL in
    them. *)
Theorem specfile_round_trip :
  forall (opts_DEMANGLE : bool) (m : ne) (module : import_module) (st : sys),
    ne_entcount m = Z.of_nat (List.length (ne_enttab m)) ->
    Z.of_nat (List.length (ne_enttab m)) < 65536 ->
    Forall (storable_entry opts_DEMANGLE) (ne_enttab m) ->
    existsb (path_eqb (firstn 8 (ne_name m) ++ str ".ORD")) (unwritable st) = false ->
    firstn 8 (im_name module) = firstn 8 (ne_name m) ->
    exists st1,
      print_specfile m st = Ok (tt, st1)
      /\ load_exports opts_DEMANGLE module st1
         = Ok (mkimport (im_name module) (specfile_exports 0 (ne_enttab m))
                 (Z.of_nat (List.length (specfile_exports 0 (ne_enttab m)))), st1).
Proof.
  intros opts m module st Hcount Hmax Hst Hw Hname.
  eexists. split; [now apply print_specfile_eq|].
  apply load_exports_specfile; try assumption.
  cbn [files lookup_file]. now rewrite Hname, path_eqb_refl.
Qed.

(** The theorem on that table, read back with demangling on. *)
Lemma specfile_round_trip_witness :
  exists st1,
    print_specfile
      (mkne (str "KERNEL") []
         [mkentry 0 1 16 (Some (str "FOO")); mkentry 0 0 0 None; mkentry 0 2 5 None] 3)
      (mksys [] [] []) = Ok (tt, st1)
    /\ load_exports true (mkimport (str "KERNEL") [] 0) st1
       = Ok (mkimport (str "KERNEL")
               [mkexport 1 (Some (str "FOO")); mkexport 3 None] 2, st1).
Proof.
  assert (Forall (storable_entry true)
            [mkentry 0 1 16 (Some (str "FOO")); mkentry 0 0 0 None; mkentry 0 2 5 None])
    as Hst.
  { repeat apply Forall_cons; try apply Forall_nil; try exact I.
    cbv [storable_entry storable e_name]. repeat split.
    - cbn [str list_ascii_of_string In]. intros H.
      repeat (destruct H as [H|H]; [discriminate|]). exact H.
    - cbn [str list_ascii_of_string In]. intros H.
      repeat (destruct H as [H|H]; [discriminate|]). exact H.
    - simpl. lia.
    - intros _. discriminate. }
  exact (specfile_round_trip true
           (mkne (str "KERNEL") []
              [mkentry 0 1 16 (Some (str "FOO")); mkentry 0 0 0 None; mkentry 0 2 5 None] 3)
           (mkimport (str "KERNEL") [] 0) (mksys [] [] [])
           eq_refl eq_refl Hst eq_refl eq_refl).
Defined.

Lemma specfile_text_unused (n : nat) :
  forall (i : Z) (enttab : list entry),
    specfile_text i (repeat zero_entry n ++ enttab)
    = specfile_text (i + Z.of_nat n) enttab.
Proof.
  induction n as [|n IH]; intros i enttab.
  - cbn [repeat app]. now rewrite Z.add_0_r.
  - cbn [repeat app specfile_text]. rewrite IH.
    change (specfile_line (i + 1) zero_entry) with (@nil ascii). cbn [app].
    f_equal. lia.
Qed.

Lemma segment_exports_unused (n : nat) :
  forall (i : Z) (enttab : list entry),
    segment_exports i (repeat zero_entry n ++ enttab)
    = segment_exports (i + Z.of_nat n) enttab.
Proof.
  induction n as [|n IH]; intros i enttab.
  - cbn [repeat app]. now rewrite Z.add_0_r.
  - cbn [repeat app segment_exports]. rewrite IH.
    change (e_segment zero_entry =? 0) with true. cbn [app].
    f_equal. lia.
Qed.

(** The round trip fails on a name without a segment, on a name with a
    newline, on a mangled name read back with demangling, on a name of 300
    characters and on the ordinal 65536. *)
Lemma specfile_round_trip_counterexample :
  (round_trip_exports false (str "MOD") [mkentry 0 0 0 (Some (str "FOO"))]
   = Ok [mkexport 1 (Some (str "FOO"))]
   /\ segment_exports 0 [mkentry 0 0 0 (Some (str "FOO"))] = [])
  /\ round_trip_exports false (str "MOD")
       [mkentry 0 1 16 (Some (str "A" ++ [NL] ++ str "B"))]
     = Ok [mkexport 1 (Some (str "A"))]
  /\ round_trip_exports true (str "MOD") [mkentry 0 1 16 (Some (str "?Foo@@YAXXZ"))]
     = Ok [mkexport 1 (Some (str "near void Foo(void)"))]
  /\ round_trip_exports false (str "MOD") [mkentry 0 1 16 (Some (repeat "a"%char 300))]
     = Ok [mkexport 1 (Some (repeat "a"%char 297))]
  /\ (round_trip_exports false (str "MOD")
        (repeat zero_entry (Z.to_nat 65535) ++ [mkentry 0 1 16 None])
      = Ok [mkexport 0 None]
      /\ segment_exports 0 (repeat zero_entry (Z.to_nat 65535) ++ [mkentry 0 1 16 None])
         = [mkexport 65536 None]).
Proof.
  split; [split; vm_compute; reflexivity|].
  split; [vm_compute; reflexivity|].
  split; [vm_compute; reflexivity|].
  split; [vm_compute; reflexivity|].
  split.
  - unfold round_trip_exports, bind. rewrite print_specfile_eq.
    + cbn [ne_enttab ne_name]. rewrite specfile_text_unused.
      change (0 + Z.of_nat (Z.to_nat 65535)) with 65535.
      vm_compute. reflexivity.
    + reflexivity.
    + reflexivity.
  - rewrite segment_exports_unused. reflexivity.
Qed.

(** A name table may name an ordinal that the entry table skips. *)
Example named_placeholder_is_read :
  let file := map byte_of [1; 0; 0;
                           3; 77; 79; 68; 0; 0;
                           3; 70; 79; 79; 1; 0;
                           0] in
  (m <- get_entry_table 0 (mkne [] [] [] 0) ;;
   '(name, enttab) <- read_res_name_table false 3 (ne_enttab m) ;;
   ret (mkne name (ne_description m) enttab (ne_entcount m)))
    (mkio file 0 [])
  = Ok (mkne (str "MOD") [] [mkentry 0 0 0 (Some (str "FOO"))] 1, mkio file 16 []).
Proof. reflexivity. Qed.

(** ** The bounds on the loops of the demangler are never reached *)

Lemma in_fuel_Err {A : Type} (e : error) : e <> OutOfFuel -> in_fuel (@Err A e).
Proof. destruct e; simpl; auto. Qed.

Lemma in_fuel_neq {A : Type} (e : error) : in_fuel (@Err A e) -> e <> OutOfFuel.
Proof. destruct e; simpl; auto; discriminate. Qed.

Lemma in_fuel_bind {S A B : Type} (m : M S A) (k : A -> M S B) (s : S) :
  in_fuel (m s) ->
  (forall a s', m s = Ok (a, s') -> in_fuel (k a s')) ->
  in_fuel (bind m k s).
Proof.
  unfold bind. intros Hm Hk. destruct (m s) as [[a s']|e]; [now apply Hk|exact Hm].
Qed.

Lemma in_fuel_rbind {A B : Type} (r : result A) (k : A -> result B) :
  in_fuel r -> (forall a, r = Ok a -> in_fuel (k a)) -> in_fuel (rbind r k).
Proof.
  unfold rbind. intros Hr Hk. destruct r as [a|e]; [now apply Hk|exact Hr].
Qed.

Lemma in_fuel_lift {S A : Type} (r : result A) (s : S) :
  in_fuel r -> in_fuel (lift r s).
Proof. unfold lift. destruct r; [intros _; exact I|auto]. Qed.

Lemma in_fuel_char_at (s : list ascii) (i : Z) : in_fuel (char_at s i).
Proof.
  unfold char_at. destruct (i <? 0); [exact I|].
  destruct (nth_error s (Z.to_nat i)); [exact I|].
  destruct (i =? Z.of_nat (List.length s)); exact I.
Qed.

Lemma in_fuel_ptr_add (s : list ascii) (i : Z) : in_fuel (ptr_add s i).
Proof. unfold ptr_add. destruct (_ && _); exact I. Qed.

Lemma in_fuel_store {A : Type} (a : list A) (i : Z) (f : A -> A) : in_fuel (store a i f).
Proof. unfold store. destruct (_ && _); exact I. Qed.

Lemma in_fuel_load {A : Type} (a : list A) (i : Z) : in_fuel (load a i).
Proof.
  unfold load. destruct (i <? 0); [exact I|].
  destruct (nth_error a (Z.to_nat i)); exact I.
Qed.

Lemma in_fuel_cut (b : list ascii) (i : Z) : in_fuel (cut b i).
Proof. unfold cut. destruct (_ && _); exact I. Qed.

Lemma in_fuel_poke (b : list ascii) (i : Z) (c : ascii) : in_fuel (poke b i c).
Proof. apply in_fuel_store. Qed.

Create HintDb fuel discriminated.

#[local] Hint Resolve in_fuel_lift in_fuel_char_at in_fuel_ptr_add in_fuel_store
  in_fuel_poke in_fuel_load in_fuel_cut : fuel.

Lemma char_at_Ok (s : list ascii) (i : Z) (c : ascii) :
  char_at s i = Ok c -> 0 <= i <= Z.of_nat (List.length s).
Proof.
  unfold char_at. destruct (Z.ltb_spec i 0); [discriminate|].
  destruct (nth_error s (Z.to_nat i)) eqn:E.
  - intros _. assert (nth_error s (Z.to_nat i) <> None) as Hn by congruence.
    apply nth_error_Some in Hn. lia.
  - destruct (Z.eqb_spec i (Z.of_nat (List.length s))); [lia|discriminate].
Qed.

Lemma strchr_nonneg (c : ascii) :
  forall (s : list ascii) (i : Z), strchr s c = Some i -> 0 <= i.
Proof.
  induction s as [|x s IH]; intros i H; [discriminate|].
  cbn [strchr] in H. destruct (Ascii.eqb x c); [injection H as <-; lia|].
  destruct (strchr s c) as [j|]; [|discriminate].
  injection H as <-. specialize (IH j eq_refl). lia.
Qed.

Lemma demangle_type_bounded_step (c : ascii) (type1 : list ascii) :
  (forall c1 type2, type1 = c1 :: type2 -> type_bounded type2) ->
  type_bounded (c :: type1).
Proof.
  intros IH buffer. cbn [demangle_type].
  destruct (in_range "C" "K" c); [lia|].
  destruct (Ascii.eqb c "A" || Ascii.eqb c "P").
  { destruct type1 as [|c1 type2]; [discriminate|].
    pose proof (IH c1 type2 eq_refl
                  (if negb (Z.land (Zc c1 - Zc "A") 2 =? 0)
                   then (if negb (Z.land (Zc c1 - Zc "A") 1 =? 0)
                         then buffer ++ str "const " else buffer) ++ str "volatile "
                   else (if negb (Z.land (Zc c1 - Zc "A") 1 =? 0)
                         then buffer ++ str "const " else buffer))) as H.
    destruct (demangle_type _ type2) as [[n b]|e]; cbn [rbind]; [lia|exact H]. }
  destruct (Ascii.eqb c "M"); [lia|].
  destruct (Ascii.eqb c "N"); [lia|].
  destruct (Ascii.eqb c "U" || Ascii.eqb c "V").
  { destruct (strstr (c :: type1) (str "@@")) as [e|] eqn:E.
    - apply strstr_bounds in E. lia.
    - destruct (strchr (c :: type1) "@") as [e|] eqn:E'; [|discriminate].
      now apply strchr_nonneg in E'. }
  destruct (Ascii.eqb c "X"); lia.
Qed.

Lemma demangle_type_bounded (type : list ascii) : type_bounded type.
Proof.
  enough (type_bounded type /\ forall c, type_bounded (c :: type)) as [H _] by exact H.
  induction type as [|x type [IH1 IH2]].
  - split.
    + intros buffer. simpl. lia.
    + intros c. apply demangle_type_bounded_step. discriminate.
  - split; [apply IH2|].
    intros c. apply demangle_type_bounded_step.
    intros c1 type2 [= -> ->]. exact IH1.
Qed.

Lemma demangle_protection_call_bounded :
  forall (start buffer : list ascii) (prot : ascii) (func : list ascii)
         (log : list diagnostic),
    match demangle_protection_call buffer start prot func log with
    | Ok ((Ok len, _, _), _) => 0 <= len
    | Ok ((Err e, _, _), _) => e <> OutOfFuel
    | Err e => e <> OutOfFuel
    end.
Proof.
  induction start as [|c start1 IH]; intros buffer prot func log.
  - simpl. lia.
  - remember start1 as tail eqn:Et. cbn [demangle_protection_call]. subst tail.
    destruct (in_range "A" "V" c); [cbn; lia|].
    destruct (Ascii.eqb c "Y"); [cbn; lia|].
    destruct (Ascii.eqb c "Z"); [cbn; lia|].
    destruct (Ascii.eqb c "X").
    { unfold bind at 1, lift at 1.
      pose proof (in_fuel_char_at (c :: start1) 1) as Hc.
      destruct (char_at (c :: start1) 1) as [c1|e]; [|exact (in_fuel_neq _ Hc)].
      destruct (is_digit c1).
      - unfold bind at 1, lift at 1, poke.
        pose proof (in_fuel_store (buffer ++ str "(X0) ")
                      (strlen (buffer ++ str "(X0) ") - 3) (fun _ => c1)) as Hs.
        destruct (store _ _ _); [cbn; lia|exact (in_fuel_neq _ Hs)].
      - destruct (strchr (c :: start1) "@") as [k|] eqn:E; [|cbn; discriminate].
        apply strchr_nonneg in E. cbn. lia. }
    destruct (Ascii.eqb c "_" && _).
    { unfold bind at 1. specialize (IH buffer prot func log).
      destruct (demangle_protection_call buffer start1 prot func log)
        as [[[[len b] pr] log']|e]; [clear IH|exact IH].
      unfold bind at 1, lift at 1.
      pose proof (in_fuel_char_at (c :: start1) 3) as Hc.
      destruct (char_at (c :: start1) 3) as [c3|e]; [|exact (in_fuel_neq _ Hc)].
      destruct (is_digit c3).
      - unfold bind at 1, lift at 1.
        pose proof (in_fuel_char_at (c :: start1) 2) as Hc2.
        destruct (char_at (c :: start1) 2) as [c2|e]; [|exact (in_fuel_neq _ Hc2)].
        unfold bind at 1, lift at 1, poke.
        pose proof (in_fuel_store (b ++ str "(_00) ")
                      (strlen (b ++ str "(_00) ") - 4) (fun _ => c2)) as Hs.
        destruct (store _ _ _) as [b1|e]; [|exact (in_fuel_neq _ Hs)].
        unfold bind at 1, lift at 1.
        pose proof (in_fuel_store b1 (strlen b1 - 3) (fun _ => c3)) as Hs1.
        destruct (store _ _ _) as [b2|e]; [cbn; lia|exact (in_fuel_neq _ Hs1)].
      - destruct (strchr (c :: start1) "@") as [k|] eqn:E; [|cbn; discriminate].
        apply strchr_nonneg in E. cbn. lia. }
    cbn. lia.
Qed.

Lemma demangle_protection_bounded :
  forall (start buffer : list ascii) (prot : ascii) (func : list ascii)
         (log : list diagnostic),
    match demangle_protection buffer start prot func log with
    | Ok ((len, _, _), _) => 0 <= len
    | Err e => e <> OutOfFuel
    end.
Proof.
  intros start buffer prot func log. unfold demangle_protection, bind, lift, ret.
  pose proof (demangle_protection_call_bounded start buffer prot func log) as H.
  destruct (demangle_protection_call buffer start prot func log)
    as [[[[[len|e] b] pr] log']|e]; exact H.
Qed.

Lemma scan_back_in_fuel (func : list ascii) :
  forall (fuel : nat) (start : Z),
    -1 <= start -> start + 2 <= Z.of_nat fuel ->
    match scan_back fuel func start with
    | Ok s => 0 <= s <= start
    | Err e => e <> OutOfFuel
    end.
Proof.
  induction fuel as [|fuel IH]; intros start Hlo Hhi; [lia|].
  cbn [scan_back].
  pose proof (in_fuel_char_at func start) as Hc.
  destruct (char_at func start) as [c|e] eqn:E; [|exact (in_fuel_neq _ Hc)].
  apply char_at_Ok in E. cbn [rbind].
  destruct (negb (Ascii.eqb c "?") && negb (Ascii.eqb c "@")); [|lia].
  specialize (IH (start - 1) ltac:(lia) ltac:(lia)).
  destruct (scan_back fuel func (start - 1)); [lia|exact IH].
Qed.

Lemma demangle_classname_in_fuel (func : list ascii) :
  forall (fuel : nat) (end_ : Z) (buffer : list ascii),
    0 <= end_ <= Z.of_nat (List.length func) -> end_ + 1 <= Z.of_nat fuel ->
    in_fuel (demangle_classname fuel func end_ buffer).
Proof.
  induction fuel as [|fuel IH]; intros end_ buffer Hend Hfuel; [lia|].
  cbn [demangle_classname].
  pose proof (scan_back_in_fuel func (S (List.length func)) (end_ - 1)
                ltac:(lia) ltac:(lia)) as Hs.
  destruct (scan_back _ func (end_ - 1)) as [start|e]; [|exact (in_fuel_Err _ Hs)].
  cbn [rbind]. apply in_fuel_rbind; [auto with fuel|]. intros src _.
  apply in_fuel_rbind; [auto with fuel|]. intros c _.
  destruct (Ascii.eqb c "?"); [exact I|]. apply IH; lia.
Qed.

Lemma demangle_args_in_fuel (func : list ascii) :
  forall (fuel : nat) (p : Z) (buffer : list ascii) (log : list diagnostic),
    Z.of_nat (List.length func) + 2 - p <= Z.of_nat fuel -> (0 < fuel)%nat ->
    in_fuel (demangle_args fuel func p buffer log).
Proof.
  induction fuel as [|fuel IH]; intros p buffer log Hfuel Hpos; [lia|].
  cbn [demangle_args].
  apply in_fuel_bind; [auto with fuel|]. intros c log1 Hc.
  unfold lift in Hc. destruct (char_at func p) as [c'|] eqn:E; [|discriminate].
  apply char_at_Ok in E.
  destruct (Ascii.eqb c "@"); [exact I|].
  apply in_fuel_bind; [auto with fuel|]. intros type log2 _.
  apply in_fuel_bind.
  { apply in_fuel_lift. pose proof (demangle_type_bounded type buffer) as Hb.
    destruct (demangle_type buffer type) as [[n b]|e]; [exact I|exact (in_fuel_Err _ Hb)]. }
  intros [len b] log3 Ht. unfold lift in Ht.
  pose proof (demangle_type_bounded type buffer) as Hb.
  destruct (demangle_type buffer type) as [[n b']|e]; [|discriminate].
  injection Ht as -> -> ->.
  apply in_fuel_bind.
  { destruct (len =? 0); [|exact I].
    apply in_fuel_bind; [exact I|]. intros; exact I. }
  intros len' log4 Hlen.
  assert (1 <= len') as Hlen'.
  { destruct (Z.eqb_spec len 0).
    - unfold bind, warn, ret in Hlen. now injection Hlen as <- _.
    - unfold ret in Hlen. injection Hlen as <- _. lia. }
  apply in_fuel_bind; [auto with fuel|]. intros last log5 _.
  apply in_fuel_bind.
  { destruct (Ascii.eqb last " "); [auto with fuel|exact I]. }
  intros b2 log6 _. apply IH; lia.
Qed.

(** The bounds on the number of turns of the loops of [demangle] are never
    reached: it returns a string or stops on a fault of the C code. *)
Lemma demangle_in_fuel (func : list ascii) (log : list diagnostic) :
  in_fuel (demangle func log).
Proof.
  unfold demangle. cbv zeta.
  destruct (strstr func (str "@@")) as [sep|] eqn:Esep; [|exact I].
  apply strstr_bounds in Esep. cbn [str list_ascii_of_string List.length] in Esep.
  apply in_fuel_bind; [auto with fuel|]. intros start log1 _.
  apply in_fuel_bind.
  { pose proof (demangle_protection_bounded start [] NUL func log1) as Hb.
    destruct (demangle_protection [] start NUL func log1) as [[[[n b] pr] l]|e];
      [exact I|exact (in_fuel_Err _ Hb)]. }
  intros [[len buffer] prot] log2 Hprot.
  pose proof (demangle_protection_bounded start [] NUL func log1) as Hlen.
  rewrite Hprot in Hlen.
  destruct (len =? 0); [exact I|].
  apply in_fuel_bind.
  { destruct (in_range "A" "V" prot && (Z.land (Zc prot - Zc "A") 2 =? 0)); [|exact I].
    apply in_fuel_bind; [auto with fuel|]. intros c l _.
    apply in_fuel_bind; [destruct (_ && _); exact I|]. intros; exact I. }
  intros p log3 Hp.
  assert (sep + 2 <= p) as Hp'.
  { destruct (in_range "A" "V" prot && (Z.land (Zc prot - Zc "A") 2 =? 0)).
    - unfold bind at 1 in Hp. destruct (lift _ _) as [[c l]|]; [|discriminate].
      destruct (negb (Ascii.eqb c "E") && negb (Ascii.eqb c "F"));
        unfold bind, warn, ret in Hp; injection Hp as <- _; lia.
    - unfold ret in Hp. injection Hp as <- _. lia. }
  apply in_fuel_bind; [auto with fuel|]. intros c log4 _.
  apply in_fuel_bind.
  { destruct (Ascii.eqb c "A"); [exact I|]. destruct (Ascii.eqb c "C"); [exact I|].
    apply in_fuel_bind; [exact I|]. intros; exact I. }
  intros buffer1 log5 _.
  apply in_fuel_bind; [auto with fuel|]. intros type log6 _.
  apply in_fuel_bind.
  { apply in_fuel_lift. pose proof (demangle_type_bounded type buffer1) as Hb.
    destruct (demangle_type buffer1 type) as [[n b]|e]; [exact I|exact (in_fuel_Err _ Hb)]. }
  intros [len2 buffer2] log7 Ht. unfold lift in Ht.
  pose proof (demangle_type_bounded type buffer1) as Hb.
  destruct (demangle_type buffer1 type) as [[n b']|e]; [|discriminate].
  injection Ht as -> -> ->.
  apply in_fuel_bind.
  { destruct (len2 =? 0); [|exact I].
    apply in_fuel_bind; [auto with fuel|]. intros c2 l _.
    apply in_fuel_bind; [exact I|]. intros; exact I. }
  intros len3 log8 Hlen3.
  assert (1 <= len3) as Hlen3'.
  { destruct (Z.eqb_spec len2 0).
    - unfold bind at 1 in Hlen3. destruct (lift _ _) as [[c2 l]|]; [|discriminate].
      unfold bind, warn, ret in Hlen3. now injection Hlen3 as <- _.
    - unfold ret in Hlen3. injection Hlen3 as <- _. lia. }
  apply in_fuel_bind.
  { apply in_fuel_lift, demangle_classname_in_fuel; lia. }
  intros buffer3 log9 _.
  apply in_fuel_bind; [auto with fuel|]. intros c3 log10 _.
  destruct (Ascii.eqb c3 "X"); [exact I|].
  apply in_fuel_bind; [apply demangle_args_in_fuel; lia|]. intros buffer4 log11 _.
  apply in_fuel_bind; [auto with fuel|]. intros buffer5 log12 _.
  apply in_fuel_bind; [auto with fuel|]. intros; exact I.
Qed.

(** ** The bounds on the loops of the readers are never reached *)

Lemma demangle_name_in_fuel (opts : bool) (name : list ascii) (log : list diagnostic) :
  in_fuel (demangle_name opts name log).
Proof.
  unfold demangle_name. destruct (opts && _); [apply demangle_in_fuel|exact I].
Qed.

Lemma in_fuel_on_stderr {S A : Type} (get : S -> list diagnostic)
    (put : S -> list diagnostic -> S) (m : M (list diagnostic) A) (st : S) :
  in_fuel (m (get st)) -> in_fuel (on_stderr get put m st).
Proof.
  unfold on_stderr. destruct (m (get st)) as [[a log]|e]; [intros _; exact I|auto].
Qed.

Lemma fgets_bytes_shorter :
  forall (n : nat) (s line rest : list ascii),
    fgets_bytes n s = (line, rest) -> (List.length rest <= List.length s)%nat.
Proof.
  induction n as [|n IH]; intros s line rest H.
  - cbn [fgets_bytes] in H. injection H as _ <-. lia.
  - destruct s as [|c s]; cbn [fgets_bytes] in H.
    + injection H as _ <-. simpl. lia.
    + destruct (Ascii.eqb c NL).
      * injection H as _ <-. simpl. lia.
      * destruct (fgets_bytes n s) as [l r] eqn:E. injection H as _ <-.
        apply IH in E. simpl. lia.
Qed.

Lemma fgets_shorter (s line rest : list ascii) :
  fgets 300 s = Some (line, rest) -> (List.length rest < List.length s)%nat.
Proof.
  unfold fgets. destruct s as [|c s]; [discriminate|].
  change (300 - 1)%nat with (S 298). generalize 298%nat. intros n [= H].
  cbn [fgets_bytes] in H. destruct (Ascii.eqb c NL).
  - injection H as _ <-. simpl. lia.
  - destruct (fgets_bytes n s) as [l r] eqn:E. injection H as _ <-.
    apply fgets_bytes_shorter in E. simpl. lia.
Qed.

Lemma count_exports_total :
  forall (fuel : nat) (s : list ascii) (count : Z),
    (List.length s < fuel)%nat -> exists n, count_exports fuel s count = Ok n.
Proof.
  induction fuel as [|fuel IH]; intros s count Hfuel; [lia|].
  cbn [count_exports]. destruct (fgets 300 s) as [[line rest]|] eqn:E.
  - apply fgets_shorter in E. destruct (skips_line line); apply IH; lia.
  - eexists. reflexivity.
Qed.

Lemma read_exports_in_fuel (opts : bool) :
  forall (fuel : nat) (s : list ascii) (exports : list export) (count : Z) (st : sys),
    (List.length s < fuel)%nat ->
    in_fuel (read_exports fuel opts s exports count st).
Proof.
  induction fuel as [|fuel IH]; intros s exports count st Hfuel; [lia|].
  cbn [read_exports]. destruct (fgets 300 s) as [[line rest]|] eqn:E; [|exact I].
  apply fgets_shorter in E.
  destruct (skips_line line); [apply IH; lia|].
  destruct (sscanf_hu _) as [ordinal|].
  - apply in_fuel_bind; [auto with fuel|]. intros e1 st1 _.
    apply in_fuel_bind.
    { destruct (strchr _ TAB) as [p|]; [|exact I].
      apply in_fuel_bind; [apply in_fuel_on_stderr, demangle_name_in_fuel|].
      intros; exact I. }
    intros name st2 _.
    apply in_fuel_bind; [auto with fuel|]. intros e2 st3 _.
    apply IH; lia.
  - apply in_fuel_bind; [exact I|]. intros u st1 _. apply IH; lia.
Qed.

(** [load_exports] returns, or stops on a fault of [demangle]. *)
Lemma load_exports_in_fuel (opts : bool) (module : import_module) (st : sys) :
  in_fuel (load_exports opts module st).
Proof.
  unfold load_exports.
  apply in_fuel_bind; [exact I|]. intros s1 st1 _.
  apply in_fuel_bind; [destruct s1; exact I|]. intros s2 st2 _.
  destruct s2 as [specfile|].
  - apply in_fuel_bind.
    { apply in_fuel_lift.
      destruct (count_exports_total (S (List.length specfile)) specfile 0 ltac:(lia))
        as [n ->]. exact I. }
    intros count st3 _.
    apply in_fuel_bind; [apply read_exports_in_fuel; lia|]. intros [e c] st4 _. exact I.
  - apply in_fuel_bind; [exact I|]. intros; exact I.
Qed.

Lemma fread_cursor (c : list ascii) :
  forall (n : nat) (p : Z) (l : list diagnostic) (bytes : list ascii) (st : io),
    fread n (mkio c p l) = Ok (bytes, st) ->
    st = mkio c (p + Z.of_nat n) l.
Proof.
  induction n as [|n IH]; intros p l bytes st H.
  - cbn [fread] in H. unfold ret in H. injection H as _ <-. f_equal. lia.
  - cbn [fread] in H. cbn [fpos contents] in H.
    destruct (p <? 0); [discriminate|].
    destruct (nth_error c (Z.to_nat p)); [|discriminate].
    unfold bind, set_fpos in H. cbn [fpos contents stderr] in H.
    destruct (fread n (mkio c (p + 1) l)) as [[bs st']|] eqn:E; [|discriminate].
    apply IH in E. unfold ret in H. injection H as _ <-. rewrite E. f_equal. lia.
Qed.

Lemma in_fuel_fread (n : nat) : forall st, in_fuel (fread n st).
Proof.
  induction n as [|n IH]; intros st; [exact I|].
  cbn [fread]. destruct (fpos st <? 0); [exact I|].
  destruct (nth_error _ _); [|exact I].
  apply in_fuel_bind; [apply IH|]. intros; exact I.
Qed.

Lemma read_names_in_fuel (opts : bool) (c : list ascii) :
  forall (fuel : nat) (entry_table : list entry) (p : Z) (l : list diagnostic),
    (0 <= p -> Z.of_nat (List.length c) - p < Z.of_nat fuel) -> (0 < fuel)%nat ->
    in_fuel (read_names fuel opts entry_table (mkio c p l)).
Proof.
  induction fuel as [|fuel IH]; intros entry_table p l Hfuel Hpos; [lia|].
  cbn [read_names]. unfold bind at 1. rewrite read_byte_eq.
  destruct (byte_at c p) as [len|] eqn:Elen; [|exact I].
  apply byte_at_Some in Elen. destruct Elen as [Hp Hlen].
  destruct (len =? 0); [exact I|].
  apply in_fuel_bind; [apply in_fuel_fread|]. intros bytes st1 Hread.
  apply fread_cursor in Hread. subst st1.
  unfold bind at 1. rewrite read_word_eq.
  destruct (byte_at c (p + 1 + Z.of_nat (Z.to_nat len))) as [lo|] eqn:Elo; [|exact I].
  destruct (byte_at c (p + 1 + Z.of_nat (Z.to_nat len) + 1)) as [hi|] eqn:Ehi; [|exact I].
  apply byte_at_Some in Ehi. destruct Ehi as [Hhi _].
  apply in_fuel_bind; [apply in_fuel_on_stderr, demangle_name_in_fuel|].
  intros name st2 Hname.
  assert (exists l2, st2 = mkio c (p + 1 + Z.of_nat (Z.to_nat len) + 2) l2) as [l2 ->].
  { unfold on_stderr in Hname. cbn [stderr] in Hname.
    destruct (demangle_name opts (c_str bytes) l) as [[a log]|]; [|discriminate].
    injection Hname as _ <-. eexists. reflexivity. }
  apply in_fuel_bind; [auto with fuel|]. intros et st3 Hst.
  unfold lift in Hst. destruct (store _ _ _); [|discriminate]. injection Hst as _ <-.
  apply IH; lia.
Qed.

(** [read_res_name_table] returns, or stops at the end of the file, on a
    write outside of the entry table or on a fault of [demangle]. *)
Lemma read_res_name_table_in_fuel (opts : bool) (start : Z) (entry_table : list entry)
    (st : io) :
  in_fuel (read_res_name_table opts start entry_table st).
Proof.
  destruct st as [c p l]. unfold read_res_name_table.
  unfold bind at 1, fseek_set at 1, set_fpos. cbn [contents fpos stderr].
  unfold bind at 1. rewrite read_byte_eq.
  destruct (byte_at c start) as [len|] eqn:Elen; [|exact I].
  apply byte_at_Some in Elen. destruct Elen as [Hp Hlen].
  apply in_fuel_bind; [apply in_fuel_fread|]. intros bytes st1 Hread.
  apply fread_cursor in Hread. subst st1.
  unfold bind at 1, fseek_cur at 1, set_fpos. cbn [contents fpos stderr].
  unfold bind at 1, walk_fuel. cbn [contents].
  apply in_fuel_bind; [apply read_names_in_fuel; lia|]. intros; exact I.
Qed.

(** ** Runs of the embedding *)

Example demangle_arguments :
  demangle (str "?f@@YAXHPEDUfoo@@@Z") []
  = Ok (str "near void f(int, char *, foo)", []).
Proof. reflexivity. Qed.

(** The inner call of the arm of '_' computes its number from the null
    pointer, and the number is not used. *)
Example demangle_nested_escape :
  demangle (str "?f@C@@__A0EAXXZ") []
  = Ok (str "near private (_A0) void C::f(void)", []).
Proof. reflexivity. Qed.

Example demangle_escaped_modifier :
  demangle (str "?f@@_V07EAXXZ") []
  = Ok (str "virtual public (_07) void f(void)", []).
Proof. reflexivity. Qed.

Example demangle_unknown_calling_convention :
  demangle (str "?f@@YBXXZ") []
  = Ok (str "near void f(void)", [UnknownCallingConvention "B" (str "?f@@YBXXZ")]).
Proof. reflexivity. Qed.

(** With no parameter at all in front of the '@' that ends the list, the
    closing parenthesis is stored over the character in front of the
    opening one. *)
Example demangle_no_parameter :
  demangle (str "?f@@YAX@Z") [] = Ok (str "near void )", []).
Proof. reflexivity. Qed.

(** A name table with the module name MOD and the name ?f@@YAXXZ for the
    ordinal 2, read with demangling on. *)
Example read_res_name_table_demangles :
  read_res_name_table true 0 [zero_entry; zero_entry]
    (mkio (map byte_of [3; 77; 79; 68; 0; 0;
                        9; 63; 102; 64; 64; 89; 65; 88; 88; 90; 2; 0;
                        0]) 0 [])
  = Ok ((str "MOD", [zero_entry; mkentry 0 0 0 (Some (str "near void f(void)"))]),
        mkio (map byte_of [3; 77; 79; 68; 0; 0;
                           9; 63; 102; 64; 64; 89; 65; 88; 88; 90; 2; 0;
                           0]) 19 []).
Proof. reflexivity. Qed.

(** The same name for the ordinal 3 of a table of two entries is a write
    outside of the table. *)
Example read_res_name_table_ordinal_outside :
  read_res_name_table true 0 [zero_entry; zero_entry]
    (mkio (map byte_of [3; 77; 79; 68; 0; 0;
                        9; 63; 102; 64; 64; 89; 65; 88; 88; 90; 3; 0;
                        0]) 0 [])
  = Err OutOfBounds.
Proof. reflexivity. Qed.

(** A specfile with a comment, an empty line and a line without an ordinal,
    found under [spec/]. *)
Example load_exports_skips_lines :
  load_exports false (mkimport (str "M") [] 0)
    (mksys [(str "spec/M.ORD",
             str "# c" ++ [NL] ++ [NL] ++ str "12" ++ [TAB] ++ str "Foo" ++ [NL]
               ++ str "bad" ++ [NL] ++ str "7" ++ [NL])] [] [])
  = Ok (mkimport (str "M")
          [mkexport 12 (Some (str "Foo")); mkexport 7 None; mkexport 0 None] 2,
        mksys [(str "spec/M.ORD",
                str "# c" ++ [NL] ++ [NL] ++ str "12" ++ [TAB] ++ str "Foo" ++ [NL]
                  ++ str "bad" ++ [NL] ++ str "7" ++ [NL])] []
          [BadSpecfileLine (str "bad")]).
Proof. vm_compute. reflexivity. Qed.

Example load_exports_without_specfile :
  load_exports false (mkimport (str "M") [] 0) (mksys [] [] [])
  = Ok (mkimport (str "M") [] 0, mksys [] [] [NoSpecfile (str "M")]).
Proof. reflexivity. Qed.

(** * More of the program *)

(** ** The bytes that a diagnostic shows of an interrupt signature *)

Lemma word_high_bits (w : Z) : 0 <= w < 65536 -> Z.shiftr w 16 = 0.
Proof. intros H. rewrite Z.shiftr_div_pow2 by lia. apply Z.div_small. lia. Qed.

Lemma word_low_byte (w : Z) : 0 <= w -> Z.land w 255 = w mod 256.
Proof. intros H. change 255 with (Z.ones 8). now rewrite Z.land_ones by lia. Qed.

Lemma movable_warnings_low_byte (rs : list movable_record) :
  forall ordinal,
    Forall valid_movable rs ->
    movable_warnings ordinal rs = map low_byte_only (movable_signatures ordinal rs).
Proof.
  induction rs as [|r rs IH]; intros ordinal Hv; [reflexivity|].
  inversion Hv as [|? ? [_ [Hw _]] Hrs]; subst.
  cbn [movable_warnings movable_signatures]. rewrite map_app, (IH _ Hrs). f_equal.
  destruct (mv_int3f r =? 16333); [reflexivity|].
  unfold low_byte_only. cbn [map fst snd]. unfold is_word in Hw.
  now rewrite word_high_bits, word_low_byte by lia.
Qed.

Lemma table_warnings_low_byte (bs : list bundle) :
  forall ordinal,
    Forall valid_bundle bs ->
    table_warnings ordinal bs = map low_byte_only (table_signatures ordinal bs).
Proof.
  induction bs as [|b bs IH]; intros ordinal Hv; [reflexivity|].
  inversion Hv as [|? ? Hb Hbs]; subst.
  cbn [table_warnings table_signatures]. rewrite map_app, (IH _ Hbs). f_equal.
  destruct b as [n|rs|seg rs]; try reflexivity.
  apply movable_warnings_low_byte. apply Hb.
Qed.

(** X1.  For the byte stream of a list of valid bundles whose entries are
    counted by an [int]: what [get_entry_table] writes to the standard error
    stream is one diagnostic for each movable record whose signature is not
    0x3fcd, in the order of the stream, and the diagnostic shows the ordinal
    of the record, the low byte of its signature and 0.  The second byte
    that the code prints is [w >> 16], which is 0 for a word, and not the
    high byte of the signature. *)
Theorem get_entry_table_reports_low_byte :
  forall (bs : list bundle) (pre post : list ascii) (m : ne) (p : Z)
         (l : list diagnostic),
    Forall valid_bundle bs ->
    Z.of_nat (List.length (table_entries bs)) <= INT_MAX ->
    exists m' st',
      get_entry_table (Z.of_nat (List.length pre)) m
        (mkio (pre ++ encode_table bs ++ post) p l) = Ok (m', st')
      /\ stderr st' = l ++ map low_byte_only (table_signatures 1 bs).
Proof.
  intros bs pre post m p l Hv Hint.
  rewrite (get_entry_table_encoded bs pre post m p l Hv Hint).
  eexists _, _. split; [reflexivity|]. cbn [stderr].
  now rewrite table_warnings_low_byte.
Qed.

(** The theorem on a movable record with the signature 0x1234, of which
    0x34 and 0 are shown, and a record with the expected signature. *)
Lemma get_entry_table_reports_low_byte_witness :
  exists m' st',
    get_entry_table 0 (mkne [] [] [] 0)
      (mkio (encode_table [Movable [mkmovable 1 16333 2 7; mkmovable 1 4660 2 7]])
         0 []) = Ok (m', st')
    /\ stderr st' = [InterruptBytes 2 52 0].
Proof.
  assert (Forall valid_bundle [Movable [mkmovable 1 16333 2 7; mkmovable 1 4660 2 7]])
    as Hv.
  { repeat first [apply Forall_cons | apply Forall_nil | split]; cbv; congruence. }
  pose proof (get_entry_table_reports_low_byte
                [Movable [mkmovable 1 16333 2 7; mkmovable 1 4660 2 7]] [] []
                (mkne [] [] [] 0) 0 [] Hv ltac:(cbv; discriminate)) as H.
  rewrite !app_nil_r in H. exact H.
Defined.







(** ** Name tables that are the byte stream of a list of records *)

Lemma c_str_plain (s : list ascii) : ~ In NUL s -> c_str s = s.
Proof.
  induction s as [|x s IH]; intros H; [reflexivity|].
  apply not_in_eqb in H. destruct H as [Hx Hs].
  cbn [c_str]. rewrite Hx. now rewrite IH.
Qed.

Lemma fread_suffix (c : list ascii) (rest : list ascii) (l : list diagnostic) :
  forall (xs : list ascii) (p : Z),
    suffix_at c p (xs ++ rest) ->
    fread (List.length xs) (mkio c p l)
    = Ok (xs, mkio c (p + Z.of_nat (List.length xs)) l).
Proof.
  induction xs as [|x xs IH]; intros p Hs.
  - cbn [fread List.length]. unfold ret. arith_eq.
  - cbn [fread List.length]. cbn [fpos contents].
    pose proof Hs as [Hp Hskip]. simpl app in Hskip.
    apply skipn_cons_nth in Hskip. destruct Hskip as [Hn _].
    destruct (Z.ltb_spec p 0); [lia|]. rewrite Hn.
    simpl app in Hs. apply suffix_at_cons in Hs. destruct Hs as [_ Hs].
    unfold bind, set_fpos. cbn [fpos contents stderr].
    rewrite (IH _ Hs). unfold ret. arith_eq.
Qed.

Lemma demangle_name_unmarked (opts : bool) (name : list ascii) (log : list diagnostic) :
  (opts = true -> hd NUL name <> "?"%char) ->
  demangle_name opts name log = Ok (name, log).
Proof.
  intros H. unfold demangle_name. destruct opts; [|reflexivity].
  destruct name as [|c name]; [reflexivity|].
  cbn [andb]. destruct (Ascii.eqb_spec c "?") as [->|_]; [|reflexivity].
  exfalso. now apply H.
Qed.

Lemma encode_name_length (r : name_record) :
  Z.of_nat (List.length (encode_name r)) = Z.of_nat (List.length (nr_name r)) + 3.
Proof.
  unfold encode_name, word_of. cbn [List.length]. rewrite length_app.
  cbn [List.length]. lia.
Qed.

Lemma attach_names_length (rs : list name_record) :
  forall t, List.length (attach_names rs t) = List.length t.
Proof.
  unfold attach_names. induction rs as [|r rs IH]; intros t; [reflexivity|].
  cbn [fold_left]. rewrite IH. apply update_length.
Qed.

Lemma read_names_record (opts : bool) (c rest : list ascii) (r : name_record)
    (fuel : nat) (p : Z) (l : list diagnostic) (entry_table : list entry) :
  (1 <= List.length (nr_name r) <= 255)%nat ->
  ~ In NUL (nr_name r) ->
  is_word (nr_ordinal r) ->
  (opts = true -> hd NUL (nr_name r) <> "?"%char) ->
  suffix_at c p (encode_name r ++ rest) ->
  read_names (S fuel) opts entry_table (mkio c p l)
  = match store entry_table (nr_ordinal r - 1) (set_name (nr_name r)) with
    | Ok entry_table' =>
        read_names fuel opts entry_table'
          (mkio c (p + Z.of_nat (List.length (encode_name r))) l)
    | Err e => Err e
    end.
Proof.
  intros Hlen Hnul Hword Hmark Hs. cbn [read_names].
  unfold encode_name in Hs. simpl app in Hs.
  read_known Hs. rewrite Zc_byte_of by (unfold is_byte; lia).
  destruct (Z.eqb_spec (Z.of_nat (List.length (nr_name r))) 0); [lia|].
  rewrite <- app_assoc in Hs.
  unfold bind at 1. rewrite Nat2Z.id, (fread_suffix _ _ _ _ _ Hs).
  apply suffix_at_app in Hs. unfold word_of in Hs. simpl app in Hs.
  read_known_word Hs.
  rewrite word_bytes_value by assumption.
  rewrite (c_str_plain _ Hnul).
  unfold bind at 1, on_stderr. cbn [stderr].
  rewrite (demangle_name_unmarked _ _ _ Hmark). unfold io_stderr.
  cbn [contents fpos stderr].
  unfold bind at 1, lift at 1.
  destruct (store entry_table _ _); [|reflexivity].
  rewrite encode_name_length. f_equal. arith_eq.
Qed.

Lemma read_names_records (opts : bool) (c rest : list ascii) (size : nat) :
  forall (rs : list name_record) (fuel : nat) (p : Z) (l : list diagnostic)
         (entry_table : list entry),
    Forall (valid_name opts size) rs ->
    List.length entry_table = size ->
    suffix_at c p (flat_map encode_name rs ++ rest) ->
    read_names (List.length rs + fuel) opts entry_table (mkio c p l)
    = read_names fuel opts (attach_names rs entry_table)
        (mkio c (p + Z.of_nat (List.length (flat_map encode_name rs))) l).
Proof.
  induction rs as [|r rs IH]; intros fuel p l entry_table Hv Hsize Hs.
  - cbn [List.length flat_map Nat.add attach_names fold_left]. repeat f_equal. lia.
  - inversion Hv as [|? ? Hr Hrs]; subst.
    destruct Hr as [Hlen [Hnul [Hord [Hword Hmark]]]].
    cbn [flat_map] in *. rewrite <- app_assoc in Hs.
    cbn [List.length Nat.add].
    rewrite (read_names_record opts c _ r _ p l entry_table Hlen Hnul
               ltac:(unfold is_word; lia) Hmark Hs).
    unfold store.
    destruct (Z.leb_spec 0 (nr_ordinal r - 1)); [|lia].
    destruct (Z.ltb_spec (nr_ordinal r - 1) (Z.of_nat (List.length entry_table))); [|lia].
    cbn [andb].
    apply suffix_at_app in Hs.
    rewrite (IH fuel _ l _ Hrs) by (try rewrite update_length; first [assumption | reflexivity]).
    unfold attach_names. cbn [fold_left].
    rewrite length_app, Nat2Z.inj_add. f_equal. arith_eq.
Qed.

Lemma encode_names_records (rs : list name_record) :
  (List.length rs <= List.length (flat_map encode_name rs))%nat.
Proof.
  induction rs as [|r rs IH]; [simpl; lia|].
  cbn [flat_map]. rewrite length_app. unfold encode_name at 1.
  cbn [List.length]. lia.
Qed.

(** [read_res_name_table] up to its loop, on a table that is the byte
    stream of a module name and of more bytes. *)
Lemma read_res_name_table_first (opts : bool) (first : list ascii) (w : Z)
    (records pre : list ascii) (entry_table : list entry) (p : Z)
    (l : list diagnostic) :
  (List.length first <= 255)%nat -> ~ In NUL first ->
  let c := pre ++ (byte_of (Z.of_nat (List.length first)) :: first ++ word_of w
                     ++ records) in
  let q := Z.of_nat (List.length pre) + Z.of_nat (List.length first) + 3 in
  suffix_at c q records
  /\ read_res_name_table opts (Z.of_nat (List.length pre)) entry_table (mkio c p l)
     = match read_names (S (List.length c)) opts entry_table (mkio c q l) with
       | Ok (entry_table', st) => Ok ((first, entry_table'), st)
       | Err e => Err e
       end.
Proof.
  intros Hlen Hnul c q.
  assert (suffix_at c (Z.of_nat (List.length pre))
            (byte_of (Z.of_nat (List.length first)) :: first ++ word_of w ++ records))
    as Hs.
  { split; [lia|]. subst c. rewrite Nat2Z.id.
    rewrite skipn_app, Nat.sub_diag, skipn_all. reflexivity. }
  assert (suffix_at c q records) as Hq.
  { apply suffix_at_cons in Hs. destruct Hs as [_ Hs].
    apply suffix_at_app in Hs. unfold word_of in Hs. simpl app in Hs.
    apply suffix_at_cons in Hs. destruct Hs as [_ Hs].
    apply suffix_at_cons in Hs. destruct Hs as [_ Hs].
    subst q. at_cursor Hs (Z.of_nat (List.length pre) + Z.of_nat (List.length first) + 3).
    exact Hs. }
  split; [exact Hq|].
  unfold read_res_name_table.
  unfold bind at 1, fseek_set at 1, set_fpos. cbn [contents fpos stderr].
  read_known Hs. rewrite Zc_byte_of by (unfold is_byte; lia).
  unfold bind at 1. rewrite Nat2Z.id, (fread_suffix _ _ _ _ _ Hs).
  rewrite (c_str_plain _ Hnul).
  unfold bind at 1, fseek_cur at 1, set_fpos. cbn [contents fpos stderr].
  unfold bind at 1, walk_fuel. cbn [contents].
  unfold bind at 1.
  replace (Z.of_nat (List.length pre) + 1 + Z.of_nat (List.length first) + 2)
    with q by (subst q; lia).
  destruct (read_names _ _ _ _) as [[t st]|]; reflexivity.
Qed.

Lemma update_nth_error {A : Type} (f : A -> A) :
  forall (a : list A) (i k : nat),
    nth_error (update a i f) k
    = if Nat.eqb i k then option_map f (nth_error a k) else nth_error a k.
Proof.
  induction a as [|x a IH]; intros [|i] [|k]; cbn [update nth_error Nat.eqb option_map];
    try reflexivity.
  - now destruct (Nat.eqb _ _).
  - apply IH.
Qed.

Lemma attach_names_nth (rs : list name_record) :
  forall (entry_table : list entry) (k : nat) (e : entry),
    Forall (fun r => 1 <= nr_ordinal r) rs ->
    nth_error entry_table k = Some e ->
    nth_error (attach_names rs entry_table) k
    = Some (match name_of rs (Z.of_nat k + 1) with
            | Some name => set_name name e
            | None => e
            end).
Proof.
  unfold attach_names.
  induction rs as [|r rs IH]; intros entry_table k e Hv He; [exact He|].
  inversion Hv as [|? ? Hr Hrs]; subst.
  cbn [fold_left name_of].
  assert (nth_error (update entry_table (Z.to_nat (nr_ordinal r - 1))
                       (set_name (nr_name r))) k
          = Some (if nr_ordinal r =? Z.of_nat k + 1 then set_name (nr_name r) e else e))
    as Hstep.
  { rewrite update_nth_error, He. cbn [option_map].
    destruct (Nat.eqb_spec (Z.to_nat (nr_ordinal r - 1)) k);
      destruct (Z.eqb_spec (nr_ordinal r) (Z.of_nat k + 1)); try reflexivity; lia. }
  rewrite (IH _ _ _ Hrs Hstep).
  destruct (name_of rs (Z.of_nat k + 1)); destruct (nr_ordinal r =? Z.of_nat k + 1);
    reflexivity.
Qed.

Lemma suffix_at_split (c : list ascii) (p : Z) (s : list ascii) :
  suffix_at c p s ->
  p <= Z.of_nat (List.length c) ->
  exists pre, c = pre ++ s /\ Z.of_nat (List.length pre) = p.
Proof.
  intros [Hp Hs] Hle. exists (firstn (Z.to_nat p) c). split.
  - rewrite <- Hs. symmetry. apply firstn_skipn.
  - rewrite length_firstn. lia.
Qed.

Lemma suffix_at_inside (c : list ascii) (p : Z) (b : ascii) (s : list ascii) :
  suffix_at c p (b :: s) -> p <= Z.of_nat (List.length c).
Proof.
  intros [Hp Hs]. apply skipn_cons_nth in Hs. destruct Hs as [Hn _].
  assert (Z.to_nat p < List.length c)%nat by (apply nth_error_Some; congruence). lia.
Qed.

Lemma read_res_name_table_at (opts : bool) (first : list ascii) (w : Z)
    (rs : list name_record) (c rest : list ascii) (start : Z)
    (entry_table : list entry) (p : Z) (l : list diagnostic) :
  (List.length first <= 255)%nat -> ~ In NUL first ->
  Forall (valid_name opts (List.length entry_table)) rs ->
  suffix_at c start (encode_names first w rs ++ rest) ->
  read_res_name_table opts start entry_table (mkio c p l)
  = Ok ((first, attach_names rs entry_table),
        mkio c (start + Z.of_nat (List.length (encode_names first w rs))) l).
Proof.
  intros Hlen Hnul Hv Hs.
  assert (start <= Z.of_nat (List.length c)) as Hle.
  { unfold encode_names in Hs. cbn [app] in Hs. eapply suffix_at_inside; exact Hs. }
  destruct (suffix_at_split _ _ _ Hs Hle) as [pre [-> <-]]. clear Hs Hle.
  assert (pre ++ encode_names first w rs ++ rest
          = pre ++ (byte_of (Z.of_nat (List.length first)) :: first ++ word_of w
                      ++ flat_map encode_name rs ++ [byte_of 0] ++ rest)) as Hc.
  { unfold encode_names. cbn [app]. now rewrite <- !app_assoc. }
  rewrite Hc. clear Hc.
  destruct (read_res_name_table_first opts first w
              (flat_map encode_name rs ++ [byte_of 0] ++ rest) pre entry_table p l
              Hlen Hnul) as [Hs ->].
  set (c := pre ++ _) in *.
  pose proof (suffix_at_length _ _ _ Hs) as Hl. rewrite length_app in Hl.
  pose proof (encode_names_records rs) as Hn.
  replace (S (List.length c))
    with (List.length rs + S (List.length c - List.length rs))%nat by lia.
  rewrite (read_names_records opts c _ (List.length entry_table) rs _ _ l
             entry_table Hv eq_refl Hs).
  apply suffix_at_app in Hs. cbn [read_names]. simpl app in Hs.
  read_known Hs. rewrite Zc_byte_of by (unfold is_byte; lia).
  simpl. unfold ret. unfold word_of.
  repeat (rewrite length_app; cbn [List.length app]).
  arith_eq.
Qed.

Lemma attach_names_app (rs1 rs2 : list name_record) (entry_table : list entry) :
  attach_names rs2 (attach_names rs1 entry_table)
  = attach_names (rs1 ++ rs2) entry_table.
Proof. unfold attach_names. now rewrite fold_left_app. Qed.

(** X2.  A name table that is the byte stream of a module name, a word and
    records (name, ordinal), anywhere in a file; the names have 1 to 255
    characters other than NUL and do not start with '?' when demangling is
    on, and the ordinals are those of entries of the table.
    [read_res_name_table] returns the module name, leaves the position
    behind the zero byte that ends the table, writes no diagnostic, and gives
    the entry of every ordinal the name of the last record of that ordinal;
    the entries without a record are as they were. *)
Theorem read_res_name_table_attaches_names :
  forall (opts_DEMANGLE : bool) (first : list ascii) (w : Z) (rs : list name_record)
         (pre post : list ascii) (entry_table : list entry) (p : Z)
         (l : list diagnostic),
    (List.length first <= 255)%nat -> ~ In NUL first -> is_word w ->
    Forall (valid_name opts_DEMANGLE (List.length entry_table)) rs ->
    exists entry_table',
      read_res_name_table opts_DEMANGLE (Z.of_nat (List.length pre)) entry_table
        (mkio (pre ++ encode_names first w rs ++ post) p l)
      = Ok ((first, entry_table'),
            mkio (pre ++ encode_names first w rs ++ post)
              (Z.of_nat (List.length pre)
               + Z.of_nat (List.length (encode_names first w rs))) l)
      /\ List.length entry_table' = List.length entry_table
      /\ (forall (k : nat) (e : entry),
             nth_error entry_table k = Some e ->
             let ordinal := Z.of_nat k + 1 in
             nth_error entry_table' k
             = Some (match name_of rs ordinal with
                     | Some name => set_name name e
                     | None => e
                     end)).
Proof.
  intros opts first w rs pre post entry_table p l Hlen Hnul Hw Hv.
  exists (attach_names rs entry_table). split; [|split].
  - apply (read_res_name_table_at opts first w rs _ post); try assumption.
    split; [lia|]. rewrite Nat2Z.id, skipn_app, Nat.sub_diag, skipn_all. reflexivity.
  - apply attach_names_length.
  - intros k e He. apply attach_names_nth; [|exact He].
    eapply Forall_impl; [|exact Hv]. intros r Hr. apply Hr.
Qed.

Lemma not_in_str (c : ascii) (s : list ascii) :
  forallb (fun x => negb (Ascii.eqb x c)) s = true -> ~ In c s.
Proof.
  induction s as [|x s IH]; cbn [forallb In]; intros H; [tauto|].
  apply andb_true_iff in H. destruct H as [Hx Hs]. intros [->|Hin].
  - now rewrite Ascii.eqb_refl in Hx.
  - now apply IH.
Qed.

(** The theorem on two records of the ordinal 2, behind one byte. *)
Lemma read_res_name_table_attaches_names_witness :
  exists entry_table',
    read_res_name_table true 1 [mkentry 1 2 3 None; mkentry 4 5 6 None]
      (mkio ([byte_of 9]
               ++ encode_names (str "MOD") 0 [mkname (str "FOO") 2; mkname (str "BAR") 2]
               ++ [byte_of 9]) 0 [])
    = Ok ((str "MOD", entry_table'),
          mkio ([byte_of 9]
                  ++ encode_names (str "MOD") 0 [mkname (str "FOO") 2; mkname (str "BAR") 2]
                  ++ [byte_of 9]) 20 [])
    /\ nth_error entry_table' 1 = Some (mkentry 4 5 6 (Some (str "BAR"))).
Proof.
  assert (Forall (valid_name true 2) [mkname (str "FOO") 2; mkname (str "BAR") 2]) as Hv.
  { repeat apply Forall_cons; try apply Forall_nil;
      (split; [simpl; lia|]); (split; [now apply not_in_str|]);
      (split; [simpl; lia|]); (split; [simpl; lia|]); intros _; simpl; discriminate. }
  destruct (read_res_name_table_attaches_names true (str "MOD") 0
              [mkname (str "FOO") 2; mkname (str "BAR") 2] [byte_of 9] [byte_of 9]
              [mkentry 1 2 3 None; mkentry 4 5 6 None] 0 []
              ltac:(simpl; lia) (not_in_str NUL (str "MOD") eq_refl)
              ltac:(unfold is_word; lia) Hv)
    as [t [H [_ Hn]]].
  exists t. split; [exact H|]. exact (Hn 1%nat _ eq_refl).
Defined.

(** X4.  [read_res_name_table] does not check the ordinal of a record: the
    first record whose ordinal is 0 or greater than the number of entries
    makes it write outside of the entry table, whatever follows. *)
Theorem read_res_name_table_ordinal_unchecked :
  forall (opts_DEMANGLE : bool) (first : list ascii) (w : Z)
         (good : list name_record) (bad : name_record) (more : list name_record)
         (pre post : list ascii) (entry_table : list entry) (p : Z)
         (l : list diagnostic),
    (List.length first <= 255)%nat -> ~ In NUL first -> is_word w ->
    Forall (valid_name opts_DEMANGLE (List.length entry_table)) good ->
    (1 <= List.length (nr_name bad) <= 255)%nat ->
    ~ In NUL (nr_name bad) ->
    (opts_DEMANGLE = true -> hd NUL (nr_name bad) <> "?"%char) ->
    is_word (nr_ordinal bad) ->
    nr_ordinal bad = 0 \/ Z.of_nat (List.length entry_table) < nr_ordinal bad ->
    read_res_name_table opts_DEMANGLE (Z.of_nat (List.length pre)) entry_table
      (mkio (pre ++ encode_names first w (good ++ bad :: more) ++ post) p l)
    = Err OutOfBounds.
Proof.
  intros opts first w good bad more pre post entry_table p l Hlen Hnul Hw Hv
    Hblen Hbnul Hbmark Hbword Hbad.
  assert (pre ++ encode_names first w (good ++ bad :: more) ++ post
          = pre ++ (byte_of (Z.of_nat (List.length first)) :: first ++ word_of w
                      ++ flat_map encode_name good ++ encode_name bad
                      ++ flat_map encode_name more ++ [byte_of 0] ++ post)) as Hc.
  { unfold encode_names. rewrite flat_map_app. cbn [flat_map app].
    now rewrite <- !app_assoc. }
  rewrite Hc. clear Hc.
  destruct (read_res_name_table_first opts first w
              (flat_map encode_name good
                 ++ encode_name bad ++ flat_map encode_name more ++ [byte_of 0] ++ post)
              pre entry_table p l Hlen Hnul) as [Hs ->].
  set (c := pre ++ _) in *.
  pose proof (suffix_at_length _ _ _ Hs) as Hl. rewrite !length_app in Hl.
  pose proof (encode_names_records good) as Hn.
  pose proof (encode_name_length bad) as Hb.
  replace (S (List.length c))
    with (List.length good + S (List.length c - List.length good))%nat by lia.
  rewrite (read_names_records opts c _ (List.length entry_table) good _ _ l
             entry_table Hv eq_refl Hs).
  apply suffix_at_app in Hs.
  rewrite (read_names_record opts c _ bad _ _ l _ Hblen Hbnul Hbword Hbmark Hs).
  unfold store. rewrite attach_names_length.
  destruct Hbad as [H0|Hbig].
  - rewrite H0. reflexivity.
  - destruct (Z.ltb_spec (nr_ordinal bad - 1) (Z.of_nat (List.length entry_table)));
      [lia|]. rewrite andb_false_r. reflexivity.
Qed.

(** The theorem on the ordinal 3 and a table of two entries. *)
Lemma read_res_name_table_ordinal_unchecked_witness :
  read_res_name_table false 0 [zero_entry; zero_entry]
    (mkio ([] ++ encode_names (str "MOD") 0 ([mkname (str "FOO") 2]
                                              ++ mkname (str "BAR") 3 :: [])
              ++ []) 0 [])
  = Err OutOfBounds.
Proof.
  assert (Forall (valid_name false 2) [mkname (str "FOO") 2]) as Hv.
  { repeat apply Forall_cons; try apply Forall_nil;
      (split; [simpl; lia|]); (split; [now apply not_in_str|]);
      (split; [simpl; lia|]); (split; [simpl; lia|]); intros H; discriminate. }
  assert (Z.of_nat (List.length [zero_entry; zero_entry])
          < nr_ordinal (mkname (str "BAR") 3)) as Hbig by (simpl; lia).
  assert (is_word (nr_ordinal (mkname (str "BAR") 3))) as Hword
    by (unfold is_word; simpl; lia).
  assert (1 <= List.length (nr_name (mkname (str "BAR") 3)) <= 255)%nat as Hlen
    by (simpl; lia).
  exact (read_res_name_table_ordinal_unchecked false (str "MOD") 0
           [mkname (str "FOO") 2] (mkname (str "BAR") 3) [] [] []
           [zero_entry; zero_entry] 0 []
           ltac:(simpl; lia) (not_in_str NUL (str "MOD") eq_refl)
           ltac:(unfold is_word; lia) Hv
           Hlen (not_in_str NUL (str "BAR") eq_refl)
           ltac:(intros H; discriminate) Hword (or_intror Hbig)).
Defined.

(** ** The access of a member *)

Lemma access_bits (d : Z) :
  0 <= d <= 21 -> Z.land d 24 = 0 \/ Z.land d 24 = 8 \/ Z.land d 24 = 16.
Proof.
  intros H.
  assert (d = 0 \/ d = 1 \/ d = 2 \/ d = 3 \/ d = 4 \/ d = 5 \/ d = 6 \/ d = 7
          \/ d = 8 \/ d = 9 \/ d = 10 \/ d = 11 \/ d = 12 \/ d = 13 \/ d = 14
          \/ d = 15 \/ d = 16 \/ d = 17 \/ d = 18 \/ d = 19 \/ d = 20 \/ d = 21)
    as Hd by lia.
  repeat (destruct Hd as [->|Hd]; [cbn; tauto|]). subst d. cbn. tauto.
Qed.

(** X5.  For a letter from 'A' to 'V', [demangle_protection] takes one
    character, writes no diagnostic, stores the letter in [*prot] and appends
    the storage class, the distance and one of the three access keywords:
    the case of its last test in which no keyword is appended is not reached
    by these letters. *)
Theorem demangle_protection_member :
  forall (buffer rest : list ascii) (c prot : ascii) (func : list ascii)
         (log : list diagnostic),
    in_range "A" "V" c = true ->
    let d := Zc c - Zc "A" in
    exists access,
      demangle_protection buffer (c :: rest) prot func log
      = Ok ((1,
             buffer
               ++ (if Z.testbit d 1 then str "static " else [])
               ++ (if Z.testbit d 2 then str "virtual " else [])
               ++ (if Z.testbit d 0 then [] else str "near ")
               ++ access,
             c), log)
      /\ (access = str "private " \/ access = str "protected "
          \/ access = str "public ").
Proof.
  intros buffer rest c prot func log Hc d.
  assert (0 <= d <= 21) as Hd.
  { unfold in_range in Hc. apply andb_true_iff in Hc. destruct Hc as [H1 H2].
    apply Z.leb_le in H1, H2. subst d. change (Zc "A") with 65 in *.
    change (Zc "V") with 86 in *. lia. }
  destruct (qualifier_bits c) as [B0 [B1 B2]]. cbv zeta in B0, B1, B2. fold d in B0, B1, B2.
  unfold demangle_protection. cbn [demangle_protection_call]. rewrite Hc.
  cbv zeta. fold d. unfold bind, lift, ret. cbv beta iota.
  rewrite B0, B1, B2, !negb_involutive.
  destruct (access_bits d Hd) as [E|[E|E]]; rewrite E.
  - exists (str "private "). split; [|tauto].
    change (0 =? 0) with true. cbv iota.
    destruct (Z.testbit d 0); destruct (Z.testbit d 1); destruct (Z.testbit d 2);
      cbn [negb]; repeat rewrite <- app_assoc; cbn [app]; reflexivity.
  - exists (str "protected "). split; [|tauto].
    change (8 =? 0) with false. change (8 =? 8) with true. cbv iota.
    destruct (Z.testbit d 0); destruct (Z.testbit d 1); destruct (Z.testbit d 2);
      cbn [negb]; repeat rewrite <- app_assoc; cbn [app]; reflexivity.
  - exists (str "public "). split; [|tauto].
    change (16 =? 0) with false. change (16 =? 8) with false.
    change (16 =? 16) with true. cbv iota.
    destruct (Z.testbit d 0); destruct (Z.testbit d 1); destruct (Z.testbit d 2);
      cbn [negb]; repeat rewrite <- app_assoc; cbn [app]; reflexivity.
Qed.

(** The theorem on the letter 'Q'. *)
Lemma demangle_protection_member_witness :
  exists access,
    demangle_protection (str "x") (str "QEAXXZ") NUL (str "?f@C@@QEAXXZ") []
    = Ok ((1,
           str "x"
             ++ (if Z.testbit (Zc "Q" - Zc "A") 1 then str "static " else [])
             ++ (if Z.testbit (Zc "Q" - Zc "A") 2 then str "virtual " else [])
             ++ (if Z.testbit (Zc "Q" - Zc "A") 0 then [] else str "near ")
             ++ access,
           "Q"%char), [])
    /\ (access = str "private " \/ access = str "protected "
        \/ access = str "public ").
Proof.
  exact (demangle_protection_member (str "x") (str "EAXXZ") "Q" NUL (str "?f@C@@QEAXXZ") []
           eq_refl).
Defined.

Lemma strchr_bounds (c : ascii) :
  forall (s : list ascii) (i : Z),
    strchr s c = Some i -> 0 <= i < Z.of_nat (List.length s).
Proof.
  induction s as [|x s IH]; intros i H; [discriminate|].
  cbn [strchr] in H. cbn [List.length].
  destruct (Ascii.eqb x c); [injection H as <-; lia|].
  destruct (strchr s c) as [j|]; [|discriminate].
  injection H as <-. specialize (IH j eq_refl). lia.
Qed.

Lemma demangle_type_consumed_step (c : ascii) (type1 : list ascii) :
  (forall c1 type2, type1 = c1 :: type2 -> type_consumed type2) ->
  type_consumed (c :: type1).
Proof.
  intros IH buffer n buffer' H. cbn [demangle_type] in H.
  unfold strlen, is_type_code. cbn [hd List.length].
  destruct (in_range "C" "K" c) eqn:E1.
  { injection H as <- <-. cbn [orb]. split; [lia|]. split; [split|]; [lia|discriminate|lia]. }
  destruct (Ascii.eqb c "A" || Ascii.eqb c "P") eqn:E2.
  { cbn [orb]. destruct type1 as [|c1 type2]; [discriminate|].
    destruct (demangle_type _ type2) as [[k b]|e] eqn:E; [|discriminate].
    cbn [rbind] in H. injection H as <- <-.
    apply (IH c1 type2 eq_refl) in E. destruct E as [Hk _].
    unfold strlen in Hk. cbn [List.length].
    split; [lia|]. split; [split|]; [lia|discriminate|lia]. }
  destruct (Ascii.eqb c "M") eqn:E3.
  { injection H as <- <-. cbn [orb]. split; [lia|]. split; [split|]; [lia|discriminate|lia]. }
  destruct (Ascii.eqb c "N") eqn:E4.
  { injection H as <- <-. cbn [orb]. split; [lia|]. split; [split|]; [lia|discriminate|lia]. }
  destruct (Ascii.eqb c "U" || Ascii.eqb c "V") eqn:E5.
  { cbn [orb].
    assert (Ascii.eqb c "@" = false) as Hat.
    { destruct (Ascii.eqb_spec c "@") as [->|]; [discriminate E5|reflexivity]. }
    assert (forall e,
               match strstr (c :: type1) (str "@@") with
               | Some e => Some e
               | None => strchr (c :: type1) "@"
               end = Some e -> 1 <= e <= Z.of_nat (S (List.length type1))) as Hend.
    { intros e He. cbn [strstr strchr str list_ascii_of_string is_prefix] in He.
      assert (Ascii.eqb "@" c = false) as Hat' by (now rewrite Ascii.eqb_sym).
      rewrite Hat' in He. cbn [andb] in He. rewrite Hat in He.
      change ["@"%char; "@"%char] with (str "@@") in He.
      destruct (strstr type1 (str "@@")) as [j|] eqn:Ej; cbn [option_map] in He.
      - injection He as <-. apply strstr_bounds in Ej. simpl in Ej. lia.
      - destruct (strchr type1 "@") as [j|] eqn:Ej'; [|discriminate].
        cbn [option_map] in He.
        injection He as <-. apply strchr_bounds in Ej'. lia. }
    destruct (match strstr (c :: type1) (str "@@") with
              | Some e => Some e
              | None => strchr (c :: type1) "@"
              end) as [e|]; [|discriminate].
    specialize (Hend e eq_refl). injection H as <- <-.
    split; [lia|]. split; [split|]; [lia|discriminate|lia]. }
  destruct (Ascii.eqb c "X") eqn:E6.
  { injection H as <- <-. cbn [orb]. split; [lia|]. split; [split|]; [lia|discriminate|lia]. }
  injection H as <- <-. cbn [orb]. split; [lia|]. split; [split|]; reflexivity.
Qed.

Lemma demangle_type_consumed (type : list ascii) : type_consumed type.
Proof.
  enough (type_consumed type /\ forall c, type_consumed (c :: type)) as [H _] by exact H.
  induction type as [|x type [IH1 IH2]].
  - split.
    + intros buffer n buffer' H. cbn [demangle_type] in H. injection H as <- <-.
      unfold strlen. cbn. split; [lia|]. split; [split|]; reflexivity.
    + intros c. apply demangle_type_consumed_step. discriminate.
  - split; [apply IH2|].
    intros c. apply demangle_type_consumed_step.
    intros c1 type2 [= -> ->]. exact IH1.
Qed.

(** X6.  On the runs of [demangle_type] that have a value here, those that
    read nothing behind the end of the string and in which [strchr] finds
    the '@' behind a name of the code 'U' or 'V', the number of characters
    that it reports is not negative and not greater than the length of the
    string.  It reports 0 exactly when the first character is not the code
    of a type, and the buffer is as it was then; otherwise it only appends
    to the buffer.  A pointer to a type that is not known is so not
    reported.  On a name without an '@' behind it the C function returns a
    number computed from the null pointer; that run has no value here and
    the statement is silent on it. *)
Theorem demangle_type_consumes :
  forall (buffer type : list ascii) (n : Z) (buffer' : list ascii),
    demangle_type buffer type = Ok (n, buffer') ->
    0 <= n <= strlen type
    /\ (n = 0 <-> is_type_code (hd NUL type) = false)
    /\ exists text, buffer' = buffer ++ text /\ (n = 0 -> text = []).
Proof.
  intros buffer type n buffer' H.
  destruct (demangle_type_consumed type buffer n buffer' H) as [Hn [Hcode Hsame]].
  split; [exact Hn|]. split; [exact Hcode|].
  rewrite (demangle_type_frame type buffer) in H.
  destruct (demangle_type [] type) as [[k text]|e] eqn:E; [|discriminate].
  injection H as <- <-. exists text. split; [reflexivity|].
  intros Hk. destruct (demangle_type_consumed type [] k text E) as [_ [_ Hnil]].
  now apply Hnil.
Qed.

(** The theorem on a pointer to a type that is not known. *)
Lemma demangle_type_consumes_witness :
  (0 <= 2 <= strlen (str "PA?"))
  /\ (2 = 0 <-> is_type_code (hd NUL (str "PA?")) = false)
  /\ exists text, str "f(near *" = str "f(" ++ text /\ (2 = 0 -> text = []).
Proof.
  exact (demangle_type_consumes (str "f(") (str "PA?") 2 (str "f(near *") eq_refl).
Defined.

(** ** The types of the grammar *)

Lemma strstr_first (rest : list ascii) :
  forall pre : list ascii,
    no_double (pre ++ str "@") = true ->
    strstr (pre ++ str "@@" ++ rest) (str "@@") = Some (Z.of_nat (List.length pre)).
Proof.
  induction pre as [|x pre IH]; intros H; [reflexivity|].
  cbn [app List.length]. cbn [strstr].
  assert (is_prefix (str "@@") (x :: pre ++ str "@@" ++ rest) = false) as Hp.
  { cbn [str list_ascii_of_string is_prefix].
    destruct (Ascii.eqb_spec "@" x) as [<-|]; [|reflexivity]. cbn [andb].
    cbn [app no_double] in H. destruct pre as [|y pre].
    - discriminate H.
    - cbn [app] in *. apply andb_true_iff in H. destruct H as [H _].
      rewrite Ascii.eqb_refl in H. cbn [andb] in H.
      rewrite Ascii.eqb_sym. destruct (Ascii.eqb y "@"); [discriminate|reflexivity]. }
  rewrite Hp. rewrite IH.
  - cbn [option_map]. f_equal. lia.
  - cbn [app no_double] in H. destruct (pre ++ str "@") eqn:E; [reflexivity|].
    apply andb_true_iff in H. apply H.
Qed.

Lemma no_double_plain (c : list ascii) (x : ascii) :
  ~ In "@"%char c -> no_double (c ++ [x]) = true.
Proof.
  induction c as [|a c IH]; intros H; [reflexivity|].
  apply not_in_eqb in H. destruct H as [Ha Hc].
  cbn [app no_double]. destruct (c ++ [x]) eqn:E; [reflexivity|].
  rewrite Ha. cbn [andb negb]. now apply IH.
Qed.

Lemma demangle_type_named (code : ascii) (name rest buffer : list ascii) :
  code = "U"%char \/ code = "V"%char -> ~ In "@"%char name ->
  demangle_type buffer (code :: name ++ str "@@" ++ rest)
  = Ok (1 + Z.of_nat (List.length name), buffer ++ name ++ str " ").
Proof.
  intros Hcode Hname.
  assert (strstr (code :: name ++ str "@@" ++ rest) (str "@@")
          = Some (Z.of_nat (List.length (code :: name)))) as Hs.
  { apply (strstr_first rest (code :: name)).
    cbn [app no_double]. change (str "@") with ["@"%char].
    pose proof (no_double_plain name "@" Hname) as Hnd.
    destruct (name ++ ["@"%char]) eqn:E; [reflexivity|].
    rewrite Hnd, andb_true_r.
    destruct Hcode; subst code; reflexivity. }
  cbn [demangle_type]. rewrite Hs. cbn [List.length].
  replace (Z.of_nat (S (List.length name)) - 1) with (Z.of_nat (List.length name)) by lia.
  rewrite strncat_app by reflexivity.
  destruct Hcode; subst code; cbv match beta;
    change (in_range "C" "K" _) with false; cbv iota; cbn [Ascii.eqb Bool.eqb orb];
    rewrite <- app_assoc; arith_eq.
Qed.

Lemma Zc_ascii_of_nat (n : nat) : (n < 256)%nat -> Zc (ascii_of_nat n) = Z.of_nat n.
Proof.
  intros H. unfold Zc. rewrite <- (nat_ascii_embedding n H) at 2.
  unfold nat_of_ascii. rewrite N_nat_Z. reflexivity.
Qed.

Lemma demangle_type_of_code :
  forall (t : ctype), well_formed t ->
    forall (buffer rest : list ascii),
      demangle_type buffer (type_code t ++ rest)
      = Ok (type_consumption t, buffer ++ type_text t).
Proof.
  induction t as [k| | | |code name|code q t IH]; intros Hwf buffer rest;
    try reflexivity.
  - cbn [well_formed] in Hwf. cbn [type_code type_text type_consumption app].
    do 9 (destruct k as [|k]; [reflexivity|]). lia.
  - destruct Hwf as [Hcode Hname]. cbn [type_code type_text type_consumption app].
    rewrite <- app_assoc. now apply demangle_type_named.
  - destruct Hwf as [Hcode Hwf]. cbn [type_code type_text type_consumption app].
    cbn [demangle_type]. rewrite (IH Hwf). cbn [rbind].
    destruct (qualifier_bits q) as [H1 [H2 H4]]. cbv zeta in H1, H2, H4.
    rewrite H1, H2, H4. rewrite !negb_involutive.
    destruct Hcode; subst code; cbv match beta;
      change (in_range "C" "K" _) with false; cbv iota; cbn [Ascii.eqb Bool.eqb orb];
      destruct (Z.testbit (Zc q - Zc "A") 0); destruct (Z.testbit (Zc q - Zc "A") 1);
      destruct (Z.testbit (Zc q - Zc "A") 2); cbn [negb];
      repeat rewrite <- app_assoc; cbn [app]; arith_eq.
Qed.

(** X7.  For every type of the grammar (the integer types 'C' to 'K',
    'M', 'N', 'X', a name of the code 'U' or 'V' without an '@' in it and
    ended by "@@", and the pointers and references 'P' and 'A' to such
    types), [demangle_type] on its code, followed by anything, appends the
    text of the type and reports the length of the code or, for a type with
    a name in it, the length up to the separator "@@" that ends the name,
    which it leaves unread. *)
Theorem demangle_type_renders_type :
  forall (t : ctype) (buffer rest : list ascii),
    well_formed t ->
    demangle_type buffer (type_code t ++ rest)
    = Ok (type_consumption t, buffer ++ type_text t)
    /\ (unnamed t -> type_consumption t = strlen (type_code t)).
Proof.
  intros t buffer rest Hwf. split; [now apply demangle_type_of_code|].
  clear. induction t as [k| | | |code name|code q t IH]; intros Hu; try reflexivity.
  - contradiction.
  - destruct Hu as [_ Hu]. cbn [type_consumption type_code]. unfold strlen in *.
    cbn [List.length]. rewrite (IH Hu). lia.
Qed.

(** The theorem on a pointer to a struct. *)
Lemma demangle_type_renders_type_witness :
  demangle_type (str "f(") (type_code (Pointer "P" "B" (Named "U" (str "foo"))) ++ str "H@Z")
  = Ok (type_consumption (Pointer "P" "B" (Named "U" (str "foo"))),
        str "f(" ++ type_text (Pointer "P" "B" (Named "U" (str "foo"))))
  /\ (unnamed (Pointer "P" "B" (Named "U" (str "foo"))) ->
      type_consumption (Pointer "P" "B" (Named "U" (str "foo")))
      = strlen (type_code (Pointer "P" "B" (Named "U" (str "foo"))))).
Proof.
  assert (well_formed (Pointer "P" "B" (Named "U" (str "foo")))) as Hwf.
  { split; [now right|]. split; [now left|]. now apply not_in_str. }
  exact (demangle_type_renders_type _ (str "f(") (str "H@Z") Hwf).
Defined.

(** ** The parameters *)

Lemma type_code_head (t : ctype) :
  well_formed t ->
  exists c code, type_code t = c :: code /\ Ascii.eqb c "@" = false
                 /\ (Ascii.eqb c "X" = true -> t = Void).
Proof.
  destruct t as [k| | | |code name|code q t]; intros Hwf; cbn [type_code].
  - cbn [well_formed] in Hwf. eexists. eexists. split; [reflexivity|].
    do 9 (destruct k as [|k]; [split; [reflexivity|discriminate]|]). lia.
  - eexists. eexists. split; [reflexivity|]. split; [reflexivity|discriminate].
  - eexists. eexists. split; [reflexivity|]. split; [reflexivity|discriminate].
  - eexists. eexists. split; [reflexivity|]. split; reflexivity.
  - destruct Hwf as [[->| ->] _]; eexists; eexists;
      (split; [reflexivity|]); (split; [reflexivity|discriminate]).
  - destruct Hwf as [[->| ->] _]; eexists; eexists;
      (split; [reflexivity|]); (split; [reflexivity|discriminate]).
Qed.

Lemma type_consumption_pos (t : ctype) : 1 <= type_consumption t.
Proof. induction t; cbn [type_consumption]; lia. Qed.

Lemma type_text_nonempty (t : ctype) : type_text t <> [].
Proof.
  destruct t as [k| | | |code name|code q t]; cbn [type_text]; try discriminate.
  - intros H. apply app_eq_nil in H. destruct H as [_ H]. discriminate.
  - intros H. apply app_eq_nil in H. destruct H as [_ H]. discriminate.
  - intros H. repeat (apply app_eq_nil in H; destruct H as [_ H]).
    destruct (Ascii.eqb code "A"); discriminate.
Qed.

Lemma load_last (b s : list ascii) :
  s <> [] -> load (b ++ s) (strlen (b ++ s) - 1) = Ok (last s NUL).
Proof.
  intros H. rewrite (app_removelast_last NUL H) at 1 2.
  rewrite app_assoc. apply load_middle. unfold strlen.
  rewrite !length_app. cbn [List.length]. lia.
Qed.

Lemma cut_last (b s : list ascii) :
  s <> [] -> cut (b ++ s) (strlen (b ++ s) - 1) = Ok (b ++ removelast s).
Proof.
  intros H. unfold cut, strlen.
  assert (1 <= List.length s)%nat by (destruct s; [contradiction|simpl; lia]).
  rewrite length_app.
  destruct (Z.leb_spec 0 (Z.of_nat (List.length b + List.length s) - 1)); [|lia].
  destruct (Z.leb_spec (Z.of_nat (List.length b + List.length s) - 1)
              (Z.of_nat (List.length b + List.length s))); [|lia].
  cbn [andb]. f_equal.
  rewrite (app_removelast_last NUL H) at 2.
  rewrite app_assoc, firstn_app.
  replace (Z.to_nat (Z.of_nat (List.length b + List.length s) - 1))
    with (List.length (b ++ removelast s)).
  - rewrite firstn_all, Nat.sub_diag. cbn [firstn]. now rewrite app_nil_r.
  - rewrite length_app.
    rewrite (app_removelast_last NUL H) at 2. rewrite length_app. cbn [List.length]. lia.
Qed.

Lemma demangle_args_param (t : ctype) (fuel : nat) (pre rest buffer : list ascii)
    (log : list diagnostic) :
  well_formed t ->
  demangle_args (S fuel) (pre ++ type_code t ++ rest) (Z.of_nat (List.length pre))
    buffer log
  = demangle_args fuel (pre ++ type_code t ++ rest)
      (Z.of_nat (List.length pre) + type_consumption t)
      (buffer ++ param_text t ++ str ", ") log.
Proof.
  intros Hwf.
  destruct (type_code_head t Hwf) as [c [code [Hcode [Hat _]]]].
  pose proof (demangle_type_of_code t Hwf buffer rest) as Htype.
  pose proof (type_consumption_pos t) as Hpos.
  pose proof (type_text_nonempty t) as Htext.
  assert (char_at (pre ++ type_code t ++ rest) (Z.of_nat (List.length pre)) = Ok c)
    as Hchar.
  { rewrite Hcode. cbn [app]. apply char_at_middle. }
  assert (ptr_add (pre ++ type_code t ++ rest) (Z.of_nat (List.length pre))
          = Ok (type_code t ++ rest)) as Hptr by now apply ptr_add_app.
  set (func := pre ++ type_code t ++ rest) in *.
  cbn [demangle_args]. unfold bind at 1, lift at 1. rewrite Hchar, Hat.
  unfold bind at 1, lift at 1. rewrite Hptr.
  unfold bind at 1, lift at 1. rewrite Htype.
  destruct (Z.eqb_spec (type_consumption t) 0); [lia|].
  unfold bind at 1, ret at 1.
  unfold bind at 1, lift at 1. rewrite (load_last _ _ Htext).
  unfold param_text. cbv zeta.
  destruct (Ascii.eqb (last (type_text t) NUL) " ").
  - unfold bind at 1, lift at 1. rewrite (cut_last _ _ Htext).
    now rewrite <- app_assoc.
  - unfold bind at 1, ret at 1. now rewrite <- app_assoc.
Qed.

Lemma unnamed_well_formed (t : ctype) : unnamed t -> well_formed t.
Proof.
  induction t as [k| | | |code name|code q t IH]; cbn [unnamed well_formed]; try tauto.
Qed.

Lemma unnamed_consumption (t : ctype) :
  unnamed t -> type_consumption t = Z.of_nat (List.length (type_code t)).
Proof.
  induction t as [k| | | |code name|code q t IH]; intros Hu; try reflexivity.
  - contradiction.
  - destruct Hu as [_ Hu]. cbn [type_consumption type_code List.length].
    rewrite (IH Hu). lia.
Qed.

Lemma demangle_args_params (rest : list ascii) (log : list diagnostic) :
  forall (ts : list ctype) (fuel : nat) (pre buffer : list ascii),
    Forall unnamed ts ->
    demangle_args (List.length ts + fuel) (pre ++ flat_map type_code ts ++ rest)
      (Z.of_nat (List.length pre)) buffer log
    = demangle_args fuel (pre ++ flat_map type_code ts ++ rest)
        (Z.of_nat (List.length (pre ++ flat_map type_code ts)))
        (buffer ++ flat_map (fun t => param_text t ++ str ", ") ts) log.
Proof.
  induction ts as [|t ts IH]; intros fuel pre buffer Hu.
  - cbn [List.length flat_map Nat.add]. now rewrite !app_nil_r.
  - inversion Hu as [|? ? Ht Hts]; subst.
    cbn [List.length flat_map Nat.add]. rewrite <- !app_assoc.
    rewrite (demangle_args_param t _ pre _ buffer log (unnamed_well_formed _ Ht)).
    rewrite (unnamed_consumption _ Ht), <- Nat2Z.inj_add, <- length_app.
    rewrite !(app_assoc pre (type_code t)).
    rewrite (IH fuel (pre ++ type_code t) _ Hts).
    now rewrite <- !app_assoc.
Qed.

Lemma demangle_args_end (func : list ascii) (p : Z) (fuel : nat) (buffer : list ascii)
    (log : list diagnostic) :
  char_at func p = Ok "@"%char ->
  demangle_args (S fuel) func p buffer log = Ok (buffer, log).
Proof.
  intros H. cbn [demangle_args]. unfold bind at 1, lift at 1. now rewrite H.
Qed.

Lemma join_separated (sep : list ascii) (l : list (list ascii)) :
  l <> [] -> flat_map (fun x => x ++ sep) l = join sep l ++ sep.
Proof.
  induction l as [|x l IH]; intros H; [contradiction|].
  cbn [flat_map join]. destruct l as [|y l].
  - cbn [flat_map]. now rewrite app_nil_r.
  - rewrite IH by discriminate. now rewrite <- !app_assoc.
Qed.

Lemma params_separated (ts : list ctype) :
  ts <> [] ->
  flat_map (fun t => param_text t ++ str ", ") ts
  = join (str ", ") (map param_text ts) ++ str ", ".
Proof.
  intros H. rewrite <- join_separated by (destruct ts; [contradiction|discriminate]).
  clear H. induction ts as [|t ts IH]; [reflexivity|].
  cbn [flat_map map]. now rewrite IH.
Qed.

Lemma finish_list (b : list ascii) :
  (buffer <- lift (poke (b ++ str ", ") (strlen (b ++ str ", ") - 2) ")") ;;
   buffer <- lift (cut buffer (strlen buffer - 1)) ;;
   ret buffer)
  = (ret (b ++ str ")") : M (list diagnostic) (list ascii)).
Proof.
  assert (poke (b ++ str ", ") (strlen (b ++ str ", ") - 2) ")" = Ok (b ++ str ") "))
    as Hpoke.
  { unfold poke. apply (store_middle b ","%char [" "%char]). unfold strlen.
    rewrite length_app. cbn [str list_ascii_of_string List.length]. lia. }
  assert (cut (b ++ str ") ") (strlen (b ++ str ") ") - 1) = Ok (b ++ str ")"))
    as Hcut.
  { change (str ") ") with (str ")" ++ str " "). rewrite app_assoc.
    pose proof (cut_last (b ++ str ")") (str " ") ltac:(discriminate)) as H.
    cbn [removelast str list_ascii_of_string] in H. rewrite app_nil_r in H. exact H. }
  unfold bind, lift. rewrite Hpoke, Hcut. reflexivity.
Qed.

(** ** Functions *)

Lemma no_double_app (s t : list ascii) :
  no_double s = true -> no_double t = true -> Ascii.eqb (hd NUL t) "@" = false ->
  no_double (s ++ t) = true.
Proof.
  intros Hs Ht Hhd. induction s as [|a s IH]; [exact Ht|].
  cbn [app no_double] in *. destruct s as [|b s].
  - cbn [app]. destruct t as [|c t]; [reflexivity|].
    cbn [hd] in Hhd. rewrite Hhd, andb_false_r. exact Ht.
  - cbn [app] in *. apply andb_true_iff in Hs. destruct Hs as [Hab Hs].
    rewrite Hab. now apply IH.
Qed.

Lemma plain_no_separator (c : list ascii) : plain c -> ~ In "@"%char c.
Proof.
  unfold plain. induction c as [|x c IH]; cbn [forallb In]; intros H; [tauto|].
  apply andb_true_iff in H. destruct H as [Hx Hc]. intros [->|Hin].
  - discriminate Hx.
  - now apply IH.
Qed.

Lemma stored_name_no_double (components : list (list ascii)) :
  Forall plain components -> Forall (fun c => c <> []) components ->
  components <> [] ->
  no_double (stored_name components ++ str "@") = true.
Proof.
  induction components as [|c outer IH]; intros Hplain Hne Hnil; [contradiction|].
  inversion Hplain as [|? ? Hc Houter]; subst.
  inversion Hne as [|? ? Hc' Houter']; subst.
  pose proof (no_double_plain c "@" (plain_no_separator _ Hc)) as Hcd.
  cbn [stored_name]. destruct outer as [|c' outer].
  - cbn [app no_double]. destruct (c ++ str "@") eqn:E; [reflexivity|].
    cbn [Ascii.eqb Bool.eqb andb negb]. rewrite <- E. exact Hcd.
  - rewrite <- app_assoc.
    change (("@"%char :: c) ++ str "@") with (str "@" ++ (c ++ str "@")).
    rewrite app_assoc. apply no_double_app.
    + apply IH; [assumption|assumption|discriminate].
    + exact Hcd.
    + destruct c as [|x c]; [contradiction|].
      cbn [app hd]. unfold plain in Hc. cbn [forallb] in Hc.
      apply andb_true_iff in Hc. destruct Hc as [Hx _].
      unfold is_delimiter in Hx. apply negb_true_iff, orb_false_iff in Hx. apply Hx.
Qed.

(** [demangle] up to the parameters, on the name of a function. *)
Lemma demangle_function_head (components : list (list ascii)) (distance : ascii)
    (rtype : ctype) (rest : list ascii) (log : list diagnostic) :
  components <> [] -> Forall plain components ->
  Forall (fun c => c <> []) components ->
  distance = "Y"%char \/ distance = "Z"%char ->
  unnamed rtype ->
  let head := stored_name components ++ str "@@" ++ distance :: "A"%char :: type_code rtype in
  demangle (head ++ rest) log
  = demangle_params (head ++ rest) (Z.of_nat (List.length head))
      ((if Ascii.eqb distance "Y" then str "near " else [])
         ++ type_text rtype ++ rendered_name components) log.
Proof.
  intros Hnil Hplain Hne Hd Hret head.
  set (stored := stored_name components) in *.
  set (func := head ++ rest).
  assert (func = stored ++ str "@@"
                   ++ distance :: "A"%char :: type_code rtype ++ rest) as Hfunc.
  { subst func head. rewrite <- !app_assoc. cbn [app]. reflexivity. }
  assert (strstr func (str "@@") = Some (Z.of_nat (List.length stored))) as Hsep.
  { rewrite Hfunc. apply strstr_first. now apply stored_name_no_double. }
  assert (ptr_add func (Z.of_nat (List.length stored) + 2)
          = Ok (distance :: "A"%char :: type_code rtype ++ rest)) as Hstart.
  { rewrite Hfunc, app_assoc. apply ptr_add_app.
    rewrite length_app. cbn [str list_ascii_of_string List.length]. lia. }
  assert (char_at func (Z.of_nat (List.length stored) + 2 + 1) = Ok "A"%char) as Hconv.
  { rewrite Hfunc.
    change (str "@@" ++ distance :: "A"%char :: type_code rtype ++ rest)
      with ((str "@@" ++ [distance]) ++ "A"%char :: type_code rtype ++ rest).
    rewrite app_assoc.
    replace (Z.of_nat (List.length stored) + 2 + 1)
      with (Z.of_nat (List.length (stored ++ str "@@" ++ [distance])))
      by (rewrite length_app; cbn [str list_ascii_of_string List.length app]; lia).
    apply char_at_middle. }
  assert (ptr_add func (Z.of_nat (List.length stored) + 2 + 1 + 1)
          = Ok (type_code rtype ++ rest)) as Htype.
  { rewrite Hfunc.
    change (str "@@" ++ distance :: "A"%char :: type_code rtype ++ rest)
      with ((str "@@" ++ [distance; "A"%char]) ++ type_code rtype ++ rest).
    rewrite app_assoc. apply ptr_add_app.
    rewrite length_app. cbn [str list_ascii_of_string List.length app]. lia. }
  assert (forall buffer,
             demangle_classname (S (List.length func)) func
               (Z.of_nat (List.length stored)) buffer
             = Ok (buffer ++ rendered_name components)) as Hclass.
  { intros buffer. rewrite Hfunc. apply demangle_classname_stored; try assumption.
    pose proof (stored_name_length components). fold stored in H.
    rewrite length_app. lia. }
  assert (Z.of_nat (List.length head)
          = Z.of_nat (List.length stored) + 2 + 1 + 1 + type_consumption rtype) as Hp.
  { subst head. rewrite (unnamed_consumption _ Hret).
    rewrite length_app. cbn [str list_ascii_of_string List.length app]. lia. }
  pose proof (type_consumption_pos rtype) as Hpos.
  clearbody func.
  unfold demangle. cbv zeta. rewrite Hsep.
  unfold bind at 1, lift at 1. rewrite Hstart.
  unfold bind at 1.
  assert (demangle_protection [] (distance :: "A"%char :: type_code rtype ++ rest) NUL
            func log
          = Ok ((1, (if Ascii.eqb distance "Y" then str "near " else []), NUL), log))
    as Hprot by (destruct Hd; subst distance; reflexivity).
  rewrite Hprot. cbv beta iota. change (1 =? 0) with false. cbv iota.
  change (in_range "A" "V" NUL && (Z.land (Zc NUL - Zc "A") 2 =? 0)) with false.
  cbv iota. unfold bind at 1, ret at 1.
  unfold bind at 1, lift at 1. rewrite Hconv.
  change (Ascii.eqb "A" "A") with true. cbv iota.
  unfold bind at 1, ret at 1.
  unfold bind at 1, lift at 1. rewrite Htype.
  unfold bind at 1, lift at 1.
  rewrite (demangle_type_of_code rtype (unnamed_well_formed _ Hret)).
  destruct (Z.eqb_spec (type_consumption rtype) 0); [lia|].
  unfold bind at 1, ret at 1.
  unfold bind at 1, lift at 1. rewrite Hclass.
  rewrite Hp. unfold demangle_params. cbv zeta. rewrite <- !app_assoc. reflexivity.
Qed.

Lemma type_code_nonempty (ts : list ctype) :
  (List.length ts <= List.length (flat_map type_code ts))%nat.
Proof.
  induction ts as [|t ts IH]; [simpl; lia|].
  cbn [flat_map List.length]. rewrite length_app.
  destruct t; cbn [type_code List.length str list_ascii_of_string]; lia.
Qed.

(** The parameters [params], with whatever stops the list behind them. *)
Lemma demangle_params_list (head : list ascii) (params : list ctype)
    (stop : list ascii) (buffer : list ascii) (log : list diagnostic) :
  Forall unnamed params -> params <> [] -> hd Float params <> Void ->
  hd NUL stop = "@"%char ->
  demangle_params (head ++ flat_map type_code params ++ stop)
    (Z.of_nat (List.length head)) buffer log
  = Ok (buffer ++ str "(" ++ join (str ", ") (map param_text params) ++ str ")", log).
Proof.
  intros Hu Hnil Hvoid Hstop.
  destruct params as [|t ts]; [contradiction|].
  inversion Hu as [|? ? Ht Hts]; subst.
  destruct (type_code_head t (unnamed_well_formed _ Ht)) as [c [code [Hcode [_ Hx]]]].
  assert (Ascii.eqb c "X" = false) as HX.
  { destruct (Ascii.eqb c "X"); [|reflexivity]. exfalso. now apply Hvoid, Hx. }
  assert (char_at (head ++ flat_map type_code (t :: ts) ++ stop)
            (Z.of_nat (List.length head)) = Ok c) as Hc.
  { cbn [flat_map]. rewrite Hcode. cbn [app]. apply char_at_middle. }
  assert (char_at (head ++ flat_map type_code (t :: ts) ++ stop)
            (Z.of_nat (List.length (head ++ flat_map type_code (t :: ts))))
          = Ok "@"%char) as Hend.
  { rewrite app_assoc. destruct stop as [|x stop].
    - cbn [hd] in Hstop. discriminate Hstop.
    - cbn [hd] in Hstop. subst x. apply char_at_middle. }
  pose proof (type_code_nonempty (t :: ts)) as Hlen.
  pose proof (demangle_args_params stop log (t :: ts)
                (S (List.length (head ++ flat_map type_code (t :: ts) ++ stop))
                 - List.length (t :: ts))
                head (buffer ++ str "(") Hu) as Hargs.
  replace (List.length (t :: ts)
           + (S (List.length (head ++ flat_map type_code (t :: ts) ++ stop))
              - List.length (t :: ts)))%nat
    with (S (List.length (head ++ flat_map type_code (t :: ts) ++ stop)))
    in Hargs by (rewrite !length_app; lia).
  set (func := head ++ flat_map type_code (t :: ts) ++ stop) in *.
  unfold demangle_params. unfold bind at 1, lift at 1. rewrite Hc, HX. cbv zeta.
  unfold bind at 1. rewrite Hargs.
  replace (S (List.length func) - List.length (t :: ts))%nat
    with (S (List.length func - List.length (t :: ts)))
    by (subst func; rewrite !length_app; lia).
  rewrite (demangle_args_end _ _ _ _ _ Hend).
  rewrite params_separated by discriminate.
  rewrite !app_assoc.
  pose proof (finish_list (((buffer ++ str "(")
                              ++ join (str ", ") (map param_text (t :: ts))))) as Hfin.
  apply (f_equal (fun m => m log)) in Hfin.
  rewrite <- !app_assoc in *. exact Hfin.
Qed.

Lemma demangle_function (components : list (list ascii)) (distance : ascii)
    (rtype : ctype) (params : list ctype) (tail : list ascii) (log : list diagnostic) :
  components <> [] -> Forall plain components ->
  Forall (fun c => c <> []) components ->
  distance = "Y"%char \/ distance = "Z"%char ->
  unnamed rtype -> Forall unnamed params -> hd Float params <> Void ->
  demangle (function_code components distance rtype params tail) log
  = Ok (function_text components distance rtype params, log).
Proof.
  intros Hnil Hplain Hne Hd Hret Hu Hvoid.
  pose proof (demangle_function_head components distance rtype
                (params_code params ++ tail) log Hnil Hplain Hne Hd Hret) as Hhead.
  cbv zeta in Hhead.
  replace (function_code components distance rtype params tail)
    with ((stored_name components ++ str "@@" ++ distance :: "A"%char :: type_code rtype)
            ++ params_code params ++ tail)
    by (unfold function_code; rewrite <- !app_assoc; reflexivity).
  rewrite Hhead. unfold function_text.
  destruct params as [|t ts].
  - cbn [params_code params_text]. unfold demangle_params.
    unfold bind at 1, lift at 1. cbn [str list_ascii_of_string app].
    rewrite char_at_middle. cbn [Ascii.eqb Bool.eqb]. unfold ret.
    now rewrite <- !app_assoc.
  - cbn [params_code params_text]. rewrite <- (app_assoc _ (str "@") tail).
    rewrite demangle_params_list; try assumption; try discriminate; try reflexivity.
    now rewrite <- !app_assoc.
Qed.





(** ** The size of the text *)

Lemma join_repeat_length (sep x : list ascii) (n : nat) :
  List.length (join sep (repeat x (S n)))
  = (S n * List.length x + n * List.length sep)%nat.
Proof.
  induction n as [|n IH]; [simpl; lia|].
  change (repeat x (S (S n))) with (x :: repeat x (S n)).
  cbn [join]. change (repeat x (S n)) with (x :: repeat x n) at 1.
  cbv iota. rewrite !length_app, IH. lia.
Qed.

(** X10.  The text that [demangle] builds in its buffer of 1024 characters
    is not bounded by the length of the name: for a function with [n]
    parameters of the type [unsigned long] the name has [n + 9] characters
    and the text [15 * n + 11].  From 68 parameters on, with a name that
    still fits a record of a name table, the text is longer than the buffer;
    the code has no test for it, and the capacity of the buffer is not part
    of the embedding. *)
Theorem demangle_text_exceeds_buffer :
  forall (n : nat) (log : list diagnostic),
    (68 <= n <= 246)%nat ->
    let func := function_code [str "f"] "Y" Void (repeat (Integer 8) n) (str "Z") in
    List.length func = (n + 9)%nat
    /\ exists text,
         demangle func log = Ok (text, log)
         /\ List.length text = (15 * n + 11)%nat
         /\ (1024 < List.length text)%nat.
Proof.
  intros n log Hn func.
  destruct n as [|n]; [lia|].
  split.
  - subst func. unfold function_code, params_code.
    change (repeat (Integer 8) (S n)) with (Integer 8 :: repeat (Integer 8) n).
    cbv iota. rewrite !length_app. cbn [stored_name type_code str list_ascii_of_string
                                          List.length app flat_map].
    rewrite !length_app.
    assert (List.length (flat_map type_code (repeat (Integer 8) n)) = n) as ->.
    { clear. induction n as [|n IH]; [reflexivity|].
      cbn [repeat flat_map type_code app List.length]. now rewrite IH. }
    cbn [List.length]. lia.
  - exists (function_text [str "f"] "Y" Void (repeat (Integer 8) (S n))).
    assert (List.length (function_text [str "f"] "Y" Void (repeat (Integer 8) (S n)))
            = (15 * S n + 11)%nat) as Hlen.
    { unfold function_text, params_text.
      change (repeat (Integer 8) (S n)) with (Integer 8 :: repeat (Integer 8) n).
      cbv iota. change (Integer 8 :: repeat (Integer 8) n) with (repeat (Integer 8) (S n)).
      rewrite map_repeat. rewrite !length_app, join_repeat_length.
      cbn. lia. }
    split; [|split; [exact Hlen|lia]].
    subst func. apply demangle_function.
    + discriminate.
    + repeat constructor.
    + repeat constructor. discriminate.
    + now left.
    + exact I.
    + apply Forall_forall. intros t Ht. apply repeat_spec in Ht. subst t. simpl. lia.
    + discriminate.
Qed.

(** The theorem on 68 parameters. *)
Lemma demangle_text_exceeds_buffer_witness :
  let func := function_code [str "f"] "Y" Void (repeat (Integer 8) 68) (str "Z") in
  List.length func = (68 + 9)%nat
  /\ exists text,
       demangle func [] = Ok (text, [])
       /\ List.length text = (15 * 68 + 11)%nat
       /\ (1024 < List.length text)%nat.
Proof.
  exact (demangle_text_exceeds_buffer 68 [] ltac:(lia)).
Defined.

(** ** load_exports on any specfile *)







(** ** The header *)

Lemma byte_field_encoded (v : Z) (rest : list ascii) :
  is_byte v -> byte_field ([byte_of v] ++ rest) = Ok (v, rest).
Proof.
  intros H. unfold byte_field, field. cbn [app List.length Nat.leb firstn skipn le_value].
  rewrite (Zc_byte_of v H). f_equal. f_equal. lia.
Qed.

Lemma word_field_encoded (v : Z) (rest : list ascii) :
  is_word v -> word_field (word_of v ++ rest) = Ok (v, rest).
Proof.
  intros H. unfold word_field, field, word_of.
  cbn [app List.length Nat.leb firstn skipn le_value].
  pose proof (word_bytes_value v H). f_equal. f_equal. lia.
Qed.

Lemma dword_field_encoded (v : Z) (rest : list ascii) :
  is_dword v -> dword_field (dword_of v ++ rest) = Ok (v, rest).
Proof.
  intros H. unfold is_dword in H. unfold dword_field, field, dword_of.
  cbn [app List.length Nat.leb firstn skipn le_value].
  assert (is_byte (v / 16777216)) as H3.
  { split; [apply Z.div_pos; lia|apply Z.div_lt_upper_bound; lia]. }
  rewrite (Zc_byte_of (v mod 256)) by (apply Z.mod_pos_bound; lia).
  rewrite (Zc_byte_of (v / 256 mod 256)) by (apply Z.mod_pos_bound; lia).
  rewrite (Zc_byte_of (v / 65536 mod 256)) by (apply Z.mod_pos_bound; lia).
  rewrite (Zc_byte_of _ H3).
  f_equal. f_equal.
  pose proof (Z.div_mod v 256 ltac:(lia)).
  pose proof (Z.div_mod (v / 256) 256 ltac:(lia)).
  pose proof (Z.div_mod (v / 256 / 256) 256 ltac:(lia)).
  replace (v / 65536) with (v / 256 / 256)
    by (rewrite Zdiv.Zdiv_Zdiv by lia; reflexivity).
  replace (v / 16777216) with (v / 256 / 256 / 256)
    by (rewrite !Zdiv.Zdiv_Zdiv by lia; reflexivity).
  lia.
Qed.

Lemma encode_header_length (h : Header.header_ne) :
  List.length (encode_header h) = sizeof_header_ne.
Proof. reflexivity. Qed.

Lemma decode_header_encoded (h : Header.header_ne) (rest : list ascii) :
  valid_header h -> decode_header (encode_header h ++ rest) = Ok (h, rest).
Proof.
  intros Hv. unfold valid_header in Hv.
  repeat match type of Hv with _ /\ _ => destruct Hv as [? Hv] end.
  unfold encode_header. repeat rewrite <- app_assoc.
  unfold decode_header.
  repeat (unfold bind at 1;
          first [ rewrite word_field_encoded by assumption
                | rewrite byte_field_encoded by assumption
                | rewrite dword_field_encoded by assumption ]).
  unfold ret. destruct h. reflexivity.
Qed.

Lemma fread_header_at (h : Header.header_ne) (c rest : list ascii) (p : Z)
    (l : list diagnostic) :
  valid_header h -> suffix_at c p (encode_header h ++ rest) ->
  fread_header (mkio c p l) = Ok (h, mkio c (p + 64) l).
Proof.
  intros Hv Hs. unfold fread_header. unfold bind at 1.
  rewrite <- (encode_header_length h).
  rewrite (fread_suffix _ _ _ _ _ Hs).
  unfold bind at 1, lift at 1.
  pose proof (decode_header_encoded h [] Hv) as Hd. rewrite app_nil_r in Hd.
  rewrite Hd. unfold ret. rewrite encode_header_length. reflexivity.
Qed.

(** X13.  The fields of the packed [struct header_ne] take 64 bytes, and
    reading the bytes of a header whose fields have values of their types
    gives back every field, anywhere in a file. *)
Theorem fread_header_round_trip :
  forall (h : Header.header_ne) (pre post : list ascii) (l : list diagnostic),
    valid_header h ->
    List.length (encode_header h) = 64%nat
    /\ fread_header (mkio (pre ++ encode_header h ++ post) (Z.of_nat (List.length pre)) l)
       = Ok (h, mkio (pre ++ encode_header h ++ post)
                  (Z.of_nat (List.length pre) + 64) l).
Proof.
  intros h pre post l Hv. split; [reflexivity|].
  apply (fread_header_at h _ post); [exact Hv|].
  split; [lia|]. rewrite Nat2Z.id, skipn_app, Nat.sub_diag, skipn_all. reflexivity.
Qed.

(** The theorem on a header behind the two bytes "MZ". *)
Lemma fread_header_round_trip_witness :
  List.length
    (encode_header
       (Header.mkheader 17742 5 10 64 9 305419896 770 1 0 4096 8192 16 1 0 2 3 1 20
          80 112 112 128 130 1024 1 4 0 2 8 0 0 0 10 3)) = 64%nat
  /\ fread_header
       (mkio ([byte_of 77; byte_of 90]
                ++ encode_header
                     (Header.mkheader 17742 5 10 64 9 305419896 770 1 0 4096 8192 16 1
                        0 2 3 1 20 80 112 112 128 130 1024 1 4 0 2 8 0 0 0 10 3)
                ++ [byte_of 0])
          (Z.of_nat (List.length [byte_of 77; byte_of 90])) [])
     = Ok (Header.mkheader 17742 5 10 64 9 305419896 770 1 0 4096 8192 16 1 0 2 3 1 20
             80 112 112 128 130 1024 1 4 0 2 8 0 0 0 10 3,
           mkio ([byte_of 77; byte_of 90]
                   ++ encode_header
                        (Header.mkheader 17742 5 10 64 9 305419896 770 1 0 4096 8192 16
                           1 0 2 3 1 20 80 112 112 128 130 1024 1 4 0 2 8 0 0 0 10 3)
                   ++ [byte_of 0])
             (Z.of_nat (List.length [byte_of 77; byte_of 90]) + 64) []).
Proof.
  assert (valid_header
            (Header.mkheader 17742 5 10 64 9 305419896 770 1 0 4096 8192 16 1 0 2 3 1 20
               80 112 112 128 130 1024 1 4 0 2 8 0 0 0 10 3)) as Hv.
  { unfold valid_header, is_byte, is_word, is_dword. cbn. repeat split; lia. }
  exact (fread_header_round_trip _ [byte_of 77; byte_of 90] [byte_of 0] [] Hv).
Defined.

(** ** The import module table *)

Ltac world_eq :=
  repeat first
    [ reflexivity
    | lia
    | match goal with
      | |- Ok _ = Ok _ => f_equal
      | |- (_, _) = (_, _) => f_equal
      | |- mkworld _ _ = mkworld _ _ => f_equal
      | |- mkio _ _ _ = mkio _ _ _ => f_equal
      | |- mksys _ _ _ = mksys _ _ _ => f_equal
      end ].

Lemma suffix_at_nth (c : list ascii) (p : Z) (b : ascii) (s : list ascii) :
  suffix_at c p (b :: s) -> load c p = Ok b.
Proof.
  intros [Hp H]. apply skipn_cons_nth in H. destruct H as [Hn _].
  unfold load. destruct (Z.ltb_spec p 0); [lia|]. now rewrite Hn.
Qed.

Lemma memcpy_from_suffix (a : list ascii) (p : Z) (b : ascii) (xs rest : list ascii) :
  suffix_at a p (b :: xs ++ rest) ->
  memcpy_from a (p + 1) (Z.of_nat (List.length xs)) = Ok xs.
Proof.
  intros Hs. pose proof Hs as [Hp Hskip].
  assert (Z.of_nat (List.length (b :: xs ++ rest)) + p <= Z.of_nat (List.length a)) as Hl.
  { rewrite <- Hskip, length_skipn. cbn [List.length] in *.
    assert (Z.to_nat p < List.length a)%nat.
    { apply skipn_cons_nth in Hskip. destruct Hskip as [Hn _].
      apply nth_error_Some. congruence. }
    lia. }
  cbn [List.length] in Hl. rewrite length_app in Hl.
  apply suffix_at_cons in Hs. destruct Hs as [_ [_ Hs]].
  unfold memcpy_from.
  destruct (Z.leb_spec 0 (p + 1)); [|lia].
  destruct (Z.leb_spec (p + 1 + Z.of_nat (List.length xs)) (Z.of_nat (List.length a)));
    [|lia].
  cbn [andb]. rewrite Hs, Nat2Z.id, firstn_app, firstn_all, Nat.sub_diag.
  cbn [firstn]. now rewrite app_nil_r.
Qed.

Lemma no_specfile (opts : bool) (module : import_module) (st : sys) :
  files st = [] ->
  load_exports opts module st
  = Ok (mkimport (im_name module) [] 0, sys_warn st (NoSpecfile (im_name module))).
Proof.
  intros H. unfold load_exports, bind, fopen_r. rewrite H. cbn [lookup_file].
  rewrite H. reflexivity.
Qed.

Lemma import_modules_refs (mode opts : bool) (nametab c rest : list ascii) :
  forall (refs : list module_ref) (done tail : list import_module) (i p : Z)
         (l : list diagnostic) (st : sys),
    Forall (valid_ref nametab) refs ->
    (mode = true -> files st = []) ->
    suffix_at c p (encode_refs refs ++ rest) ->
    i = Z.of_nat (List.length done) ->
    import_modules (List.length refs) mode opts nametab
      (done ++ repeat (mkimport [] [] 0) (List.length refs) ++ tail) i
      (mkworld (mkio c p l) st)
    = Ok (done ++ map (fun r => mkimport (mr_name r) [] 0) refs ++ tail,
          mkworld (mkio c (p + 2 * Z.of_nat (List.length refs)) l)
            (mksys (files st) (unwritable st)
               (sys_stderr st
                  ++ (if mode then map (fun r => NoSpecfile (mr_name r)) refs else [])))).
Proof.
  induction refs as [|r refs IH]; intros done tail i p l st Hv Hfiles Hs Hi.
  - cbn [List.length import_modules repeat map app]. unfold ret.
    destruct mode; rewrite app_nil_r; destruct st as [fs uw err];
      cbn [files unwritable sys_stderr];
      world_eq.
  - inversion Hv as [|? ? Hr Hrs]; subst.
    destruct Hr as [Hword [Hlen [Hnul [rest' Hname]]]].
    cbn [List.length import_modules repeat map app encode_refs flat_map] in *.
    rewrite <- app_assoc in Hs. unfold word_of in Hs. cbn [app] in Hs.
    unfold bind at 1, on_io at 1. cbn [w_io w_sys].
    rewrite read_word_eq.
    apply suffix_at_cons in Hs. destruct Hs as [Hlo Hs].
    apply suffix_at_cons in Hs. destruct Hs as [Hhi Hs].
    rewrite Hlo, Hhi, (word_bytes_value _ Hword).
    unfold bind at 1, lift at 1. rewrite (suffix_at_nth _ _ _ _ Hname).
    rewrite Zc_byte_of by (unfold is_byte; lia).
    unfold bind at 1, lift at 1. rewrite (memcpy_from_suffix _ _ _ _ _ Hname).
    rewrite (c_str_plain _ Hnul).
    unfold bind at 1, lift at 1.
    rewrite (store_middle done _ _ _ _ eq_refl).
    unfold bind at 1, lift at 1.
    rewrite (load_middle done _ _ _ eq_refl).
    change (set_im_name (mr_name r) (mkimport [] [] 0))
      with (mkimport (mr_name r) [] 0).
    cbn [im_name].
    assert (forall (w : world),
               w = mkworld (mkio c (p + 2) l) st ->
               (if mode
                then on_sys (load_exports opts (mkimport (mr_name r) [] 0))
                else ret (mkimport (mr_name r) [] 0)) w
               = Ok (mkimport (mr_name r) [] 0,
                     mkworld (mkio c (p + 2) l)
                       (if mode then sys_warn st (NoSpecfile (mr_name r)) else st)))
      as Hload.
    { intros w ->. destruct mode; [|reflexivity].
      unfold on_sys. cbn [w_sys w_io]. rewrite no_specfile by now apply Hfiles.
      reflexivity. }
    unfold bind at 1. rewrite (Hload _ eq_refl). clear Hload.
    unfold bind at 1, lift at 1.
    rewrite (store_middle done _ _ _ _ eq_refl).
    replace (done ++ mkimport (mr_name r) [] 0
               :: repeat (mkimport [] [] 0) (List.length refs) ++ tail)
      with ((done ++ [mkimport (mr_name r) [] 0])
              ++ repeat (mkimport [] [] 0) (List.length refs) ++ tail)
      by (now rewrite <- app_assoc).
    at_cursor Hs (p + 2).
    rewrite (IH (done ++ [mkimport (mr_name r) [] 0]) tail _ (p + 2) l _ Hrs).
    + rewrite <- app_assoc. cbn [app].
      destruct mode; cbn [sys_warn files unwritable sys_stderr map];
        rewrite <- ?app_assoc; cbn [app]; world_eq.
    + intros Hm. destruct mode; [|discriminate]. cbn [sys_warn files]. now apply Hfiles.
    + exact Hs.
    + rewrite length_app. cbn [List.length]. lia.
Qed.

(** X14.  A module reference table whose offsets point to names of the
    imported name table: [get_import_module_table] returns one module for
    each reference, in the order of the table, with its name and no export.
    Without the mode DISASSEMBLE the disk is not looked at; with it and with
    no file on the disk there is one note for each module, in that order. *)
Theorem get_import_module_table_names :
  forall (mode_DISASSEMBLE opts_DEMANGLE : bool) (refs : list module_ref)
         (pre post nametab : list ascii) (p : Z) (l : list diagnostic) (st : sys),
    Forall (valid_ref nametab) refs ->
    (mode_DISASSEMBLE = true -> files st = []) ->
    get_import_module_table mode_DISASSEMBLE opts_DEMANGLE (Z.of_nat (List.length pre))
      (Z.of_nat (List.length refs)) nametab
      (mkworld (mkio (pre ++ encode_refs refs ++ post) p l) st)
    = Ok (map (fun r => mkimport (mr_name r) [] 0) refs,
          mkworld
            (mkio (pre ++ encode_refs refs ++ post)
               (Z.of_nat (List.length pre) + 2 * Z.of_nat (List.length refs)) l)
            (mksys (files st) (unwritable st)
               (sys_stderr st
                  ++ (if mode_DISASSEMBLE
                      then map (fun r => NoSpecfile (mr_name r)) refs
                      else [])))).
Proof.
  intros mode opts refs pre post nametab p l st Hv Hfiles.
  assert (suffix_at (pre ++ encode_refs refs ++ post) (Z.of_nat (List.length pre))
            (encode_refs refs ++ post)) as Hs.
  { split; [lia|]. rewrite Nat2Z.id, skipn_app, Nat.sub_diag, skipn_all. reflexivity. }
  unfold get_import_module_table.
  unfold bind at 1, on_io at 1, fseek_set, set_fpos. cbn [w_io w_sys contents fpos stderr].
  unfold malloc_modules. rewrite Nat2Z.id.
  pose proof (import_modules_refs mode opts nametab _ post refs [] [] 0 _ l st
                Hv Hfiles Hs eq_refl) as H.
  cbn [app] in H. rewrite !app_nil_r in H. exact H.
Qed.

(** The theorem on two modules, in the mode DISASSEMBLE. *)
Lemma get_import_module_table_names_witness :
  get_import_module_table true false (Z.of_nat (List.length [byte_of 9]))
    (Z.of_nat (List.length [mkref 7 (str "GDI"); mkref 0 (str "KERNEL")]))
    (map byte_of [6; 75; 69; 82; 78; 69; 76; 3; 71; 68; 73])
    (mkworld (mkio ([byte_of 9]
                      ++ encode_refs [mkref 7 (str "GDI"); mkref 0 (str "KERNEL")]
                      ++ []) 0 [])
       (mksys [] [] []))
  = Ok (map (fun r => mkimport (mr_name r) [] 0)
          [mkref 7 (str "GDI"); mkref 0 (str "KERNEL")],
        mkworld
          (mkio ([byte_of 9]
                   ++ encode_refs [mkref 7 (str "GDI"); mkref 0 (str "KERNEL")] ++ [])
             (Z.of_nat (List.length [byte_of 9])
              + 2 * Z.of_nat (List.length [mkref 7 (str "GDI"); mkref 0 (str "KERNEL")]))
             [])
          (mksys (files (mksys [] [] [])) (unwritable (mksys [] [] []))
             (sys_stderr (mksys [] [] [])
                ++ map (fun r => NoSpecfile (mr_name r))
                     [mkref 7 (str "GDI"); mkref 0 (str "KERNEL")]))).
Proof.
  assert (Forall (valid_ref (map byte_of [6; 75; 69; 82; 78; 69; 76; 3; 71; 68; 73]))
            [mkref 7 (str "GDI"); mkref 0 (str "KERNEL")]) as Hv.
  { repeat apply Forall_cons; try apply Forall_nil.
    - split; [unfold is_word; simpl; lia|]. split; [simpl; lia|].
      split; [now apply not_in_str|]. exists []. split; [simpl; lia|reflexivity].
    - split; [unfold is_word; simpl; lia|]. split; [simpl; lia|].
      split; [now apply not_in_str|]. exists (map byte_of [3; 71; 68; 73]).
      split; [simpl; lia|reflexivity]. }
  exact (get_import_module_table_names true false
           [mkref 7 (str "GDI"); mkref 0 (str "KERNEL")] [byte_of 9] []
           (map byte_of [6; 75; 69; 82; 78; 69; 76; 3; 71; 68; 73]) 0 [] (mksys [] [] [])
           Hv (fun _ => eq_refl)).
Defined.

(** X16.  [get_import_module_table] does not check the offsets: an offset
    behind the end of the imported name table, or a name whose length byte
    leads behind that end, is a read outside of the table. *)
Theorem get_import_module_table_offset_unchecked :
  forall (mode_DISASSEMBLE opts_DEMANGLE : bool) (offset ne_cmod : Z)
         (pre post nametab : list ascii) (p : Z) (l : list diagnostic) (st : sys),
    is_word offset -> 1 <= ne_cmod ->
    (Z.of_nat (List.length nametab) <= offset
     \/ exists b, load nametab offset = Ok b
                  /\ Z.of_nat (List.length nametab) < offset + 1 + Zc b) ->
    get_import_module_table mode_DISASSEMBLE opts_DEMANGLE (Z.of_nat (List.length pre))
      ne_cmod nametab
      (mkworld (mkio (pre ++ word_of offset ++ post) p l) st)
    = Err OutOfBounds.
Proof.
  intros mode opts offset cmod pre post nametab p l st Hword Hcmod Hout.
  assert (suffix_at (pre ++ word_of offset ++ post) (Z.of_nat (List.length pre))
            (word_of offset ++ post)) as Hs.
  { split; [lia|]. rewrite Nat2Z.id, skipn_app, Nat.sub_diag, skipn_all. reflexivity. }
  set (c := pre ++ word_of offset ++ post) in *.
  unfold get_import_module_table.
  unfold bind at 1, on_io at 1, fseek_set, set_fpos. cbn [w_io w_sys contents fpos stderr].
  destruct (Z.to_nat cmod) as [|n] eqn:E; [lia|].
  cbn [import_modules].
  unfold bind at 1, on_io at 1. cbn [w_io w_sys].
  rewrite read_word_eq. unfold word_of in Hs. cbn [app] in Hs.
  apply suffix_at_cons in Hs. destruct Hs as [Hlo Hs].
  apply suffix_at_cons in Hs. destruct Hs as [Hhi Hs].
  rewrite Hlo, Hhi, (word_bytes_value _ Hword).
  unfold bind at 1, lift at 1.
  destruct Hout as [Hout|[b [Hb Hout]]].
  - unfold load. destruct (Z.ltb_spec offset 0); [reflexivity|].
    destruct (nth_error nametab (Z.to_nat offset)) eqn:En; [|reflexivity].
    exfalso. assert (Z.to_nat offset < List.length nametab)%nat
      by (apply nth_error_Some; congruence). lia.
  - rewrite Hb. unfold bind at 1, lift at 1. unfold memcpy_from.
    destruct (Z.leb_spec (offset + 1 + Zc b) (Z.of_nat (List.length nametab))); [lia|].
    now rewrite andb_false_r.
Qed.

(** The theorem on a name that is cut by the end of the table. *)
Lemma get_import_module_table_offset_unchecked_witness :
  get_import_module_table false false (Z.of_nat (List.length [byte_of 9])) 1
    (map byte_of [6; 75; 69; 82])
    (mkworld (mkio ([byte_of 9] ++ word_of 0 ++ []) 0 []) (mksys [] [] []))
  = Err OutOfBounds.
Proof.
  assert (is_word 0) as Hw by (unfold is_word; lia).
  assert (exists b, load (map byte_of [6; 75; 69; 82]) 0 = Ok b
                    /\ Z.of_nat (List.length (map byte_of [6; 75; 69; 82]))
                       < 0 + 1 + Zc b) as Hout.
  { exists (byte_of 6). split; [reflexivity|]. vm_compute. reflexivity. }
  exact (get_import_module_table_offset_unchecked false false 0 1 [byte_of 9] []
           (map byte_of [6; 75; 69; 82]) 0 [] (mksys [] [] [])
           Hw ltac:(lia) (or_intror Hout)).
Defined.

(** ** The import module table with the specfiles that there are *)




(** ** The tables at any place of a file *)

Lemma get_entry_table_at (bs : list bundle) (c rest : list ascii) (start : Z) (m : ne)
    (p : Z) (l : list diagnostic) :
  Forall valid_bundle bs -> Z.of_nat (List.length (table_entries bs)) <= INT_MAX ->
  suffix_at c start (encode_table bs ++ rest) ->
  get_entry_table start m (mkio c p l)
  = Ok (mkne (ne_name m) (ne_description m) (table_entries bs)
          (Z.of_nat (List.length (table_entries bs))),
        mkio c (start + Z.of_nat (List.length (encode_table bs)))
          (l ++ table_warnings 1 bs)).
Proof.
  intros Hv Hint Hs.
  assert (start <= Z.of_nat (List.length c)) as Hle.
  { unfold encode_table in Hs. destruct (flat_map encode_bundle bs) eqn:E;
      cbn [app] in Hs; eapply suffix_at_inside; exact Hs. }
  destruct (suffix_at_split _ _ _ Hs Hle) as [pre [-> <-]].
  now apply get_entry_table_encoded.
Qed.

(** X17.  For a module in a file, with the header at [offset_ne] and the
    tables where the header says (the nonresident names at an offset from
    the start of the file, the other tables at an offset from the header);
    the entries of its entry table are counted by an [int], the names of its
    name tables have 1 to 255 characters other than NUL, do not start with
    '?' when demangling is on and have the ordinals of entries, and the
    offsets of its module references point to names of the imported name
    table; in the mode DISASSEMBLE there is no file on the disk.
    [readne] calls [read_segments] with the module put together: the header,
    the module name from the resident names and the description from the
    nonresident names, the imported name table, the imported modules, and
    the entries of the entry table, each with the name of the last record of
    its ordinal, the nonresident names being read after the resident
    ones. *)
Theorem readne_assembles_module :
  forall (mode_DISASSEMBLE opts_DEMANGLE : bool)
         (read_segments : Z -> module_ne -> M world module_ne) (offset_ne : Z)
         (i : image) (c : list ascii) (p : Z) (l : list diagnostic) (st : sys),
    image_at opts_DEMANGLE c offset_ne i ->
    (mode_DISASSEMBLE = true -> files st = []) ->
    let h := img_header i in
    exists enttab,
      readne mode_DISASSEMBLE opts_DEMANGLE read_segments offset_ne
        (mkworld (mkio c p l) st)
      = read_segments (offset_ne + Header.ne_segtab h)
          (mkmodule h
             (mkne (img_name i) (img_description i) enttab
                (Z.of_nat (List.length (table_entries (img_bundles i)))))
             (img_nametab i)
             (map (fun r => mkimport (mr_name r) [] 0) (img_refs i)))
          (mkworld
             (mkio c (offset_ne + Header.ne_modtab h + 2 * Header.ne_cmod h)
                (l ++ table_warnings 1 (img_bundles i)))
             (mksys (files st) (unwritable st)
                (sys_stderr st
                   ++ (if mode_DISASSEMBLE
                       then map (fun r => NoSpecfile (mr_name r)) (img_refs i)
                       else []))))
      /\ List.length enttab = List.length (table_entries (img_bundles i))
      /\ (forall (k : nat) (e : entry),
             nth_error (table_entries (img_bundles i)) k = Some e ->
             let ordinal := Z.of_nat k + 1 in
             nth_error enttab k
             = Some (match name_of (img_resident i ++ img_nonresident i) ordinal with
                     | Some name => set_name name e
                     | None => e
                     end)).
Proof.
  intros mode opts rs offset_ne i c p l st Himage Hfiles h.
  destruct i as [h' bs name res desc nonres nametab refs].
  cbn [img_header img_bundles img_name img_resident img_description img_nonresident
         img_nametab img_refs] in *. subst h.
  unfold image_at in Himage.
  cbn [img_header img_bundles img_name img_resident img_description img_nonresident
         img_nametab img_refs] in Himage. cbv zeta in Himage.
  destruct Himage as (Hvh & [r1 Hh] & Hbs & Hint & [r2 Het] & Hnl & Hnn & Hres & [r3 Hrt]
                      & Hdl & Hdn & Hnon & [r4 Hnt] & Hblob & [r5 Him] & Hrefs & Hcmod
                      & [r6 Hmt]).
  exists (attach_names (res ++ nonres) (table_entries bs)).
  split; [|split].
  - unfold readne.
    unfold bind at 1, on_io at 1, fseek_set at 1, set_fpos.
    cbn [w_io w_sys contents fpos stderr].
    unfold bind at 1, on_io at 1. cbn [w_io w_sys].
    rewrite (fread_header_at _ _ _ _ _ Hvh Hh).
    unfold bind at 1, on_io at 1. cbn [w_io w_sys].
    rewrite (get_entry_table_at _ _ _ _ _ _ _ Hbs Hint Het). cbn [ne_enttab ne_entcount].
    unfold bind at 1, on_io at 1. cbn [w_io w_sys].
    rewrite (read_res_name_table_at opts name 0 res c r3 _ (table_entries bs) _ _
               Hnl Hnn Hres Hrt).
    unfold bind at 1, on_io at 1. cbn [w_io w_sys].
    rewrite (read_res_name_table_at opts desc 0 nonres c r4 _ _ _ _ Hdl Hdn
               ltac:(rewrite attach_names_length; exact Hnon) Hnt).
    rewrite attach_names_app.
    unfold bind at 1, on_io at 1, fseek_set at 1, set_fpos.
    cbn [w_io w_sys contents fpos stderr].
    unfold bind at 1, on_io at 1, fread_bytes. cbn [w_io w_sys].
    destruct (Z.ltb_spec (Header.ne_enttab h' - Header.ne_imptab h') 0); [lia|].
    rewrite <- Hblob, Nat2Z.id, (fread_suffix _ _ _ _ _ Him).
    unfold bind at 1. rewrite <- Hcmod.
    unfold get_import_module_table.
    unfold bind at 1, on_io at 1, fseek_set at 1, set_fpos.
    cbn [w_io w_sys contents fpos stderr].
    unfold malloc_modules. rewrite Nat2Z.id.
    pose proof (import_modules_refs mode opts nametab c r6 refs [] [] 0 _
                  (l ++ table_warnings 1 bs) st Hrefs Hfiles Hmt eq_refl) as Himp.
    cbn [app] in Himp. rewrite !app_nil_r in Himp. rewrite Himp.
    reflexivity.
  - apply attach_names_length.
  - intros k e He. apply attach_names_nth; [|exact He].
    apply Forall_app. split.
    + eapply Forall_impl; [|exact Hres]. intros r Hr. apply Hr.
    + eapply Forall_impl; [|exact Hnon]. intros r Hr. apply Hr.
Qed.

(** The module of the witness: a stub "MZ", the header, the resident names
    (MOD; FOO 1), the module reference table, the imported names (KERNEL),
    the entry table (one fixed entry of segment 1) and the nonresident
    names (D; BAR 1). *)
Lemma readne_assembles_module_witness :
  let h := Header.mkheader 17742 5 10 87 6 0 770 1 0 4096 8192 16 1 0 2 3 1 11
             0 0 64 77 79 95 0 4 0 2 0 0 0 0 10 3 in
  let i := mkimage h [Fixed 1 [mkfixed 1 16]]
             (str "MOD") [mkname (str "FOO") 1]
             (str "D") [mkname (str "BAR") 1]
             (map byte_of [0; 6; 75; 69; 82; 78; 69; 76])
             [mkref 1 (str "KERNEL")] in
  let c := map byte_of [77; 90] ++ encode_header h
             ++ encode_names (str "MOD") 0 [mkname (str "FOO") 1]
             ++ encode_refs [mkref 1 (str "KERNEL")]
             ++ map byte_of [0; 6; 75; 69; 82; 78; 69; 76]
             ++ encode_table [Fixed 1 [mkfixed 1 16]]
             ++ encode_names (str "D") 0 [mkname (str "BAR") 1] in
  exists enttab,
    readne false false (fun _ m => ret m) 2 (mkworld (mkio c 0 []) (mksys [] [] []))
    = Ok (mkmodule h (mkne (str "MOD") (str "D") enttab 1)
            (map byte_of [0; 6; 75; 69; 82; 78; 69; 76])
            [mkimport (str "KERNEL") [] 0],
          mkworld (mkio c 81 []) (mksys [] [] []))
    /\ nth_error enttab 0 = Some (mkentry 1 1 16 (Some (str "BAR"))).
Proof.
  intros h i c.
  assert (image_at false c 2 i) as Himage.
  { unfold image_at. cbv zeta.
    split. { unfold valid_header, is_byte, is_word, is_dword. cbn. repeat split; lia. }
    split. { eexists. split; [lia|reflexivity]. }
    split. { valid_table. }
    split. { cbv. discriminate. }
    split. { eexists. split; [cbn; lia|reflexivity]. }
    split. { cbn. lia. }
    split. { now apply not_in_str. }
    split. { repeat apply Forall_cons; try apply Forall_nil.
             split; [cbn; lia|]. split; [now apply not_in_str|].
             split; [cbn; lia|]. split; [cbn; lia|]. intros H; discriminate. }
    split. { eexists. split; [cbn; lia|reflexivity]. }
    split. { cbn. lia. }
    split. { now apply not_in_str. }
    split. { repeat apply Forall_cons; try apply Forall_nil.
             split; [cbn; lia|]. split; [now apply not_in_str|].
             split; [cbn; lia|]. split; [cbn; lia|]. intros H; discriminate. }
    split. { eexists. split; [cbn; lia|reflexivity]. }
    split. { reflexivity. }
    split. { eexists. split; [cbn; lia|reflexivity]. }
    split. { repeat apply Forall_cons; try apply Forall_nil.
             split; [unfold is_word; cbn; lia|]. split; [cbn; lia|].
             split; [now apply not_in_str|].
             exists []. split; [cbn; lia|reflexivity]. }
    split. { reflexivity. }
    eexists. split; [cbn; lia|reflexivity]. }
  destruct (readne_assembles_module false false (fun _ m => ret m) 2 i c 0 []
              (mksys [] [] []) Himage ltac:(discriminate))
    as [enttab [Hrun [_ Hnth]]].
  exists enttab. split; [exact Hrun|]. exact (Hnth 0%nat _ eq_refl).
Defined.

(** ** The text of the flags *)

Lemma strcat_if_length (flags mask : Z) (buffer : list ascii) (text : string) :
  (List.length (strcat_if flags mask buffer text)
   <= List.length buffer + List.length (str text))%nat.
Proof.
  unfold strcat_if. destruct (negb _); [rewrite length_app|]; lia.
Qed.

Lemma fmt_d_digit (v : Z) : 0 <= v < 10 -> List.length (fmt_d v) = 1%nat.
Proof.
  intros H.
  assert (v = 0 \/ v = 1 \/ v = 2 \/ v = 3 \/ v = 4 \/ v = 5 \/ v = 6 \/ v = 7
          \/ v = 8 \/ v = 9) as Hv by lia.
  repeat (destruct Hv as [->|Hv]; [reflexivity|]). subst v. reflexivity.
Qed.

Lemma application_type (flags : Z) : 0 <= Z.shiftr (Z.land flags 1792) 8 < 8.
Proof.
  rewrite Z.shiftr_land. change (Z.shiftr 1792 8) with (Z.ones 3).
  rewrite Z.land_ones by lia. apply Z.mod_pos_bound. lia.
Qed.

Lemma dgroup_type (flags : Z) : 0 <= Z.land flags 3 < 4.
Proof.
  change 3 with (Z.ones 2). rewrite Z.land_ones by lia. apply Z.mod_pos_bound. lia.
Qed.

Lemma strcat_if_bound (flags mask : Z) (buffer : list ascii) (text : string)
    (n k : nat) :
  (List.length buffer <= n)%nat -> (List.length (str text) <= k)%nat ->
  (List.length (strcat_if flags mask buffer text) <= n + k)%nat.
Proof. intros Hn Hk. pose proof (strcat_if_length flags mask buffer text). lia. Qed.

(** X18.  For every value of the flags, one of the four tests of
    [print_flags] sets the buffer, and the text in it has 218 characters or
    less, far from the 1024 that the buffer holds; the flags 0xffff give
    these 218. *)
Theorem print_flags_fits_buffer :
  forall (flags : Z),
    exists buffer,
      print_flags_buffer flags = Ok buffer
      /\ (List.length buffer <= 218)%nat
      /\ print_flags_buffer 65535
         = Ok (str ("(unknown DGROUP type 3), global initialization, protected mode only"
                    ++ ", 8086, 80286, 80386, 80x87, (unknown application type 7)"
                    ++ ", self-loading, (unknown flag 0x1000), contains linker errors"
                    ++ ", non-conforming program, library"))
      /\ List.length
           (str ("(unknown DGROUP type 3), global initialization, protected mode only"
                 ++ ", 8086, 80286, 80386, 80x87, (unknown application type 7)"
                 ++ ", self-loading, (unknown flag 0x1000), contains linker errors"
                 ++ ", non-conforming program, library")) = 218%nat.
Proof.
  intros flags. unfold print_flags_buffer.
  pose proof (dgroup_type flags) as Hd.
  assert (exists b0,
             (if Z.land flags 3 =? 0 then Ok (str "no DGROUP")
              else if Z.land flags 3 =? 1 then Ok (str "single DGROUP")
              else if Z.land flags 3 =? 2 then Ok (str "multiple DGROUPs")
              else if Z.land flags 3 =? 3 then Ok (str "(unknown DGROUP type 3)")
              else Err OutOfBounds) = Ok b0 /\ (List.length b0 <= 23)%nat)
    as [b0 [-> H0]].
  { destruct (Z.eqb_spec (Z.land flags 3) 0); [eexists; split; [reflexivity|simpl; lia]|].
    destruct (Z.eqb_spec (Z.land flags 3) 1); [eexists; split; [reflexivity|simpl; lia]|].
    destruct (Z.eqb_spec (Z.land flags 3) 2); [eexists; split; [reflexivity|simpl; lia]|].
    destruct (Z.eqb_spec (Z.land flags 3) 3); [eexists; split; [reflexivity|simpl; lia]|].
    lia. }
  cbn [rbind]. cbv zeta. eexists. split; [reflexivity|].
  split; [|split; reflexivity].
  change 218%nat with (23 + 23 + 21 + 6 + 7 + 7 + 7 + 30 + 14 + 23 + 24 + 24 + 9)%nat.
  do 5 (apply strcat_if_bound; [|simpl; lia]).
  match goal with
  | |- (List.length (if _ then ?b ++ _ else _) <= _)%nat =>
      assert (List.length b <= 23 + 23 + 21 + 6 + 7 + 7 + 7)%nat as Hb
        by (do 6 (apply strcat_if_bound; [|simpl; lia]); exact H0);
      set (buffer := b) in *
  end.
  pose proof (application_type flags) as Happ.
  pose proof (fmt_d_digit (Z.shiftr (Z.land flags 1792) 8) ltac:(lia)) as Hdigit.
  repeat match goal with
         | |- context [if ?c then _ else _] => destruct c
         end;
    repeat rewrite length_app; try rewrite Hdigit;
    cbn [str list_ascii_of_string List.length]; lia.
Qed.

Lemma ptr_add_two (a b : ascii) (rest : list ascii) :
  ptr_add (a :: b :: rest) 2 = Ok rest.
Proof.
  unfold ptr_add. cbn [List.length].
  destruct (Z.leb_spec 2 (Z.of_nat (S (S (List.length rest))))); [|lia].
  reflexivity.
Qed.

Lemma word_has_flag (flags : Z) :
  is_word flags -> flags <> 0 ->
  Z.land flags 1 <> 0 \/ Z.land flags 2 <> 0 \/ Z.land flags 4 <> 0
  \/ Z.land flags 8 <> 0 \/ Z.land flags 65520 <> 0.
Proof.
  intros [H0 H1] Hnz.
  destruct (Z.eq_dec (Z.land flags 1) 0) as [E1|]; [|tauto].
  destruct (Z.eq_dec (Z.land flags 2) 0) as [E2|]; [|tauto].
  destruct (Z.eq_dec (Z.land flags 4) 0) as [E4|]; [|tauto].
  destruct (Z.eq_dec (Z.land flags 8) 0) as [E8|]; [|tauto].
  destruct (Z.eq_dec (Z.land flags 65520) 0) as [E|]; [|tauto].
  exfalso. apply Hnz. apply Z.bits_inj'. intros n Hn. rewrite Z.bits_0.
  destruct (Z.lt_ge_cases n 16) as [Hlt|Hge].
  - assert (n = 0 \/ n = 1 \/ n = 2 \/ n = 3 \/ 4 <= n < 16) as Hcase by lia.
    destruct Hcase as [->|[->|[->|[->|Hhigh]]]].
    + apply (f_equal (fun v => Z.testbit v 0)) in E1.
      rewrite Z.land_spec, Z.bits_0 in E1. cbn in E1. now rewrite andb_true_r in E1.
    + apply (f_equal (fun v => Z.testbit v 1)) in E2.
      rewrite Z.land_spec, Z.bits_0 in E2. cbn in E2. now rewrite andb_true_r in E2.
    + apply (f_equal (fun v => Z.testbit v 2)) in E4.
      rewrite Z.land_spec, Z.bits_0 in E4. cbn in E4. now rewrite andb_true_r in E4.
    + apply (f_equal (fun v => Z.testbit v 3)) in E8.
      rewrite Z.land_spec, Z.bits_0 in E8. cbn in E8. now rewrite andb_true_r in E8.
    + apply (f_equal (fun v => Z.testbit v n)) in E.
      rewrite Z.land_spec, Z.bits_0 in E.
      assert (Z.testbit 65520 n = true) as Hbit.
      { assert (n = 4 \/ n = 5 \/ n = 6 \/ n = 7 \/ n = 8 \/ n = 9 \/ n = 10
                \/ n = 11 \/ n = 12 \/ n = 13 \/ n = 14 \/ n = 15) as Hn' by lia.
        repeat (destruct Hn' as [->|Hn']; [reflexivity|]). subst n. reflexivity. }
      now rewrite Hbit, andb_true_r in E.
  - apply Z.bits_above_log2; [lia|].
    destruct (Z.eq_dec flags 0) as [->|Hf]; [simpl; lia|].
    apply Z.log2_lt_pow2; [lia|].
    assert (2 ^ 16 <= 2 ^ n) by (apply Z.pow_le_mono_r; lia). lia.
Qed.

Lemma print_os2flags_buffer_separated (flags : Z) :
  is_word flags -> flags <> 0 ->
  exists text, print_os2flags_buffer flags = ","%char :: " "%char :: text.
Proof.
  intros Hw Hnz. pose proof (word_has_flag flags Hw Hnz) as Hflag.
  unfold print_os2flags_buffer, strcat_if. cbv zeta.
  destruct (Z.eqb_spec (Z.land flags 1) 0);
    destruct (Z.eqb_spec (Z.land flags 2) 0);
    destruct (Z.eqb_spec (Z.land flags 4) 0);
    destruct (Z.eqb_spec (Z.land flags 8) 0);
    destruct (Z.eqb_spec (Z.land flags 65520) 0);
    cbn [negb app str list_ascii_of_string];
    try (eexists; reflexivity).
  exfalso. tauto.
Qed.

(** X19.  [print_os2flags] prints the value of the flags in both of its
    branches: the buffer is empty for the flags 0 only, for which the text
    "0x0000" of that branch is right, and what is printed of a buffer that is
    not empty is the text behind its leading ", ". *)
Theorem print_os2flags_shows_value :
  forall (flags : Z) (out : list ascii),
    is_word flags ->
    print_os2flags flags out
    = Ok (tt, out ++ str "OS/2 flags: 0x" ++ fmt_04x flags
                ++ (if flags =? 0 then []
                    else str " (" ++ skipn 2 (print_os2flags_buffer flags) ++ str ")")
                ++ [NL])
    /\ (flags <> 0 -> firstn 2 (print_os2flags_buffer flags) = str ", ").
Proof.
  intros flags out Hw. destruct (Z.eqb_spec flags 0) as [->|Hnz].
  - split; [reflexivity|]. intros H. contradiction.
  - destruct (print_os2flags_buffer_separated flags Hw Hnz) as [text Htext].
    split; [|intros _; now rewrite Htext].
    unfold print_os2flags. cbv zeta. rewrite Htext.
    unfold bind at 1, lift at 1. cbn [char_at Z.ltb Z.compare Z.to_nat nth_error].
    cbn [Ascii.eqb Bool.eqb NUL zero negb].
    unfold bind at 1, lift at 1. rewrite ptr_add_two.
    unfold printf. cbn [skipn]. now rewrite <- !app_assoc.
Qed.

(** The theorem on the flags 9. *)
Lemma print_os2flags_shows_value_witness :
  print_os2flags 9 []
  = Ok (tt, [] ++ str "OS/2 flags: 0x" ++ fmt_04x 9
              ++ (if 9 =? 0 then []
                  else str " (" ++ skipn 2 (print_os2flags_buffer 9) ++ str ")")
              ++ [NL])
  /\ (9 <> 0 -> firstn 2 (print_os2flags_buffer 9) = str ", ").
Proof.
  exact (print_os2flags_shows_value 9 [] ltac:(unfold is_word; lia)).
Defined.

(** ** The listing of the exports *)

Lemma pad_length (c : ascii) (width : nat) (text : list ascii) :
  List.length (pad c width text) = Nat.max width (List.length text).
Proof. unfold pad. rewrite length_app, repeat_length. lia. Qed.

Lemma dec_digits_length (fuel : nat) :
  forall (n : Z) (d : nat),
    0 <= n < 10 ^ Z.of_nat d -> (1 <= d)%nat ->
    (List.length (dec_digits fuel n []) <= d)%nat.
Proof.
  induction fuel as [|fuel IH]; intros n d Hn Hd; [simpl; lia|].
  cbn [dec_digits]. destruct (Z.eqb_spec (n / 10) 0) as [E|E]; [simpl; lia|].
  rewrite dec_digits_app, length_app. cbn [List.length].
  destruct d as [|d]; [lia|].
  rewrite Nat2Z.inj_succ, Z.pow_succ_r in Hn by lia.
  assert (10 <= n).
  { destruct (Z.lt_ge_cases n 10) as [Hlt|Hge]; [|exact Hge].
    rewrite Z.div_small in E by lia. contradiction. }
  assert (1 <= d)%nat.
  { destruct d; [simpl in Hn; lia|lia]. }
  assert (0 <= n / 10 < 10 ^ Z.of_nat d) as Hq.
  { split; [apply Z.div_pos; lia|apply Z.div_lt_upper_bound; lia]. }
  pose proof (IH (n / 10) d Hq ltac:(lia)).
  lia.
Qed.

Lemma fmt_d_length (n : Z) (d : nat) :
  0 <= n < 10 ^ Z.of_nat d -> (1 <= d)%nat -> (List.length (fmt_d n) <= d)%nat.
Proof.
  intros Hn Hd. unfold fmt_d. destruct (Z.ltb_spec n 0); [lia|].
  now apply dec_digits_length.
Qed.

Lemma hex_digits_app (fuel : nat) :
  forall (n : Z) (acc : list ascii),
    hex_digits fuel n acc = hex_digits fuel n [] ++ acc.
Proof.
  induction fuel as [|fuel IH]; intros n acc; [reflexivity|].
  cbn [hex_digits]. destruct (n / 16 =? 0); [reflexivity|].
  rewrite (IH _ (_ :: acc)), (IH _ [_]), <- app_assoc. reflexivity.
Qed.

Lemma hex_digits_length (fuel : nat) :
  forall (n : Z) (d : nat),
    0 <= n < 16 ^ Z.of_nat d -> (1 <= d)%nat ->
    (List.length (hex_digits fuel n []) <= d)%nat.
Proof.
  induction fuel as [|fuel IH]; intros n d Hn Hd; [simpl; lia|].
  cbn [hex_digits]. destruct (Z.eqb_spec (n / 16) 0) as [E|E]; [simpl; lia|].
  rewrite hex_digits_app, length_app. cbn [List.length].
  destruct d as [|d]; [lia|].
  rewrite Nat2Z.inj_succ, Z.pow_succ_r in Hn by lia.
  assert (16 <= n).
  { destruct (Z.lt_ge_cases n 16) as [Hlt|Hge]; [|exact Hge].
    rewrite Z.div_small in E by lia. contradiction. }
  assert (1 <= d)%nat.
  { destruct d; [simpl in Hn; lia|lia]. }
  assert (0 <= n / 16 < 16 ^ Z.of_nat d) as Hq.
  { split; [apply Z.div_pos; lia|apply Z.div_lt_upper_bound; lia]. }
  pose proof (IH (n / 16) d Hq ltac:(lia)).
  lia.
Qed.

Lemma fmt_04x_length (v : Z) : is_word v -> List.length (fmt_04x v) = 4%nat.
Proof.
  intros [H0 H1]. unfold fmt_04x. rewrite pad_length.
  pose proof (hex_digits_length (S (Z.to_nat (Z.log2 v))) v 4
                ltac:(simpl; lia) ltac:(lia)) as H.
  unfold fmt_x. lia.
Qed.

Lemma fmt_5d_length (k : Z) : 0 <= k < 100000 -> List.length (fmt_5d k) = 5%nat.
Proof.
  intros H. unfold fmt_5d. rewrite pad_length.
  pose proof (fmt_d_length k 5 ltac:(simpl; lia) ltac:(lia)). lia.
Qed.

Lemma fmt_2d_length (k : Z) : 0 <= k < 100 -> List.length (fmt_2d k) = 2%nat.
Proof.
  intros H. unfold fmt_2d. rewrite pad_length.
  pose proof (fmt_d_length k 2 ltac:(simpl; lia) ltac:(lia)). lia.
Qed.

Lemma print_export_lines_text :
  forall (rest done : list entry) (i : Z) (out : list ascii),
    i = Z.of_nat (List.length done) ->
    print_export_lines (List.length rest) i (done ++ rest) out
    = Ok (tt, out ++ export_text i rest).
Proof.
  induction rest as [|e rest IH]; intros done i out Hi.
  - cbn [List.length print_export_lines export_text]. unfold ret.
    now rewrite app_nil_r.
  - cbn [List.length print_export_lines export_text].
    unfold bind at 1, lift at 1. rewrite (load_middle done e rest i Hi).
    replace (done ++ e :: rest) with ((done ++ [e]) ++ rest)
      by (now rewrite <- app_assoc).
    unfold export_line, export_columns.
    destruct (Z.eqb_spec (e_segment e) 254) as [E|E].
    + rewrite E. change (254 =? 0) with false. cbv iota.
      unfold bind at 1, printf at 1.
      rewrite (IH (done ++ [e]) (i + 1)) by (rewrite length_app; cbn [List.length]; lia).
      now rewrite <- !app_assoc.
    + destruct (Z.eqb_spec (e_segment e) 0) as [E0|E0]; cbn [negb].
      * unfold bind at 1, ret at 1.
        rewrite (IH (done ++ [e]) (i + 1)) by (rewrite length_app; cbn [List.length]; lia).
        reflexivity.
      * unfold bind at 1, printf at 1.
        rewrite (IH (done ++ [e]) (i + 1)) by (rewrite length_app; cbn [List.length]; lia).
        now rewrite <- !app_assoc.
Qed.

(** X20.  [print_export] writes a line for the entries with a segment and
    for them only, be they named or not, and an empty line at the end.  For
    an ordinal below 100000, an offset that is a word and a segment below
    100 or the segment 0xfe, the name starts behind 15 characters in both
    kinds of line. *)
Theorem print_export_lists_segments :
  forall (m : ne) (out : list ascii),
    ne_entcount m = Z.of_nat (List.length (ne_enttab m)) ->
    print_export m out = Ok (tt, out ++ export_text 0 (ne_enttab m) ++ [NL])
    /\ (forall (ordinal : Z) (e : entry),
           (e_segment e = 0 -> export_line ordinal e = [])
           /\ (e_segment e <> 0 ->
               export_line ordinal e
               = export_columns ordinal e ++ name_or_none e ++ [NL])
           /\ (0 <= ordinal < 100000 -> is_word (e_offset e) ->
               0 <= e_segment e < 100 \/ e_segment e = 254 ->
               List.length (export_columns ordinal e) = 15%nat)).
Proof.
  intros m out Hcount. split.
  - unfold print_export. rewrite Hcount, Nat2Z.id.
    unfold bind. pose proof (print_export_lines_text (ne_enttab m) [] 0 out eq_refl) as H.
    cbn [app] in H. rewrite H. unfold printf. now rewrite <- app_assoc.
  - intros ordinal e. unfold export_line. split; [|split].
    + intros ->. reflexivity.
    + intros H. destruct (Z.eqb_spec (e_segment e) 0); [contradiction|reflexivity].
    + intros Hord Hoff Hseg. unfold export_columns.
      destruct (Z.eqb_spec (e_segment e) 254) as [E|E];
        repeat rewrite length_app;
        rewrite (fmt_5d_length _ Hord), (fmt_04x_length _ Hoff);
        try rewrite (fmt_2d_length (e_segment e)) by lia;
        cbn [str list_ascii_of_string List.length]; lia.
Qed.

(** The theorem on three entries, the second without a segment. *)
Lemma print_export_lists_segments_witness :
  print_export
    (mkne (str "MOD") []
       [mkentry 0 1 16 (Some (str "FOO")); mkentry 0 0 0 (Some (str "BAR"));
        mkentry 0 254 5 None] 3) []
  = Ok (tt, str "" ++ [TAB] ++ str "    1" ++ [TAB] ++ str " 1:0010" ++ [TAB]
              ++ str "FOO" ++ [NL]
              ++ [TAB] ++ str "    3" ++ [TAB] ++ str "   0005" ++ [TAB]
              ++ str "<no name>" ++ [NL] ++ [NL]).
Proof.
  exact (proj1 (print_export_lists_segments
                  (mkne (str "MOD") []
                     [mkentry 0 1 16 (Some (str "FOO")); mkentry 0 0 0 (Some (str "BAR"));
                      mkentry 0 254 5 None] 3) [] eq_refl)).
Defined.
